(** * TLS hello messages and the handshake transcript hash

    A shallow embedding of [src/tls/hello.cpp] and
    [src/tls/tls_handshake_hash.cpp], and the properties of the wire codec,
    of the Server Hello negotiation and of the transcript hash proved on it.

    Conventions.  A [byte] is a [Z] in [0, 256), a [u16bit] a [Z] in
    [0, 65536); the conversions C++ performs implicitly are written out
    ([u8], [u16], [u32]).  Buffers ([MemoryVector<byte>], [SecureVector],
    [std::vector]) are lists; [std::string] is the list of its bytes.  A
    thrown exception is the [Throw] outcome. *)

From stdpp Require Import base list gmap strings.
From Stdlib Require Import ZArith Lia.

Open Scope Z_scope.

(** ** Machine integers *)

Definition u8 (x : Z) : Z := x mod 2 ^ 8.
Definition u16 (x : Z) : Z := x mod 2 ^ 16.
Definition u32 (x : Z) : Z := x mod 2 ^ 32.

Definition is_byte (b : Z) : Prop := 0 <= b < 256.
Definition is_u16bit (v : Z) : Prop := 0 <= v < 65536.

(** Modelled from the spec: [make_u16bit] is declared in a header that is
    not under src/; all wire integers are big-endian, so the first byte is
    the high one. *)
Definition make_u16bit (i0 i1 : Z) : Z := Z.lor (Z.shiftl i0 8) i1.

(** Modelled from the spec: [get_byte<T>(byte_num, input)] is declared in a
    header that is not under src/; byte 0 is the most significant of the
    [sizeof(T)] bytes of [input], as the big-endian header and length
    fields of the wire format need. *)
Definition get_byte (sizeof_T byte_num : nat) (input : Z) : Z :=
  Z.land (Z.shiftr input (8 * Z.of_nat (sizeof_T - 1 - byte_num))) 255.

(** The [sizeof(T)] bytes of one element, most significant first. *)
Definition store_be (sizeof_T : nat) (v : Z) : list Z :=
  map (fun j => get_byte sizeof_T j v) (seq 0 sizeof_T).

(** The element read back from its bytes. *)
Definition load_be (bytes : list Z) : Z :=
  fold_left (fun acc b => Z.lor (Z.shiftl acc 8) b) bytes 0.

(** Modelled from the spec: [append_tls_length_value(buf, vals, tag_size)]
    is declared in a header that is not under src/; it appends a
    [tag_size]-byte big-endian count of the payload's size in bytes and
    then the payload, and cannot fail on this path. *)
Definition append_tls_length_value
    (sizeof_T : nat) (buf : list Z) (vals : list Z) (tag_size : nat) : list Z :=
  let val_bytes := Z.of_nat (sizeof_T * length vals) in
  buf ++ map (fun i => get_byte 8 (8 - tag_size + i) val_bytes) (seq 0 tag_size)
      ++ concat (map (store_be sizeof_T) vals).

(** ** Exceptions and outcomes *)

Inductive Alert_Type := HANDSHAKE_FAILURE | PROTOCOL_VERSION.

Inductive exn :=
| Decoding_Error (what : string)
| TLS_Exception (alert : Alert_Type) (what : string).

(** The outcome of a call: a value, an exception, or (for the loops of the
    model only) the iteration budget used up; [deserialize_total] shows
    that the last one never comes out of [Client_Hello.deserialize]. *)
Inductive result (A : Type) :=
| Ok (a : A)
| Throw (e : exn)
| Out_of_fuel.
Arguments Ok {A} a.
Arguments Throw {A} e.
Arguments Out_of_fuel {A}.

(** ** The wire reader *)

Module TLS_Data_Reader.

(** Modelled from the spec: the class [TLS_Data_Reader] is declared in
    [tls_reader.h], which is not under src/; a bounds-checked sequential
    cursor over an immutable buffer whose every failure is a decode
    error. *)
Record t := mk { buf : list Z; offset : nat }.

Definition M (A : Type) : Type := t -> result (A * t).

Definition ret {A} (a : A) : M A := fun r => Ok (a, r).
Definition bind {A B} (m : M A) (k : A -> M B) : M B :=
  fun r => match m r with
           | Ok (a, r') => k a r'
           | Throw e => Throw e
           | Out_of_fuel => Out_of_fuel
           end.
Definition throw {A} (e : exn) : M A := fun _ => Throw e.

Definition new (b : list Z) : t := mk b 0.
Definition advance (n : nat) (r : t) : t := mk (buf r) (offset r + n).

Definition remaining_bytes (r : t) : nat := (length (buf r) - offset r)%nat.
Definition has_remaining (r : t) : bool := (0 <? remaining_bytes r)%nat.

Definition corrupt : exn := Decoding_Error "TLS_Data_Reader: Corrupt packet".

Definition assert_at_least (n : nat) : M unit :=
  fun r => if (remaining_bytes r <? n)%nat then Throw corrupt else Ok (tt, r).

Definition discard_next (bytes : nat) : M unit :=
  bind (assert_at_least bytes) (fun _ r => Ok (tt, advance bytes r)).

Definition get_byte : M Z :=
  bind (assert_at_least 1)
       (fun _ r => Ok (nth (offset r) (buf r) 0, advance 1 r)).

Definition get_u16bit : M Z :=
  bind (assert_at_least 2)
       (fun _ r => Ok (make_u16bit (nth (offset r) (buf r) 0)
                                   (nth (offset r + 1) (buf r) 0),
                       advance 2 r)).

(** [num_elems] consecutive elements of [sizeof_T] bytes each. *)
Fixpoint elems (sizeof_T num_elems : nat) (l : list Z) : list Z :=
  match num_elems with
  | O => []
  | S n => load_be (take sizeof_T l) :: elems sizeof_T n (drop sizeof_T l)
  end.

Definition get_elem (sizeof_T num_elems : nat) : M (list Z) :=
  bind (assert_at_least (num_elems * sizeof_T))
       (fun _ r => Ok (elems sizeof_T num_elems (drop (offset r) (buf r)),
                       advance (num_elems * sizeof_T) r)).

Definition get_fixed (sizeof_T size : nat) : M (list Z) :=
  get_elem sizeof_T size.

Definition get_length_field (len_bytes : nat) : M Z :=
  match len_bytes with
  | 1%nat => get_byte
  | 2%nat => get_u16bit
  | _ => throw (Decoding_Error "TLS_Data_Reader: Bad length size")
  end.

(** The length field counts bytes; the element count has to lie in
    [min_elems, max_elems] and the bytes have to be a whole number of
    elements. *)
Definition get_num_elems (len_bytes sizeof_T : nat) (min_elems max_elems : Z)
  : M nat :=
  bind (get_length_field len_bytes) (fun byte_length =>
    if negb (byte_length mod Z.of_nat sizeof_T =? 0)
    then throw (Decoding_Error "TLS_Data_Reader: Size isn't multiple of T")
    else
      let num_elems := byte_length / Z.of_nat sizeof_T in
      if (num_elems <? min_elems) || (max_elems <? num_elems)
      then throw (Decoding_Error "TLS_Data_Reader: Range outside parameters")
      else ret (Z.to_nat num_elems)).

Definition get_range (sizeof_T len_bytes : nat) (min_elems max_elems : Z)
  : M (list Z) :=
  bind (get_num_elems len_bytes sizeof_T min_elems max_elems)
       (get_elem sizeof_T).

Definition get_range_vector (sizeof_T len_bytes : nat) (min_elems max_elems : Z)
  : M (list Z) :=
  bind (get_num_elems len_bytes sizeof_T min_elems max_elems)
       (get_elem sizeof_T).

End TLS_Data_Reader.

Notation "'do' x <- m ; k" := (TLS_Data_Reader.bind m (fun x => k))
  (at level 10, x name, m at level 100, k at level 200,
   format "'[v' 'do'  x  <-  m ; '/' k ']'").

(** The local [TLS_Data_Reader reader(buf)] of the deserializers. *)
Module reader := TLS_Data_Reader.

(** ** Client Hello *)

Module Client_Hello.

Record t := mk {
  c_version : Z;
  c_random : list Z;
  sess_id : list Z;
  suites : list Z;
  comp_methods : list Z;
  requested_hostname : list Z;
  requested_srp_id : list Z
}.

(** The members of a message object before its constructor body runs. *)
Definition empty : t := mk 0 [] [] [] [] [] [].

Definition serialize (self : t) : list Z :=
  let buf := [] in
  let buf := buf ++ [u8 (Z.shiftr (c_version self) 8)] in
  let buf := buf ++ [u8 (c_version self)] in
  let buf := buf ++ c_random self in
  let buf := append_tls_length_value 1 buf (sess_id self) 1 in
  let buf := append_tls_length_value 2 buf (suites self) 2 in
  let buf := append_tls_length_value 1 buf (comp_methods self) 1 in
  buf.

(** The loop over the 3-byte cipher specs of an SSLv2 hello: [n] entries
    are left, the next one starts at [buf[i]]. *)
Fixpoint sslv2_cipherspecs (n i : nat) (buf suites : list Z) : list Z :=
  match n with
  | O => suites
  | S n' =>
      sslv2_cipherspecs n' (i + 3) buf
        (if negb (nth i buf 0 =? 0)
         then suites
         else suites ++ [make_u16bit (nth (i + 1) buf 0) (nth (i + 2) buf 0)])
  end.

Definition deserialize_sslv2 (self : t) (buf : list Z) : result t :=
  if ((length buf <? 12)%nat || negb (nth 0 buf 0 =? 1))
  then Throw (Decoding_Error "Client_Hello: SSLv2 hello corrupted")
  else
    let cipher_spec_len := make_u16bit (nth 3 buf 0) (nth 4 buf 0) in
    let sess_id_len := make_u16bit (nth 5 buf 0) (nth 6 buf 0) in
    let challenge_len := make_u16bit (nth 7 buf 0) (nth 8 buf 0) in
    let expected_size := 9 + sess_id_len + cipher_spec_len + challenge_len in
    if negb (Z.of_nat (length buf) =? expected_size)
    then Throw (Decoding_Error "Client_Hello: SSLv2 hello corrupted")
    else if (negb (sess_id_len =? 0) || negb (cipher_spec_len mod 3 =? 0) ||
             ((challenge_len <? 16) || (32 <? challenge_len)))
    then Throw (Decoding_Error "Client_Hello: SSLv2 hello corrupted")
    else
      let suites' :=
        sslv2_cipherspecs (Z.to_nat (cipher_spec_len / 3)) 9 buf (suites self) in
      let c_version' := make_u16bit (nth 1 buf 0) (nth 2 buf 0) in
      let c_random' :=
        take (Z.to_nat challenge_len)
             (drop (Z.to_nat (9 + cipher_spec_len + sess_id_len)) buf) in
      Ok (mk c_version' c_random' (sess_id self) suites' (comp_methods self)
             (requested_hostname self) (requested_srp_id self)).

Section Extensions.

(** The extension codes come from a header that is not under src/. *)
Variables TLSEXT_SERVER_NAME_INDICATION TLSEXT_SRP_IDENTIFIER : Z.

(** One turn of the loop over the names of a server name extension,
    from the read of the name type to the update of [name_bytes]. *)
Definition sni_name_step (name_bytes : Z) (requested_hostname : list Z)
  : reader.M (Z * list Z) :=
  do name_type <- reader.get_byte;
  let name_bytes := u16 (name_bytes - 1) in
  if name_type =? 0
  then
    do name <- reader.get_range_vector 1 2 1 65535;
    let requested_hostname := name in
    let name_bytes := u16 (name_bytes - (2 + Z.of_nat (length name))) in
    reader.ret (name_bytes, requested_hostname)
  else
    do _ <- reader.discard_next (Z.to_nat name_bytes);
    let name_bytes := 0 in
    reader.ret (name_bytes, requested_hostname).

(** [while(name_bytes)]; every turn reads at least one byte, so a
    [fuel] above the number of remaining bytes is never used up. *)
Fixpoint sni_name_loop (fuel : nat) (name_bytes : Z)
    (requested_hostname : list Z) : reader.M (list Z) :=
  if name_bytes =? 0 then reader.ret requested_hostname
  else
    match fuel with
    | O => fun _ => Out_of_fuel
    | S fuel' =>
        do st <- sni_name_step name_bytes requested_hostname;
        sni_name_loop fuel' (fst st) (snd st)
    end.

Definition set_requested_hostname (name : list Z) (self : t) : t :=
  mk (c_version self) (c_random self) (sess_id self) (suites self)
     (comp_methods self) name (requested_srp_id self).

Definition set_requested_srp_id (name : list Z) (self : t) : t :=
  mk (c_version self) (c_random self) (sess_id self) (suites self)
     (comp_methods self) (requested_hostname self) name.

(** [while(reader.has_remaining())] over the extensions; every turn
    reads at least four bytes. *)
Fixpoint extension_loop (fuel : nat) (self : t) : reader.M t :=
  fun r =>
    if negb (reader.has_remaining r) then Ok (self, r)
    else
      match fuel with
      | O => Out_of_fuel
      | S fuel' =>
          (do extension_code <- reader.get_u16bit;
           do extension_size <- reader.get_u16bit;
           if extension_code =? TLSEXT_SERVER_NAME_INDICATION
           then
             do name_bytes <- reader.get_u16bit;
             do name <- (fun r =>
                           sni_name_loop (S (reader.remaining_bytes r)) name_bytes
                                         (requested_hostname self) r);
             extension_loop fuel' (set_requested_hostname name self)
           else if extension_code =? TLSEXT_SRP_IDENTIFIER
           then
             do name <- reader.get_range_vector 1 1 1 255;
             extension_loop fuel' (set_requested_srp_id name self)
           else
             do _ <- reader.discard_next (Z.to_nat extension_size);
             extension_loop fuel' self) r
      end.

(** The block [if(reader.has_remaining()) { ... }] that follows the
    fixed fields. *)
Definition extensions (self : t) : reader.M t :=
  fun r =>
    if reader.has_remaining r
    then
      (do all_extn_size <- reader.get_u16bit;
       fun r =>
         if negb (Z.of_nat (reader.remaining_bytes r) =? all_extn_size)
         then Throw (Decoding_Error "Client_Hello: Bad extension size")
         else extension_loop (S (reader.remaining_bytes r)) self r)
        r
    else Ok (self, r).

Definition deserialize (self : t) (buf : list Z) : result t :=
  if (length buf =? 0)%nat
  then Throw (Decoding_Error "Client_Hello: Packet corrupted")
  else if (length buf <? 41)%nat
  then Throw (Decoding_Error "Client_Hello: Packet corrupted")
  else
    let parse : reader.M t :=
      do c_version <- reader.get_u16bit;
      do c_random <- reader.get_fixed 1 32;
      do sess_id <- reader.get_range 1 1 0 32;
      do suites <- reader.get_range_vector 2 2 1 32767;
      do comp_methods <- reader.get_range_vector 1 1 1 255;
      extensions (mk c_version c_random sess_id suites comp_methods
                     (requested_hostname self) (requested_srp_id self))
    in
    match parse (reader.new buf) with
    | Ok (self, _) => Ok self
    | Throw e => Throw e
    | Out_of_fuel => Out_of_fuel
    end.

End Extensions.

Fixpoint offered_suite_from (suites : list Z) (ciphersuite : Z) : bool :=
  match suites with
  | [] => false
  | s :: rest => if s =? ciphersuite then true else offered_suite_from rest ciphersuite
  end.

Definition offered_suite (self : t) (ciphersuite : Z) : bool :=
  offered_suite_from (suites self) ciphersuite.

End Client_Hello.

(** ** The transcript hash *)

(** Modelled from the spec: the digest classes [MD5] and [SHA_160] are not
    under src/; a digest is a streaming primitive, [update] feeds it bytes
    and [final] returns the fixed-size digest of everything fed since the
    instance was fresh, and leaves it fresh again. *)
Module HashFunction.

Record t := mk { digest : list Z -> list Z; input : list Z }.

Definition new (digest : list Z -> list Z) : t := mk digest [].
Definition update (bytes : list Z) (h : t) : t :=
  mk (digest h) (input h ++ bytes).
Definition update_byte (b : Z) (h : t) : t :=
  mk (digest h) (input h ++ [b]).
Definition final (h : t) : list Z * t :=
  (digest h (input h), new (digest h)).

End HashFunction.

Inductive Handshake_Type :=
| HELLO_REQUEST
| CLIENT_HELLO
| SERVER_HELLO
| SERVER_HELLO_DONE.

Module TLS_Handshake_Hash.

Record t := mk { data : list Z }.

Definition new : t := mk [].

(** Modelled from the spec: the two in-class overloads of [update] are
    declared in a header that is not under src/; they append raw bytes
    to the accumulator. *)
Definition update (bytes : list Z) (self : t) : t := mk (data self ++ bytes).
Definition update_byte (b : Z) (self : t) : t := mk (data self ++ [b]).

Section Digests.

(** The value of [static_cast<byte>] on a handshake type, and the two
    digest functions; none of them is under src/. *)
Variable Handshake_Type_code : Handshake_Type -> Z.
Variables MD5 SHA_160 : list Z -> list Z.

Definition update_msg (handshake_type : Handshake_Type)
    (handshake_msg : list Z) (self : t) : t :=
  let self := update_byte (u8 (Handshake_Type_code handshake_type)) self in
  let record_length := Z.of_nat (length handshake_msg) in
  let self :=
    fold_left
      (fun self i => update_byte (get_byte 4 (i + 1) (u32 record_length)) self)
      (seq 0 3) self in
  update handshake_msg self.

Definition final (self : t) : list Z :=
  let md5 := HashFunction.new MD5 in
  let sha1 := HashFunction.new SHA_160 in
  let md5 := HashFunction.update (data self) md5 in
  let sha1 := HashFunction.update (data self) sha1 in
  let output := [] in
  let '(d, md5) := HashFunction.final md5 in
  let output := output ++ d in
  let '(d, sha1) := HashFunction.final sha1 in
  let output := output ++ d in
  output.

Definition final_ssl3 (self : t) (secret : list Z) : list Z :=
  let PAD_INNER := 54 in
  let PAD_OUTER := 92 in
  let md5 := HashFunction.new MD5 in
  let sha1 := HashFunction.new SHA_160 in
  let md5 := HashFunction.update (data self) md5 in
  let sha1 := HashFunction.update (data self) sha1 in
  let md5 := HashFunction.update secret md5 in
  let sha1 := HashFunction.update secret sha1 in
  let md5 := Nat.iter 48 (HashFunction.update_byte PAD_INNER) md5 in
  let sha1 := Nat.iter 40 (HashFunction.update_byte PAD_INNER) sha1 in
  let '(inner_md5, md5) := HashFunction.final md5 in
  let '(inner_sha1, sha1) := HashFunction.final sha1 in
  let md5 := HashFunction.update secret md5 in
  let sha1 := HashFunction.update secret sha1 in
  let md5 := Nat.iter 48 (HashFunction.update_byte PAD_OUTER) md5 in
  let sha1 := Nat.iter 40 (HashFunction.update_byte PAD_OUTER) sha1 in
  let md5 := HashFunction.update inner_md5 md5 in
  let sha1 := HashFunction.update inner_sha1 sha1 in
  let output := [] in
  let '(d, md5) := HashFunction.final md5 in
  let output := output ++ d in
  let '(d, sha1) := HashFunction.final sha1 in
  let output := output ++ d in
  output.

(** The legacy finalization in the words of the specification: per
    digest, the inner digest is taken over the accumulated bytes, the
    secret and [count] bytes 0x36, the outer one over the secret,
    [count] bytes 0x5C and the inner digest. *)
Definition legacy_digest (H : list Z -> list Z) (count : nat)
    (accumulated secret : list Z) : list Z :=
  let inner := H (accumulated ++ secret ++ repeat 54 count) in
  H (secret ++ repeat 92 count ++ inner).

Definition final_legacy_spec (accumulated secret : list Z) : list Z :=
  legacy_digest MD5 48 accumulated secret
    ++ legacy_digest SHA_160 40 accumulated secret.

End Digests.

End TLS_Handshake_Hash.

(** ** The record writer *)

Inductive Record_Type := CHANGE_CIPHER_SPEC | ALERT | HANDSHAKE | APPLICATION_DATA.

(** Modelled from the spec: the class [Record_Writer] is not under src/; a
    transport with [send(type, bytes)] and [flush()].  What has been handed
    to it waits in [pending] until [flush] puts it on the [wire]. *)
Module Record_Writer.

Record t := mk {
  pending : list (Record_Type * list Z);
  wire : list (Record_Type * list Z)
}.

Definition send (type : Record_Type) (bytes : list Z) (w : t) : t :=
  mk (pending w ++ [(type, bytes)]) (wire w).

Definition flush (w : t) : t := mk [] (wire w ++ pending w).

End Record_Writer.

(** ** Collaborators of the constructors *)

Record TLS_Policy := {
  ciphersuites : list Z;
  compression : list Z;
  pref_version : Z;
  choose_suite : list Z -> bool -> bool -> Z;
  choose_compression : list Z -> Z
}.

Record Public_Key := { algo_name : string }.
Record X509_Certificate := { subject_public_key : Public_Key }.

(** ** The message contract *)

(** The abstract base class: every message has a type and a body. *)
Class HandshakeMessage (T : Type) := {
  type : T -> Handshake_Type;
  serialize : T -> list Z
}.

Module Hello_Request.
Inductive t := mk.
Definition serialize (self : t) : list Z := [].
Definition deserialize (self : t) (buf : list Z) : result t :=
  if negb (length buf =? 0)%nat
  then Throw (Decoding_Error "Hello_Request: Must be empty, and is not")
  else Ok self.
End Hello_Request.

Module Server_Hello_Done.
Inductive t := mk.
Definition serialize (self : t) : list Z := [].
Definition deserialize (self : t) (buf : list Z) : result t :=
  if negb (length buf =? 0)%nat
  then Throw (Decoding_Error "Server_Hello_Done: Must be empty, and is not")
  else Ok self.
End Server_Hello_Done.

Module Server_Hello.

Record t := mk {
  s_version : Z;
  sess_id : list Z;
  s_random : list Z;
  suite : Z;
  comp_method : Z
}.

Definition serialize (self : t) : list Z :=
  let buf := [] in
  let buf := buf ++ [u8 (Z.shiftr (s_version self) 8)] in
  let buf := buf ++ [u8 (s_version self)] in
  let buf := buf ++ s_random self in
  let buf := append_tls_length_value 1 buf (sess_id self) 1 in
  let buf := buf ++ [get_byte 2 0 (suite self)] in
  let buf := buf ++ [get_byte 2 1 (suite self)] in
  let buf := buf ++ [comp_method self] in
  buf.

Section Versions.

(** The version codes come from a header that is not under src/. *)
Variables SSL_V3 TLS_V10 TLS_V11 : Z.

Definition deserialize (self : t) (buf : list Z) : result t :=
  if (length buf <? 38)%nat
  then Throw (Decoding_Error "Server_Hello: Packet corrupted")
  else
    let parse : reader.M t :=
      do s_version <- reader.get_u16bit;
      if negb (s_version =? SSL_V3) && negb (s_version =? TLS_V10)
         && negb (s_version =? TLS_V11)
      then reader.throw (TLS_Exception PROTOCOL_VERSION
                                "Server_Hello: Unsupported server version")
      else
        do s_random <- reader.get_fixed 1 32;
        do sess_id <- reader.get_range 1 1 0 32;
        do suite <- reader.get_u16bit;
        do comp_method <- reader.get_byte;
        reader.ret (mk s_version sess_id s_random suite comp_method)
    in
    match parse (reader.new buf) with
    | Ok (self, _) => Ok self
    | Throw e => Throw e
    | Out_of_fuel => Out_of_fuel
    end.

End Versions.

End Server_Hello.

(** The [type()] of each message class is defined in a header that is not
    under src/; each class answers with the enumerator of its own name. *)
#[export] Instance Hello_Request_message : HandshakeMessage Hello_Request.t :=
  {| type := fun _ => HELLO_REQUEST; serialize := Hello_Request.serialize |}.
#[export] Instance Client_Hello_message : HandshakeMessage Client_Hello.t :=
  {| type := fun _ => CLIENT_HELLO; serialize := Client_Hello.serialize |}.
#[export] Instance Server_Hello_message : HandshakeMessage Server_Hello.t :=
  {| type := fun _ => SERVER_HELLO; serialize := Server_Hello.serialize |}.
#[export] Instance Server_Hello_Done_message
  : HandshakeMessage Server_Hello_Done.t :=
  {| type := fun _ => SERVER_HELLO_DONE; serialize := Server_Hello_Done.serialize |}.

(** ** Sending, and the constructors that send *)

(** What a call does to its collaborators, in program order. *)
Inductive effect :=
| Hash_update (hash : nat) (bytes : list Z)
| Writer_send (type : Record_Type) (bytes : list Z)
| Writer_flush.

Section Sending.

(** The random number generator, and the value of [static_cast<byte>] on
    a handshake type; neither is under src/. *)
Variable RandomNumberGenerator : Type.
Variable random_vec :
  RandomNumberGenerator -> nat -> list Z * RandomNumberGenerator.
Variable Handshake_Type_code : Handshake_Type -> Z.

(** The objects the constructors reach through references: the generator,
    the record writer, and the live [TLS_Handshake_Hash] objects by
    address; [trace] logs the calls made on them. *)
Record World := mkWorld {
  rng : RandomNumberGenerator;
  writer : Record_Writer.t;
  hashes : gmap nat TLS_Handshake_Hash.t;
  trace : list effect
}.

Definition hash_update (hash : nat) (bytes : list Z) (w : World) : World :=
  mkWorld (rng w) (writer w)
          (alter (TLS_Handshake_Hash.update bytes) hash (hashes w))
          (trace w ++ [Hash_update hash bytes]).

Definition writer_send (type : Record_Type) (bytes : list Z) (w : World) : World :=
  mkWorld (rng w) (Record_Writer.send type bytes (writer w)) (hashes w)
          (trace w ++ [Writer_send type bytes]).

Definition writer_flush (w : World) : World :=
  mkWorld (rng w) (Record_Writer.flush (writer w)) (hashes w)
          (trace w ++ [Writer_flush]).

(** A local [TLS_Handshake_Hash] comes to life at an unused address and
    is gone when its scope ends. *)
Definition hash_construct (w : World) : nat * World :=
  let hash := fresh (dom (hashes w)) in
  (hash, mkWorld (rng w) (writer w)
                 (<[hash := TLS_Handshake_Hash.new]> (hashes w)) (trace w)).

Definition hash_destroy (hash : nat) (w : World) : World :=
  mkWorld (rng w) (writer w) (delete hash (hashes w)) (trace w).

Definition rng_random_vec (n : nat) (w : World) : list Z * World :=
  let '(bytes, rng') := random_vec (rng w) n in
  (bytes, mkWorld rng' (writer w) (hashes w) (trace w)).

(** The header and body that [send] puts together. *)
Definition framed `{HandshakeMessage T} (self : T) : list Z :=
  let buf := serialize self in
  let send_buf := replicate 4 0 in
  let buf_size := Z.of_nat (length buf) in
  let send_buf := <[0%nat := u8 (Handshake_Type_code (type self))]> send_buf in
  let send_buf :=
    fold_left (fun send_buf i => <[i := get_byte 4 i (u32 buf_size)]> send_buf)
              (seq 1 3) send_buf in
  send_buf ++ buf.

Definition send `{HandshakeMessage T} (self : T) (hash : nat) (w : World)
  : World :=
  let send_buf := framed self in
  let w := hash_update hash send_buf w in
  let w := writer_send HANDSHAKE send_buf w in
  writer_flush w.

Definition Hello_Request_new (w : World) : Hello_Request.t * World :=
  let self := Hello_Request.mk in
  let '(dummy, w) := hash_construct w in
  let w := send self dummy w in
  let w := hash_destroy dummy w in
  (self, w).

Definition Client_Hello_new (policy : TLS_Policy) (hash : nat) (w : World)
  : Client_Hello.t * World :=
  let '(c_random, w) := rng_random_vec 32 w in
  let self :=
    Client_Hello.mk (pref_version policy) c_random [] (ciphersuites policy)
                    (compression policy) [] [] in
  (self, send self hash w).

(** The scan of the certificates for RSA and DSA keys. *)
Definition scan_certs (certs : list X509_Certificate) : bool * bool :=
  fold_left
    (fun '(have_rsa, have_dsa) cert =>
       let key := subject_public_key cert in
       (if String.eqb (algo_name key) "RSA" then true else have_rsa,
        if String.eqb (algo_name key) "DSA" then true else have_dsa))
    certs (false, false).

Definition Server_Hello_negotiate (policy : TLS_Policy)
    (certs : list X509_Certificate) (c_hello : Client_Hello.t)
    (session_id : list Z) (ver : Z) (hash : nat) (w : World)
  : result Server_Hello.t * World :=
  let '(s_random, w) := rng_random_vec 32 w in
  let '(have_rsa, have_dsa) := scan_certs certs in
  let suite :=
    choose_suite policy (Client_Hello.suites c_hello) have_rsa have_dsa in
  if suite =? 0
  then (Throw (TLS_Exception HANDSHAKE_FAILURE
                             "Can't agree on a ciphersuite with client"), w)
  else
    let comp_method :=
      choose_compression policy (Client_Hello.comp_methods c_hello) in
    let self := Server_Hello.mk ver session_id s_random suite comp_method in
    (Ok self, send self hash w).

Definition Server_Hello_resume (session_id : list Z) (ciphersuite : Z)
    (compression : Z) (ver : Z) (hash : nat) (w : World)
  : Server_Hello.t * World :=
  let '(s_random, w) := rng_random_vec 32 w in
  let self := Server_Hello.mk ver session_id s_random ciphersuite compression in
  (self, send self hash w).

Definition Server_Hello_Done_new (hash : nat) (w : World)
  : Server_Hello_Done.t * World :=
  let self := Server_Hello_Done.mk in
  (self, send self hash w).

End Sending.

Arguments mkWorld {_} _ _ _ _.
Arguments rng {_} _.
Arguments writer {_} _.
Arguments hashes {_} _.
Arguments trace {_} _.

(** The suites of an SSLv2 cipher-spec block in the words of the
    specification: of each 3-byte entry whose first byte is 0 the other
    two bytes, big-endian; every other entry is dropped. *)
Fixpoint legacy_suites (specs : list Z) : list Z :=
  match specs with
  | a :: b :: c :: rest =>
      if a =? 0 then (256 * b + c) :: legacy_suites rest else legacy_suites rest
  | _ => []
  end.

(** The header of a handshake message in the words of the specification:
    the type byte, then the three low-order bytes of the body length [n],
    most significant first. *)
Definition header (Handshake_Type_code : Handshake_Type -> Z)
    (t : Handshake_Type) (n : Z) : list Z :=
  [u8 (Handshake_Type_code t); (n / 65536) mod 256; (n / 256) mod 256; n mod 256].

(** The reader [r] stands before the bytes [l]: they are what is left of
    its buffer. *)
Definition positioned (r : reader.t) (l : list Z) : Prop :=
  drop (reader.offset r) (reader.buf r) = l.

(** An outcome that is a value or an exception, with at most [bound]
    bytes left to read after a value. *)
Definition within {A : Type} (bound : nat) (res : result (A * reader.t)) : Prop :=
  match res with
  | Ok (_, r') => (reader.remaining_bytes r' <= bound)%nat
  | Throw _ => True
  | Out_of_fuel => False
  end.

(** A reader operation that never uses up a budget and, when it returns,
    has read at least [k] bytes. *)
Definition consumes {A : Type} (k : nat) (m : reader.M A) : Prop :=
  forall r,
    match m r with
    | Ok (_, r') => (reader.remaining_bytes r' + k <= reader.remaining_bytes r)%nat
    | Throw _ => True
    | Out_of_fuel => False
    end.

(** The Client Hello values that the types of the members and the wire
    format admit: a 16-bit version, 32 random bytes, a session id of at
    most 32 bytes, 1 to 32767 suites of 16 bits and 1 to 255 compression
    methods. *)
Record Client_Hello_valid (x : Client_Hello.t) : Prop := {
  valid_version : is_u16bit (Client_Hello.c_version x);
  valid_random_length : length (Client_Hello.c_random x) = 32%nat;
  valid_random : Forall is_byte (Client_Hello.c_random x);
  valid_sess_id_length : (length (Client_Hello.sess_id x) <= 32)%nat;
  valid_sess_id : Forall is_byte (Client_Hello.sess_id x);
  valid_suites_length : 1 <= Z.of_nat (length (Client_Hello.suites x)) <= 32767;
  valid_suites : Forall is_u16bit (Client_Hello.suites x);
  valid_comp_length : (1 <= length (Client_Hello.comp_methods x) <= 255)%nat;
  valid_comp : Forall is_byte (Client_Hello.comp_methods x)
}.

(** A 16-bit value on the wire. *)
Definition be16 (v : Z) : list Z := [v / 256; v mod 256].

(** A name entry of type 0 (DNS) of a server name list. *)
Definition dns_name_entry (name : list Z) : list Z :=
  [0] ++ be16 (Z.of_nat (length name)) ++ name.

(** An extension: code, declared size, payload. *)
Definition extension (code size : Z) (payload : list Z) : list Z :=
  be16 code ++ be16 size ++ payload.

(** The payload of a server name extension: the declared length of the
    name list, then the list. *)
Definition server_name_list (declared : Z) (name_list : list Z) : list Z :=
  be16 declared ++ name_list.

(** ** Concrete collaborators for the examples *)

(** The handshake type codes of the TLS wire format. *)
Definition wire_code (t : Handshake_Type) : Z :=
  match t with
  | HELLO_REQUEST => 0
  | CLIENT_HELLO => 1
  | SERVER_HELLO => 2
  | SERVER_HELLO_DONE => 14
  end.

(** A generator that answers every request with bytes 0xAB. *)
Definition constant_rng (g : unit) (n : nat) : list Z * unit := (repeat 171 n, g).

(** A stand-in digest of [n] bytes: byte [i] is the sum of the input plus
    [i], modulo 256. *)
Definition checksum_digest (n : nat) (input : list Z) : list Z :=
  map (fun i => u8 (Z.of_nat i + fold_right Z.add 0 input)) (seq 0 n).

(** A world with one transcript hash, at address 0, that has accumulated
    the byte 9. *)
Definition one_hash_world : World unit :=
  mkWorld tt (Record_Writer.mk [] [])
          (<[0%nat := TLS_Handshake_Hash.mk [9]]> ∅) [].

(** A policy that can only satisfy suite 0x002F, and only with an RSA
    certificate. *)
Definition rsa_only_policy : TLS_Policy := {|
  ciphersuites := [47];
  compression := [0];
  pref_version := 769;
  choose_suite := fun offered have_rsa have_dsa =>
    if have_rsa && Client_Hello.offered_suite_from offered 47 then 47 else 0;
  choose_compression := fun offered => 0
|}.

Definition rsa_cert : X509_Certificate :=
  {| subject_public_key := {| algo_name := "RSA" |} |}.
Definition dsa_cert : X509_Certificate :=
  {| subject_public_key := {| algo_name := "DSA" |} |}.

(** A Client Hello that offers the suites 0xC001 and 0x002F. *)
Definition offering_hello : Client_Hello.t :=
  Client_Hello.mk 769 (repeat 7 32) [] [49153; 47] [0] [] [].

(** The extension codes of the TLS wire format: server name 0 and SRP
    identifier 12. *)
Definition wire_sni : Z := 0.
Definition wire_srp : Z := 12.

(** The body of [offering_hello] with a server name extension that lists
    two DNS names, "a" and then "b". *)
Definition two_name_hello : list Z :=
  Client_Hello.serialize offering_hello
    ++ be16 14
    ++ extension wire_sni 10
         (server_name_list 8 (dns_name_entry [97] ++ dns_name_entry [98])).

(** The body of [offering_hello] with two extensions.  The server name
    extension declares a name list of 1 byte, but its DNS entry, the name
    "a", takes 4; the extension after it has code 1 and 256 bytes 'A'. *)
Definition short_list_hello : list Z :=
  Client_Hello.serialize offering_hello
    ++ be16 270
    ++ extension wire_sni 6 (server_name_list 1 (dns_name_entry [97]))
    ++ extension 1 256 (repeat 65 256).

(** An SSLv2-style hello: version 0x0300, two cipher specs (the suite
    0x002F and an SSLv2-only cipher), no session id, a 16-byte
    challenge. *)
Definition sslv2_hello : list Z :=
  [1; 3; 0; 0; 6; 0; 0; 0; 16] ++ [0; 0; 47; 1; 0; 128] ++ repeat 9 16.

(** The Server Hello values that the types of the members and the wire
    format admit: a 16-bit version, 32 random bytes, a session id of at
    most 32 bytes, a 16-bit suite and a compression byte. *)
Record Server_Hello_valid (x : Server_Hello.t) : Prop := {
  sh_valid_version : is_u16bit (Server_Hello.s_version x);
  sh_valid_random_length : length (Server_Hello.s_random x) = 32%nat;
  sh_valid_random : Forall is_byte (Server_Hello.s_random x);
  sh_valid_sess_id_length : (length (Server_Hello.sess_id x) <= 32)%nat;
  sh_valid_sess_id : Forall is_byte (Server_Hello.sess_id x);
  sh_valid_suite : is_u16bit (Server_Hello.suite x);
  sh_valid_comp : is_byte (Server_Hello.comp_method x)
}.

(** The version codes of the TLS wire format. *)
Definition wire_SSL_V3 : Z := 768.
Definition wire_TLS_V10 : Z := 769.
Definition wire_TLS_V11 : Z := 770.

(** A block of extensions, each with its code and payload and with the
    size of the payload as its declared size. *)
Definition encode_extensions (exts : list (Z * list Z)) : list Z :=
  concat (map (fun e => extension (fst e) (Z.of_nat (length (snd e))) (snd e))
              exts).

(** The bytes of a sequence of handshake messages, each framed with its
    header. *)
Definition transcript (Handshake_Type_code : Handshake_Type -> Z)
    (msgs : list (Handshake_Type * list Z)) : list Z :=
  concat (map (fun m => header Handshake_Type_code (fst m)
                               (Z.of_nat (length (snd m))) ++ snd m) msgs).

(** A Server Hello as the resuming constructor builds it for the
    examples. *)
Definition resumed_hello : Server_Hello.t :=
  Server_Hello.mk 769 [1; 2; 3] (repeat 171 32) 47 0.

(** Two Client Hello values with the same five fixed fields. *)
Definition same_fixed_fields (a b : Client_Hello.t) : Prop :=
  Client_Hello.c_version a = Client_Hello.c_version b
  /\ Client_Hello.c_random a = Client_Hello.c_random b
  /\ Client_Hello.sess_id a = Client_Hello.sess_id b
  /\ Client_Hello.suites a = Client_Hello.suites b
  /\ Client_Hello.comp_methods a = Client_Hello.comp_methods b.

(** The conditions [deserialize_sslv2] puts on an SSLv2-style hello:
    first byte 1, the size exactly 9 plus the three declared lengths, no
    session id, a cipher-spec length divisible by 3 and a challenge of 16
    to 32 bytes. *)
Definition sslv2_well_formed (buf : list Z) : Prop :=
  let cipher_spec_len := 256 * nth 3 buf 0 + nth 4 buf 0 in
  let sess_id_len := 256 * nth 5 buf 0 + nth 6 buf 0 in
  let challenge_len := 256 * nth 7 buf 0 + nth 8 buf 0 in
  nth 0 buf 0 = 1
  /\ Z.of_nat (length buf) = 9 + sess_id_len + cipher_spec_len + challenge_len
  /\ sess_id_len = 0
  /\ cipher_spec_len mod 3 = 0
  /\ 16 <= challenge_len <= 32.

(** The accumulator after the inbound helper has hashed a sequence of
    messages. *)
Definition hash_messages (Handshake_Type_code : Handshake_Type -> Z)
    (msgs : list (Handshake_Type * list Z)) (h : TLS_Handshake_Hash.t)
  : TLS_Handshake_Hash.t :=
  fold_left (fun h m => TLS_Handshake_Hash.update_msg Handshake_Type_code
                          (fst m) (snd m) h) msgs h.

(** Two extensions this code does not know: a session ticket (35) of three
    bytes and a renegotiation info (65281) of one. *)
Definition two_unknown_extensions : list (Z * list Z) :=
  [(35, [1; 2; 3]); (65281, [0])].

(** An SSLv2-style hello that declares a session id of one byte. *)
Definition sslv2_hello_with_session : list Z :=
  [1; 3; 0; 0; 3; 0; 1; 0; 16] ++ [0; 0; 47] ++ [7] ++ repeat 9 16.

(** * Properties *)

(** ** Bytes and 16-bit values *)

Lemma make_u16bit_bytes (i0 i1 : Z) :
  is_byte i1 -> make_u16bit i0 i1 = 256 * i0 + i1.
Proof.
  intros [H0 H1]. unfold make_u16bit.
  rewrite Z.shiftl_mul_pow2 by lia.
  rewrite <- Z.lxor_lor, <- Z.add_nocarry_lxor; try lia.
  all: apply Z.bits_inj'; intros n Hn; rewrite Z.land_spec, Z.bits_0.
  all: destruct (Z.lt_ge_cases n 8) as [Hlt | Hge].
  all: try (rewrite Z.mul_pow2_bits_low by lia; reflexivity).
  all: rewrite (Z.bits_above_log2 i1 n), andb_false_r; try reflexivity; try lia.
  all: destruct (Z.eq_dec i1 0) as [-> | Hnz]; [simpl; lia |].
  all: apply Z.lt_le_trans with 8; [apply Z.log2_lt_pow2; lia | lia].
Qed.

Lemma make_u16bit_range (i0 i1 : Z) :
  is_byte i0 -> is_byte i1 -> is_u16bit (make_u16bit i0 i1).
Proof.
  intros H0 H1. rewrite make_u16bit_bytes by assumption.
  unfold is_byte, is_u16bit in *. lia.
Qed.

Lemma get_byte_div (sizeof_T byte_num : nat) (input : Z) :
  get_byte sizeof_T byte_num input
  = (input / 2 ^ (8 * Z.of_nat (sizeof_T - 1 - byte_num))) mod 256.
Proof.
  unfold get_byte. rewrite Z.shiftr_div_pow2 by lia.
  change 255 with (Z.ones 8). rewrite Z.land_ones by lia. reflexivity.
Qed.

Lemma get_byte_is_byte (sizeof_T byte_num : nat) (input : Z) :
  is_byte (get_byte sizeof_T byte_num input).
Proof. rewrite get_byte_div. unfold is_byte. apply Z.mod_pos_bound. lia. Qed.

Lemma u8_is_byte (x : Z) : is_byte (u8 x).
Proof. unfold is_byte, u8. apply Z.mod_pos_bound. lia. Qed.

Lemma u8_byte (b : Z) : is_byte b -> u8 b = b.
Proof. intros H. unfold u8. apply Z.mod_small. exact H. Qed.

Lemma get_byte_2_0 (v : Z) : get_byte 2 0 v = (v / 256) mod 256.
Proof. rewrite get_byte_div. reflexivity. Qed.

Lemma get_byte_2_1 (v : Z) : get_byte 2 1 v = v mod 256.
Proof. rewrite get_byte_div. change (2 ^ _) with 1. rewrite Z.div_1_r. reflexivity. Qed.

Lemma make_u16bit_get_byte (v : Z) :
  is_u16bit v -> make_u16bit (get_byte 2 0 v) (get_byte 2 1 v) = v.
Proof.
  intros Hv. rewrite make_u16bit_bytes by apply get_byte_is_byte.
  rewrite get_byte_2_0, get_byte_2_1. unfold is_u16bit in Hv.
  Z.to_euclidean_division_equations. lia.
Qed.

Lemma make_u16bit_version (v : Z) :
  is_u16bit v -> make_u16bit (u8 (Z.shiftr v 8)) (u8 v) = v.
Proof.
  intros Hv. rewrite make_u16bit_bytes by apply u8_is_byte.
  unfold u8, is_u16bit in *. rewrite Z.shiftr_div_pow2 by lia.
  change (2 ^ 8) with 256. Z.to_euclidean_division_equations. lia.
Qed.

(** The three length bytes of a handshake header are the three low-order
    bytes of the length, most significant first. *)
Lemma header_length_bytes (n : Z) :
  [get_byte 4 1 (u32 n); get_byte 4 2 (u32 n); get_byte 4 3 (u32 n)]
  = [(n / 65536) mod 256; (n / 256) mod 256; n mod 256].
Proof.
  rewrite !get_byte_div. unfold u32.
  change (2 ^ (8 * Z.of_nat (4 - 1 - 1))) with 65536.
  change (2 ^ (8 * Z.of_nat (4 - 1 - 2))) with 256.
  change (2 ^ (8 * Z.of_nat (4 - 1 - 3))) with 1.
  change (2 ^ 32) with 4294967296.
  rewrite Z.div_1_r.
  f_equal; [| f_equal; [| f_equal]]; Z.to_euclidean_division_equations; lia.
Qed.

(** ** The transcript hash *)

Lemma iter_update_byte (n : nat) (b : Z) (h : HashFunction.t) :
  Nat.iter n (HashFunction.update_byte b) h
  = HashFunction.update (repeat b n) h.
Proof.
  induction n as [| n IH]; simpl.
  - unfold HashFunction.update. rewrite app_nil_r. destruct h; reflexivity.
  - rewrite IH. unfold HashFunction.update_byte, HashFunction.update. simpl.
    f_equal. rewrite <- app_assoc. f_equal.
    symmetry. apply repeat_cons.
Qed.

Section Transcript.

Variable Handshake_Type_code : Handshake_Type -> Z.

Lemma framed_eq `{HandshakeMessage T} (self : T) :
  framed Handshake_Type_code self
  = header Handshake_Type_code (type self) (Z.of_nat (length (serialize self))) ++ serialize self.
Proof.
  unfold header.
  pose proof (header_length_bytes (Z.of_nat (length (serialize self)))) as E.
  injection E as <- <- <-. reflexivity.
Qed.

Lemma update_msg_data (t : Handshake_Type) (b : list Z)
    (h : TLS_Handshake_Hash.t) :
  TLS_Handshake_Hash.update_msg Handshake_Type_code t b h
  = TLS_Handshake_Hash.update
      (header Handshake_Type_code t (Z.of_nat (length b)) ++ b) h.
Proof.
  unfold header.
  pose proof (header_length_bytes (Z.of_nat (length b))) as E.
  injection E as <- <- <-.
  unfold TLS_Handshake_Hash.update_msg, TLS_Handshake_Hash.update,
    TLS_Handshake_Hash.update_byte. simpl.
  f_equal. rewrite <- !app_assoc. reflexivity.
Qed.

End Transcript.

(** C7.  For every accumulated transcript and every secret, the SSLv3
    finalization is, per digest, the hash of the secret, the pad byte 0x5C
    repeated [count] times and the inner digest, where the inner digest is
    the hash of the accumulated bytes, the secret and the pad byte 0x36
    repeated [count] times; [count] is 48 for the 16-byte digest (MD5) and
    40 for the 20-byte one (SHA-1), and the result is the two outer
    digests one after the other, 36 bytes. *)
Theorem final_ssl3_is_legacy_construction (MD5 SHA_160 : list Z -> list Z)
    (self : TLS_Handshake_Hash.t) (secret : list Z) :
  (forall input, length (MD5 input) = 16%nat) ->
  (forall input, length (SHA_160 input) = 20%nat) ->
  let accumulated := TLS_Handshake_Hash.data self in
  TLS_Handshake_Hash.final_ssl3 MD5 SHA_160 self secret
  = MD5 (secret ++ repeat 92 48
           ++ MD5 (accumulated ++ secret ++ repeat 54 48))
    ++ SHA_160 (secret ++ repeat 92 40
                  ++ SHA_160 (accumulated ++ secret ++ repeat 54 40))
  /\ TLS_Handshake_Hash.final_ssl3 MD5 SHA_160 self secret
     = TLS_Handshake_Hash.final_legacy_spec MD5 SHA_160 accumulated secret
  /\ length (TLS_Handshake_Hash.final_ssl3 MD5 SHA_160 self secret) = 36%nat.
Proof.
  intros Hmd5 Hsha accumulated.
  assert (E : TLS_Handshake_Hash.final_ssl3 MD5 SHA_160 self secret
              = TLS_Handshake_Hash.final_legacy_spec MD5 SHA_160 accumulated secret).
  { unfold TLS_Handshake_Hash.final_ssl3, TLS_Handshake_Hash.final_legacy_spec,
      TLS_Handshake_Hash.legacy_digest.
    rewrite !iter_update_byte.
    unfold HashFunction.final, HashFunction.update, HashFunction.new.
    cbn [HashFunction.digest HashFunction.input app].
    rewrite !iter_update_byte. unfold HashFunction.update.
    cbn [HashFunction.digest HashFunction.input app].
    rewrite <- !app_assoc. reflexivity. }
  split; [rewrite E; reflexivity |]. split; [exact E |].
  rewrite E. unfold TLS_Handshake_Hash.final_legacy_spec.
  rewrite length_app.
  unfold TLS_Handshake_Hash.legacy_digest. rewrite Hmd5, Hsha. reflexivity.
Qed.

(** ** Sending *)

Section Sending_Properties.

Variable RandomNumberGenerator : Type.
Variable random_vec :
  RandomNumberGenerator -> nat -> list Z * RandomNumberGenerator.
Variable Handshake_Type_code : Handshake_Type -> Z.

Lemma send_effects `{HandshakeMessage T} (self : T) (hash : nat)
    (w : World RandomNumberGenerator) :
  let bytes := framed Handshake_Type_code self in
  send RandomNumberGenerator Handshake_Type_code self hash w
  = mkWorld (rng w)
      (Record_Writer.mk []
         (Record_Writer.wire (writer w) ++ Record_Writer.pending (writer w)
            ++ [(HANDSHAKE, bytes)]))
      (alter (TLS_Handshake_Hash.update bytes) hash (hashes w))
      (trace w ++ [Hash_update hash bytes; Writer_send HANDSHAKE bytes;
                   Writer_flush]).
Proof.
  unfold send, writer_flush, writer_send, hash_update,
    Record_Writer.flush, Record_Writer.send.
  simpl. rewrite <- !app_assoc. reflexivity.
Qed.

(** The certificate scan raises a flag exactly when some certificate has
    a key of that algorithm. *)
Lemma scan_certs_flags (certs : list X509_Certificate) :
  scan_certs certs
  = (existsb (fun c => String.eqb (algo_name (subject_public_key c)) "RSA") certs,
     existsb (fun c => String.eqb (algo_name (subject_public_key c)) "DSA") certs).
Proof.
  unfold scan_certs.
  assert (G : forall r d,
    fold_left
      (fun '(have_rsa, have_dsa) cert =>
         let key := subject_public_key cert in
         (if String.eqb (algo_name key) "RSA" then true else have_rsa,
          if String.eqb (algo_name key) "DSA" then true else have_dsa))
      certs (r, d)
    = (r || existsb (fun c => String.eqb (algo_name (subject_public_key c)) "RSA") certs,
       d || existsb (fun c => String.eqb (algo_name (subject_public_key c)) "DSA") certs)).
  { induction certs as [| c certs IH]; intros r d; simpl.
    - rewrite !orb_false_r. reflexivity.
    - rewrite IH.
      destruct (String.eqb (algo_name (subject_public_key c)) "RSA"),
               (String.eqb (algo_name (subject_public_key c)) "DSA"),
               r, d; reflexivity. }
  rewrite G. reflexivity.
Qed.

(** C1.  For every message variant and every serialized body, [send]
    feeds to the transcript hash exactly the bytes it writes to the
    transport: the type byte, the three low-order bytes of the body
    length in big-endian order, then the body.  The hash update comes
    first, then the write, then the flush, after which nothing is left
    pending in the writer. *)
Theorem send_hashes_what_it_writes `{HandshakeMessage T} (self : T)
    (hash : nat) (w : World RandomNumberGenerator) (h : TLS_Handshake_Hash.t) :
  hashes w !! hash = Some h ->
  let body := serialize self in
  let n := Z.of_nat (length body) in
  let bytes :=
    [u8 (Handshake_Type_code (type self));
     (n / 65536) mod 256; (n / 256) mod 256; n mod 256] ++ body in
  let w' := send RandomNumberGenerator Handshake_Type_code self hash w in
  hashes w' = <[hash := TLS_Handshake_Hash.mk (TLS_Handshake_Hash.data h ++ bytes)]> (hashes w)
  /\ trace w' = trace w ++ [Hash_update hash bytes;
                            Writer_send HANDSHAKE bytes; Writer_flush]
  /\ Record_Writer.wire (writer w')
     = Record_Writer.wire (writer w) ++ Record_Writer.pending (writer w)
         ++ [(HANDSHAKE, bytes)]
  /\ Record_Writer.pending (writer w') = []
  /\ rng w' = rng w.
Proof.
  intros Hh body n bytes w'.
  assert (E : framed Handshake_Type_code self = bytes) by apply framed_eq.
  subst w'. rewrite send_effects. simpl. rewrite E.
  repeat split.
  rewrite (alter_alt_Some _ _ _ _ Hh). reflexivity.
Qed.

(** C8.  Constructing a Hello Request for sending puts the framed empty
    message on the wire and leaves every transcript hash of the caller
    as it was: the framed bytes go to a hash at an address that was not
    in use before the call, and that hash is gone after it. *)
Theorem hello_request_leaves_transcripts_alone
    (w : World RandomNumberGenerator) :
  let bytes := [u8 (Handshake_Type_code HELLO_REQUEST); 0; 0; 0] in
  let w' := snd (Hello_Request_new RandomNumberGenerator Handshake_Type_code w) in
  hashes w' = hashes w
  /\ Record_Writer.wire (writer w')
     = Record_Writer.wire (writer w) ++ Record_Writer.pending (writer w)
         ++ [(HANDSHAKE, bytes)]
  /\ Record_Writer.pending (writer w') = []
  /\ exists dummy : nat,
       hashes w !! dummy = None
       /\ trace w' = trace w ++ [Hash_update dummy bytes;
                                 Writer_send HANDSHAKE bytes; Writer_flush].
Proof.
  intros bytes w'. subst w'.
  unfold Hello_Request_new, hash_construct, hash_destroy.
  rewrite send_effects. simpl.
  assert (Hfresh : hashes w !! fresh (dom (hashes w)) = None).
  { apply not_elem_of_dom. apply is_fresh. }
  repeat split.
  - rewrite alter_insert_eq, delete_insert_eq.
    apply delete_id. exact Hfresh.
  - exists (fresh (dom (hashes w))). split; [exact Hfresh | reflexivity].
Qed.

(** C9.  For every handshake type [t] and body [b], the inbound helper
    [update(t, b)] appends to the accumulator the bytes that [send]
    frames and hashes for a message of type [t] with body [b]: the type
    byte, the three low-order bytes of the length of [b] in big-endian
    order, then [b]. *)
Theorem update_msg_matches_send `{HandshakeMessage T} (self : T)
    (t : Handshake_Type) (b : list Z) (h : TLS_Handshake_Hash.t)
    (hash : nat) (w : World RandomNumberGenerator) :
  type self = t ->
  serialize self = b ->
  let n := Z.of_nat (length b) in
  let bytes :=
    [u8 (Handshake_Type_code t);
     (n / 65536) mod 256; (n / 256) mod 256; n mod 256] ++ b in
  TLS_Handshake_Hash.data
    (TLS_Handshake_Hash.update_msg Handshake_Type_code t b h)
  = TLS_Handshake_Hash.data h ++ bytes
  /\ framed Handshake_Type_code self = bytes
  /\ hashes (send RandomNumberGenerator Handshake_Type_code self hash w)
     = alter (TLS_Handshake_Hash.update_msg Handshake_Type_code t b) hash
             (hashes w).
Proof.
  intros Ht Hb n bytes.
  assert (E : framed Handshake_Type_code self = bytes).
  { rewrite framed_eq, Ht, Hb. reflexivity. }
  split; [| split].
  - rewrite update_msg_data. reflexivity.
  - exact E.
  - rewrite send_effects. simpl. rewrite E.
    apply alter_ext. intros x _. rewrite update_msg_data. reflexivity.
Qed.

Lemma server_hello_body_ends_in_suite (self : Server_Hello.t) :
  exists pre : list Z,
    Server_Hello.serialize self
    = pre ++ [get_byte 2 0 (Server_Hello.suite self);
              get_byte 2 1 (Server_Hello.suite self);
              Server_Hello.comp_method self].
Proof.
  exists (append_tls_length_value 1
            ([u8 (Z.shiftr (Server_Hello.s_version self) 8);
              u8 (Server_Hello.s_version self)] ++ Server_Hello.s_random self)
            (Server_Hello.sess_id self) 1).
  unfold Server_Hello.serialize. rewrite <- !app_assoc. reflexivity.
Qed.

(** C6.  In the negotiating constructor, when the policy's [choose_suite],
    applied to the suites the client offered and to the RSA and DSA
    flags of the certificates, answers 0, construction fails with the
    handshake-failure alert, which is not a decode error, and nothing is
    hashed or handed to the writer; when it answers a nonzero suite, the
    constructed Server Hello has that suite. *)
Theorem negotiate_chooses_or_fails (policy : TLS_Policy)
    (certs : list X509_Certificate) (c_hello : Client_Hello.t)
    (session_id : list Z) (ver : Z) (hash : nat)
    (w : World RandomNumberGenerator) :
  let have_rsa :=
    existsb (fun c => String.eqb (algo_name (subject_public_key c)) "RSA") certs in
  let have_dsa :=
    existsb (fun c => String.eqb (algo_name (subject_public_key c)) "DSA") certs in
  let chosen :=
    choose_suite policy (Client_Hello.suites c_hello) have_rsa have_dsa in
  let r := Server_Hello_negotiate RandomNumberGenerator random_vec
             Handshake_Type_code policy certs c_hello session_id ver hash w in
  (chosen = 0 ->
     (exists what, fst r = Throw (TLS_Exception HANDSHAKE_FAILURE what)
                   /\ forall s, TLS_Exception HANDSHAKE_FAILURE what
                                <> Decoding_Error s)
     /\ writer (snd r) = writer w
     /\ hashes (snd r) = hashes w
     /\ trace (snd r) = trace w)
  /\ (chosen <> 0 ->
      exists sh, fst r = Ok sh
                 /\ Server_Hello.suite sh = chosen
                 /\ trace (snd r)
                    = trace w ++ [Hash_update hash (framed Handshake_Type_code sh);
                                  Writer_send HANDSHAKE (framed Handshake_Type_code sh);
                                  Writer_flush]).
Proof.
  intros have_rsa have_dsa chosen r. subst r.
  unfold Server_Hello_negotiate, rng_random_vec.
  destruct (random_vec (rng w) 32) as [s_random rng'].
  rewrite scan_certs_flags. fold have_rsa have_dsa chosen.
  split; intros Hc.
  - rewrite Hc. simpl. repeat split.
    eexists. split; [reflexivity | discriminate].
  - destruct (Z.eqb_spec chosen 0) as [E | _]; [contradiction |].
    eexists. split; [reflexivity |]. split; [reflexivity |].
    cbn [snd]. rewrite send_effects. reflexivity.
Qed.

(** C3, as amended.  A Server Hello that the negotiating constructor sends
    never carries suite 0: when the policy answers 0 the constructor
    throws the handshake failure before anything is framed, hashed or
    handed to the writer, and otherwise the two bytes before the
    compression byte of the transmitted body are the nonzero suite.  The
    constructor with a caller-supplied suite has no such check: the body
    it transmits carries the suite the caller gave. *)
Theorem negotiated_hello_carries_nonzero_suite (policy : TLS_Policy)
    (certs : list X509_Certificate) (c_hello : Client_Hello.t)
    (session_id : list Z) (ciphersuite compression ver : Z) (hash : nat)
    (w : World RandomNumberGenerator) :
  (forall offered have_rsa have_dsa,
      is_u16bit (choose_suite policy offered have_rsa have_dsa)) ->
  is_u16bit ciphersuite ->
  let r := Server_Hello_negotiate RandomNumberGenerator random_vec
             Handshake_Type_code policy certs c_hello session_id ver hash w in
  let r' := Server_Hello_resume RandomNumberGenerator random_vec
              Handshake_Type_code session_id ciphersuite compression ver hash w in
  match fst r with
  | Ok sh =>
      exists pre hi lo,
        Server_Hello.serialize sh = pre ++ [hi; lo; Server_Hello.comp_method sh]
        /\ make_u16bit hi lo = Server_Hello.suite sh
        /\ make_u16bit hi lo <> 0
        /\ Record_Writer.wire (writer (snd r))
           = Record_Writer.wire (writer w) ++ Record_Writer.pending (writer w)
               ++ [(HANDSHAKE,
                    header Handshake_Type_code SERVER_HELLO
                           (Z.of_nat (length (Server_Hello.serialize sh)))
                      ++ Server_Hello.serialize sh)]
  | Throw e =>
      e = TLS_Exception HANDSHAKE_FAILURE
                        "Can't agree on a ciphersuite with client"
      /\ writer (snd r) = writer w
      /\ hashes (snd r) = hashes w
      /\ trace (snd r) = trace w
  | Out_of_fuel => False
  end
  /\ exists pre hi lo,
       Server_Hello.serialize (fst r') = pre ++ [hi; lo; compression]
       /\ make_u16bit hi lo = ciphersuite
       /\ Record_Writer.wire (writer (snd r'))
          = Record_Writer.wire (writer w) ++ Record_Writer.pending (writer w)
              ++ [(HANDSHAKE,
                   header Handshake_Type_code SERVER_HELLO
                          (Z.of_nat (length (Server_Hello.serialize (fst r'))))
                     ++ Server_Hello.serialize (fst r'))].
Proof.
  intros Hpolicy Hsuite r r'. subst r r'.
  unfold Server_Hello_negotiate, Server_Hello_resume, rng_random_vec.
  destruct (random_vec (rng w) 32) as [s_random rng'].
  destruct (scan_certs certs) as [have_rsa have_dsa].
  split.
  - destruct (Z.eqb_spec
                (choose_suite policy (Client_Hello.suites c_hello) have_rsa have_dsa) 0)
      as [E | NE]; cbn [fst snd].
    + repeat split.
    + match goal with
      | |- context [Server_Hello.serialize ?sh] =>
          destruct (server_hello_body_ends_in_suite sh) as [pre Hpre]
      end.
      exists pre. do 2 eexists.
      split; [exact Hpre |]. cbn [Server_Hello.suite].
      rewrite make_u16bit_get_byte by apply Hpolicy.
      split; [reflexivity |]. split; [exact NE |].
      rewrite send_effects. cbn [writer Record_Writer.wire].
      rewrite framed_eq. reflexivity.
  - cbn [fst snd].
    match goal with
    | |- context [Server_Hello.serialize ?sh] =>
        destruct (server_hello_body_ends_in_suite sh) as [pre Hpre]
    end.
    exists pre. do 2 eexists.
    split; [exact Hpre |]. cbn [Server_Hello.suite].
    rewrite make_u16bit_get_byte by exact Hsuite.
    split; [reflexivity |].
    rewrite send_effects. cbn [writer Record_Writer.wire].
    rewrite framed_eq. reflexivity.
Qed.

End Sending_Properties.

(** ** Examples of the sending theorems *)

Lemma checksum_digest_length (n : nat) (input : list Z) :
  length (checksum_digest n input) = n.
Proof. unfold checksum_digest. rewrite length_map, length_seq. reflexivity. Qed.

Lemma final_ssl3_is_legacy_construction_witness :
  (forall input, length (checksum_digest 16 input) = 16%nat)
  /\ (forall input, length (checksum_digest 20 input) = 20%nat)
  /\ length (TLS_Handshake_Hash.final_ssl3 (checksum_digest 16)
               (checksum_digest 20) (TLS_Handshake_Hash.mk [1; 2; 3]) [4; 5])
     = 36%nat.
Proof.
  split; [intros input; apply checksum_digest_length |].
  split; [intros input; apply checksum_digest_length |].
  destruct (final_ssl3_is_legacy_construction (checksum_digest 16)
              (checksum_digest 20) (TLS_Handshake_Hash.mk [1; 2; 3]) [4; 5]
              (checksum_digest_length 16) (checksum_digest_length 20))
    as (_ & _ & Hlen).
  exact Hlen.
Defined.

Lemma send_hashes_what_it_writes_witness :
  hashes one_hash_world !! 0%nat = Some (TLS_Handshake_Hash.mk [9])
  /\ Record_Writer.wire
       (writer (send unit wire_code offering_hello 0 one_hash_world))
     = [(HANDSHAKE,
         [1; 0; 0; 43] ++ Client_Hello.serialize offering_hello)].
Proof.
  split; [reflexivity |].
  destruct (send_hashes_what_it_writes unit wire_code offering_hello 0
              one_hash_world (TLS_Handshake_Hash.mk [9]) eq_refl)
    as (_ & _ & Hwire & _).
  exact Hwire.
Defined.

Lemma update_msg_matches_send_witness :
  type offering_hello = CLIENT_HELLO
  /\ serialize offering_hello = Client_Hello.serialize offering_hello
  /\ TLS_Handshake_Hash.data
       (TLS_Handshake_Hash.update_msg wire_code CLIENT_HELLO
          (Client_Hello.serialize offering_hello) (TLS_Handshake_Hash.mk [9]))
     = [9] ++ [1; 0; 0; 43] ++ Client_Hello.serialize offering_hello.
Proof.
  split; [reflexivity |]. split; [reflexivity |].
  destruct (@update_msg_matches_send unit wire_code Client_Hello.t
              Client_Hello_message offering_hello CLIENT_HELLO
              (Client_Hello.serialize offering_hello)
              (TLS_Handshake_Hash.mk [9]) 0%nat one_hash_world
              ltac:(reflexivity) ltac:(reflexivity))
    as (Hdata & _).
  exact Hdata.
Defined.

Lemma negotiate_chooses_or_fails_witness :
  (exists sh,
     fst (Server_Hello_negotiate unit constant_rng wire_code rsa_only_policy
            [rsa_cert] offering_hello [] 769 0 one_hash_world) = Ok sh
     /\ Server_Hello.suite sh = 47)
  /\ (exists what,
        fst (Server_Hello_negotiate unit constant_rng wire_code rsa_only_policy
               [dsa_cert] offering_hello [] 769 0 one_hash_world)
        = Throw (TLS_Exception HANDSHAKE_FAILURE what)).
Proof.
  split.
  - destruct (proj2 (negotiate_chooses_or_fails unit constant_rng wire_code
                       rsa_only_policy [rsa_cert] offering_hello [] 769 0%nat
                       one_hash_world)) as (sh & Hsh & Hsuite & _).
    + vm_compute. discriminate.
    + exists sh. split; [exact Hsh | exact Hsuite].
  - destruct (proj1 (negotiate_chooses_or_fails unit constant_rng wire_code
                       rsa_only_policy [dsa_cert] offering_hello [] 769 0%nat
                       one_hash_world)) as ((what & Hwhat & _) & _).
    + reflexivity.
    + exists what. exact Hwhat.
Defined.

Lemma rsa_only_policy_u16bit (offered : list Z) (have_rsa have_dsa : bool) :
  is_u16bit (choose_suite rsa_only_policy offered have_rsa have_dsa).
Proof.
  unfold is_u16bit. simpl.
  destruct (have_rsa && Client_Hello.offered_suite_from offered 47); lia.
Qed.

Lemma negotiated_hello_carries_nonzero_suite_witness :
  (forall offered have_rsa have_dsa,
      is_u16bit (choose_suite rsa_only_policy offered have_rsa have_dsa))
  /\ is_u16bit 47
  /\ exists pre hi lo,
       Server_Hello.serialize
         (fst (Server_Hello_resume unit constant_rng wire_code [1; 2; 3] 47 0
                 769 0 one_hash_world))
       = pre ++ [hi; lo; 0]
       /\ make_u16bit hi lo = 47.
Proof.
  split; [apply rsa_only_policy_u16bit |].
  split; [unfold is_u16bit; lia |].
  destruct (negotiated_hello_carries_nonzero_suite unit constant_rng wire_code
              rsa_only_policy [rsa_cert] offering_hello [1; 2; 3] 47 0 769
              0%nat one_hash_world rsa_only_policy_u16bit
              ltac:(unfold is_u16bit; lia))
    as (_ & pre & hi & lo & Hbody & Hsuite & _).
  exists pre, hi, lo. split; [exact Hbody | exact Hsuite].
Defined.

(** C3, counterexample.  The constructor with a caller-supplied suite, given
    suite 0, frames, hashes and transmits a Server Hello whose suite bytes
    are 0: here the session id is 1 2 3, the version 0x0301 and the random
    32 bytes 0xAB, and the body ends in the suite 00 00 and the
    compression method 00. *)
Lemma resumed_hello_carries_suite_zero :
  let r := Server_Hello_resume unit constant_rng wire_code [1; 2; 3] 0 0 769 0
             one_hash_world in
  let body := [3; 1] ++ repeat 171 32 ++ [3; 1; 2; 3] ++ [0; 0] ++ [0] in
  Server_Hello.suite (fst r) = 0
  /\ Server_Hello.serialize (fst r) = body
  /\ Record_Writer.wire (writer (snd r)) = [(HANDSHAKE, [2; 0; 0; 41] ++ body)]
  /\ hashes (snd r) !! 0%nat
     = Some (TLS_Handshake_Hash.mk ([9] ++ [2; 0; 0; 41] ++ body))
  /\ trace (snd r) = [Hash_update 0 ([2; 0; 0; 41] ++ body);
                      Writer_send HANDSHAKE ([2; 0; 0; 41] ++ body);
                      Writer_flush].
Proof. vm_compute. repeat split. Qed.

(** ** The SSLv2 Client Hello *)

Lemma nth_is_byte (l : list Z) (i : nat) :
  Forall is_byte l -> is_byte (nth i l 0).
Proof.
  intros Hl. revert i. induction Hl as [| x l Hx Hl IH]; intros [| i]; simpl;
    try (unfold is_byte; lia); auto.
Qed.

Lemma drop_nth (l : list Z) (i : nat) :
  (i < length l)%nat -> drop i l = nth i l 0 :: drop (S i) l.
Proof.
  revert i. induction l as [| x l IH]; intros [| i] Hi; simpl in *; try lia.
  - reflexivity.
  - rewrite IH by lia. reflexivity.
Qed.

Lemma sslv2_cipherspecs_spec (n i : nat) (buf suites : list Z) :
  Forall is_byte buf ->
  (i + 3 * n <= length buf)%nat ->
  Client_Hello.sslv2_cipherspecs n i buf suites
  = suites ++ legacy_suites (take (3 * n) (drop i buf)).
Proof.
  intros Hbuf. revert i suites.
  induction n as [| n IH]; intros i suites Hlen.
  - simpl. rewrite app_nil_r. reflexivity.
  - cbn [Client_Hello.sslv2_cipherspecs].
    rewrite IH by lia.
    rewrite (drop_nth buf i), (drop_nth buf (S i)), (drop_nth buf (S (S i))) by lia.
    replace (3 * S n)%nat with (S (S (S (3 * n)))) by lia.
    cbn [take firstn legacy_suites].
    replace (i + 1)%nat with (S i) by lia.
    replace (i + 2)%nat with (S (S i)) by lia.
    replace (i + 3)%nat with (S (S (S i))) by lia.
    destruct (nth i buf 0 =? 0); cbn [negb].
    + rewrite make_u16bit_bytes by (apply nth_is_byte; exact Hbuf).
      rewrite <- app_assoc. reflexivity.
    + reflexivity.
Qed.

(** C5.  For every well-formed SSLv2-style Client Hello body (first byte
    1, the size exactly 9 plus the three declared lengths, no session id,
    a cipher-spec length divisible by 3 and a challenge of 16 to 32 bytes)
    decoding succeeds; the suites appended are, in order, the 2-byte
    big-endian ids of the 3-byte cipher specs whose first byte is 0, every
    other spec being dropped, and the client random is the challenge at
    its own length. *)
Theorem deserialize_sslv2_well_formed (self : Client_Hello.t) (buf : list Z) :
  let cipher_spec_len := 256 * nth 3 buf 0 + nth 4 buf 0 in
  let sess_id_len := 256 * nth 5 buf 0 + nth 6 buf 0 in
  let challenge_len := 256 * nth 7 buf 0 + nth 8 buf 0 in
  Forall is_byte buf ->
  nth 0 buf 0 = 1 ->
  Z.of_nat (length buf) = 9 + sess_id_len + cipher_spec_len + challenge_len ->
  sess_id_len = 0 ->
  cipher_spec_len mod 3 = 0 ->
  16 <= challenge_len <= 32 ->
  exists ch : Client_Hello.t,
    Client_Hello.deserialize_sslv2 self buf = Ok ch
    /\ Client_Hello.suites ch
       = Client_Hello.suites self
           ++ legacy_suites (take (Z.to_nat cipher_spec_len) (drop 9 buf))
    /\ Client_Hello.c_random ch = drop (9 + Z.to_nat cipher_spec_len) buf
    /\ Z.of_nat (length (Client_Hello.c_random ch)) = challenge_len
    /\ Client_Hello.c_version ch = 256 * nth 1 buf 0 + nth 2 buf 0.
Proof.
  intros cs sid ch Hbuf H0 Hsize Hsid Hcs Hch.
  assert (Hb : forall i, is_byte (nth i buf 0)) by (intro; apply nth_is_byte; exact Hbuf).
  assert (Hcs0 : 0 <= cs) by (pose proof (Hb 3%nat); pose proof (Hb 4%nat);
                              unfold is_byte in *; subst cs; lia).
  unfold Client_Hello.deserialize_sslv2.
  rewrite !make_u16bit_bytes by apply Hb.
  fold cs sid ch.
  replace (length buf <? 12)%nat with false by (symmetry; apply Nat.ltb_ge; lia).
  rewrite H0, Hsize. rewrite Z.eqb_refl. cbn [negb orb].
  rewrite Z.eqb_refl, Hsid, Hcs. cbn [Z.eqb negb orb].
  replace (ch <? 16) with false by (symmetry; apply Z.ltb_ge; lia).
  replace (32 <? ch) with false by (symmetry; apply Z.ltb_ge; lia).
  cbn [orb].
  assert (Hn : (3 * Z.to_nat (cs / 3))%nat = Z.to_nat cs).
  { pose proof (Z.div_mod cs 3). lia. }
  eexists. split; [reflexivity |]. cbn [Client_Hello.suites Client_Hello.c_random
                                         Client_Hello.c_version].
  assert (Hr : take (Z.to_nat ch) (drop (Z.to_nat (9 + cs + 0)) buf)
               = drop (9 + Z.to_nat cs) buf).
  { replace (Z.to_nat (9 + cs + 0)) with (9 + Z.to_nat cs)%nat by lia.
    apply take_ge. rewrite length_drop. lia. }
  split; [| split; [| split]].
  - rewrite sslv2_cipherspecs_spec by (try exact Hbuf; lia).
    rewrite Hn. reflexivity.
  - exact Hr.
  - rewrite Hr, length_drop. lia.
  - reflexivity.
Qed.

(** ** The wire reader *)

Lemma bind_Ok {A B} (m : reader.M A) (k : A -> reader.M B) (r r' : reader.t) (a : A) :
  m r = Ok (a, r') -> reader.bind m k r = k a r'.
Proof. intros E. unfold reader.bind. rewrite E. reflexivity. Qed.

Lemma nth_drop (l : list Z) (o i : nat) :
  nth (o + i) l 0 = nth i (drop o l) 0.
Proof.
  revert l. induction o as [| o IH]; intros [| x l]; simpl; try reflexivity.
  - destruct i; reflexivity.
  - apply IH.
Qed.

Lemma positioned_new (b : list Z) : positioned (reader.new b) b.
Proof. reflexivity. Qed.

Lemma positioned_remaining (r : reader.t) (l : list Z) :
  positioned r l -> reader.remaining_bytes r = length l.
Proof.
  unfold positioned, reader.remaining_bytes. intros <-.
  rewrite length_drop. reflexivity.
Qed.

Lemma positioned_advance (r : reader.t) (xs rest : list Z) (n : nat) :
  positioned r (xs ++ rest) -> n = length xs ->
  positioned (reader.advance n r) rest.
Proof.
  unfold positioned, reader.advance. simpl. intros E ->.
  rewrite <- drop_drop, E. apply drop_app_length.
Qed.

Lemma assert_at_least_ok (r : reader.t) (l : list Z) (n : nat) :
  positioned r l -> (n <= length l)%nat ->
  reader.assert_at_least n r = Ok (tt, r).
Proof.
  intros P Hn. unfold reader.assert_at_least.
  rewrite (positioned_remaining r l P).
  replace (length l <? n)%nat with false by (symmetry; apply Nat.ltb_ge; lia).
  reflexivity.
Qed.

Lemma assert_at_least_short (r : reader.t) (l : list Z) (n : nat) :
  positioned r l -> (length l < n)%nat ->
  reader.assert_at_least n r = Throw reader.corrupt.
Proof.
  intros P Hn. unfold reader.assert_at_least.
  rewrite (positioned_remaining r l P).
  replace (length l <? n)%nat with true by (symmetry; apply Nat.ltb_lt; lia).
  reflexivity.
Qed.

Lemma get_byte_at (r : reader.t) (x : Z) (rest : list Z) :
  positioned r (x :: rest) ->
  reader.get_byte r = Ok (x, reader.advance 1 r).
Proof.
  intros P. unfold reader.get_byte.
  erewrite bind_Ok by (eapply assert_at_least_ok; [exact P | simpl; lia]).
  rewrite <- (Nat.add_0_r (reader.offset r)), nth_drop, P. reflexivity.
Qed.

Lemma get_u16bit_at (r : reader.t) (a b : Z) (rest : list Z) :
  positioned r (a :: b :: rest) ->
  reader.get_u16bit r = Ok (make_u16bit a b, reader.advance 2 r).
Proof.
  intros P. unfold reader.get_u16bit.
  erewrite bind_Ok by (eapply assert_at_least_ok; [exact P | simpl; lia]).
  rewrite (nth_drop _ _ 1).
  rewrite <- (Nat.add_0_r (reader.offset r)) at 1. rewrite nth_drop, P.
  reflexivity.
Qed.

Lemma discard_next_at (r : reader.t) (xs rest : list Z) (n : nat) :
  positioned r (xs ++ rest) -> n = length xs ->
  reader.discard_next n r = Ok (tt, reader.advance n r).
Proof.
  intros P ->. unfold reader.discard_next.
  erewrite bind_Ok
    by (eapply assert_at_least_ok; [exact P | rewrite length_app; lia]).
  reflexivity.
Qed.

Lemma get_elem_at (r : reader.t) (xs rest : list Z) (sizeof_T num_elems : nat) :
  positioned r (xs ++ rest) -> length xs = (num_elems * sizeof_T)%nat ->
  reader.get_elem sizeof_T num_elems r
  = Ok (reader.elems sizeof_T num_elems (xs ++ rest),
        reader.advance (num_elems * sizeof_T) r).
Proof.
  intros P Hlen. unfold reader.get_elem.
  erewrite bind_Ok
    by (eapply assert_at_least_ok; [exact P | rewrite length_app; lia]).
  rewrite P. reflexivity.
Qed.

(** Elements of one byte are the bytes themselves. *)
Lemma elems_bytes (xs rest : list Z) :
  reader.elems 1 (length xs) (xs ++ rest) = xs.
Proof.
  induction xs as [| x xs IH]; simpl.
  - reflexivity.
  - rewrite drop_0. rewrite IH. f_equal.
Qed.

Lemma load_be_2 (a b : Z) : load_be [a; b] = make_u16bit a b.
Proof. reflexivity. Qed.

(** Elements of two bytes read back what [store_be] wrote. *)
Lemma elems_u16bit (vals rest : list Z) :
  Forall is_u16bit vals ->
  reader.elems 2 (length vals) (concat (map (store_be 2) vals) ++ rest) = vals.
Proof.
  induction 1 as [| v vals Hv Hvals IH].
  - reflexivity.
  - cbn [length map concat reader.elems].
    change (store_be 2 v) with [get_byte 2 0 v; get_byte 2 1 v].
    cbn [app take drop firstn skipn]. rewrite take_0, drop_0, IH, load_be_2.
    rewrite make_u16bit_get_byte by exact Hv. reflexivity.
Qed.

Lemma get_num_elems_at (r r1 : reader.t) (len_bytes sizeof_T : nat)
    (min_elems max_elems byte_length : Z) (n : nat) :
  reader.get_length_field len_bytes r = Ok (byte_length, r1) ->
  byte_length = Z.of_nat (n * sizeof_T) ->
  (0 < sizeof_T)%nat ->
  min_elems <= Z.of_nat n <= max_elems ->
  reader.get_num_elems len_bytes sizeof_T min_elems max_elems r = Ok (n, r1).
Proof.
  intros Hlen -> Hw Hn. unfold reader.get_num_elems.
  erewrite bind_Ok by exact Hlen.
  rewrite Nat2Z.inj_mul, Z.mod_mul, Z.div_mul by lia.
  cbn [Z.eqb negb].
  replace (Z.of_nat n <? min_elems) with false by (symmetry; apply Z.ltb_ge; lia).
  replace (max_elems <? Z.of_nat n) with false by (symmetry; apply Z.ltb_ge; lia).
  cbn [orb]. unfold reader.ret. rewrite Nat2Z.id. reflexivity.
Qed.

(** A list of bytes behind a one-byte length. *)
Lemma get_range_bytes_1 (r : reader.t) (xs rest : list Z) (min_elems max_elems : Z) :
  positioned r (Z.of_nat (length xs) :: xs ++ rest) ->
  min_elems <= Z.of_nat (length xs) <= max_elems ->
  reader.get_range 1 1 min_elems max_elems r
  = Ok (xs, reader.advance (length xs) (reader.advance 1 r)).
Proof.
  intros P Hn. unfold reader.get_range.
  rewrite (bind_Ok _ _ r (reader.advance 1 r) (length xs)).
  2: { apply get_num_elems_at with (byte_length := Z.of_nat (length xs));
         [| lia | lia | lia].
       cbn [reader.get_length_field]. eapply get_byte_at. exact P. }
  assert (P1 : positioned (reader.advance 1 r) (xs ++ rest)).
  { apply (positioned_advance r [Z.of_nat (length xs)]); [exact P | reflexivity]. }
  rewrite (get_elem_at _ xs rest) by (try exact P1; lia).
  rewrite elems_bytes, Nat.mul_1_r. reflexivity.
Qed.

(** A list of bytes behind a two-byte length. *)
Lemma get_range_bytes_2 (r : reader.t) (hi lo : Z) (xs rest : list Z)
    (min_elems max_elems : Z) :
  positioned r (hi :: lo :: xs ++ rest) ->
  make_u16bit hi lo = Z.of_nat (length xs) ->
  min_elems <= Z.of_nat (length xs) <= max_elems ->
  reader.get_range_vector 1 2 min_elems max_elems r
  = Ok (xs, reader.advance (length xs) (reader.advance 2 r)).
Proof.
  intros P Hlen Hn. unfold reader.get_range_vector.
  rewrite (bind_Ok _ _ r (reader.advance 2 r) (length xs)).
  2: { apply get_num_elems_at with (byte_length := make_u16bit hi lo);
         [| lia | lia | lia].
       cbn [reader.get_length_field]. eapply get_u16bit_at. exact P. }
  assert (P1 : positioned (reader.advance 2 r) (xs ++ rest)).
  { apply (positioned_advance r [hi; lo]); [exact P | reflexivity]. }
  rewrite (get_elem_at _ xs rest) by (try exact P1; lia).
  rewrite elems_bytes, Nat.mul_1_r. reflexivity.
Qed.

Lemma length_store_be_2 (vals : list Z) :
  length (concat (map (store_be 2) vals)) = (length vals * 2)%nat.
Proof. induction vals as [| v vals IH]; simpl; [reflexivity | lia]. Qed.

(** A list of 16-bit values behind a two-byte length. *)
Lemma get_range_u16bit_2 (r : reader.t) (hi lo : Z) (vals rest : list Z)
    (min_elems max_elems : Z) :
  positioned r (hi :: lo :: concat (map (store_be 2) vals) ++ rest) ->
  make_u16bit hi lo = 2 * Z.of_nat (length vals) ->
  min_elems <= Z.of_nat (length vals) <= max_elems ->
  Forall is_u16bit vals ->
  reader.get_range_vector 2 2 min_elems max_elems r
  = Ok (vals, reader.advance (length vals * 2) (reader.advance 2 r)).
Proof.
  intros P Hlen Hn Hvals. unfold reader.get_range_vector.
  rewrite (bind_Ok _ _ r (reader.advance 2 r) (length vals)).
  2: { apply get_num_elems_at with (byte_length := make_u16bit hi lo);
         [| lia | lia | lia].
       cbn [reader.get_length_field]. eapply get_u16bit_at. exact P. }
  assert (P1 : positioned (reader.advance 2 r)
                          (concat (map (store_be 2) vals) ++ rest)).
  { apply (positioned_advance r [hi; lo]); [exact P | reflexivity]. }
  rewrite (get_elem_at _ _ rest) by (try exact P1; apply length_store_be_2).
  rewrite elems_u16bit by exact Hvals. reflexivity.
Qed.

(** ** The modern Client Hello *)

Lemma store_be_bytes (xs : list Z) :
  Forall is_byte xs -> concat (map (store_be 1) xs) = xs.
Proof.
  induction 1 as [| x xs Hx Hxs IH]; simpl; [reflexivity |].
  rewrite IH. f_equal.
  rewrite get_byte_div. change (2 ^ _) with 1. rewrite Z.div_1_r.
  apply Z.mod_small. exact Hx.
Qed.

(** The body that [serialize] builds, field by field. *)
Lemma serialize_layout (x : Client_Hello.t) :
  Client_Hello_valid x ->
  exists hi lo,
    make_u16bit hi lo = 2 * Z.of_nat (length (Client_Hello.suites x))
    /\ Client_Hello.serialize x
       = [u8 (Z.shiftr (Client_Hello.c_version x) 8); u8 (Client_Hello.c_version x)]
           ++ Client_Hello.c_random x
           ++ (Z.of_nat (length (Client_Hello.sess_id x)) :: Client_Hello.sess_id x)
           ++ (hi :: lo :: concat (map (store_be 2) (Client_Hello.suites x)))
           ++ (Z.of_nat (length (Client_Hello.comp_methods x))
                 :: Client_Hello.comp_methods x).
Proof.
  intros V. destruct V.
  exists (get_byte 8 6 (Z.of_nat (2 * length (Client_Hello.suites x)))),
         (get_byte 8 7 (Z.of_nat (2 * length (Client_Hello.suites x)))).
  split.
  - rewrite make_u16bit_bytes by apply get_byte_is_byte.
    rewrite !get_byte_div.
    change (2 ^ (8 * Z.of_nat (8 - 1 - 6))) with 256.
    change (2 ^ (8 * Z.of_nat (8 - 1 - 7))) with 1.
    rewrite Z.div_1_r, Nat2Z.inj_mul.
    Z.to_euclidean_division_equations. lia.
  - unfold Client_Hello.serialize, append_tls_length_value.
    rewrite !store_be_bytes by assumption.
    cbn [seq map app Nat.sub Nat.add].
    assert (B : forall n, 0 <= n < 256 -> get_byte 8 7 n = n).
    { intros n Hn. rewrite get_byte_div. change (2 ^ _) with 1.
      rewrite Z.div_1_r. apply Z.mod_small. exact Hn. }
    rewrite !Nat.mul_1_l.
    rewrite (B (Z.of_nat (length (Client_Hello.sess_id x)))) by lia.
    rewrite (B (Z.of_nat (length (Client_Hello.comp_methods x)))) by lia.
    rewrite <- !app_assoc. reflexivity.
Qed.

Section Client_Hello_Properties.

Variables TLSEXT_SERVER_NAME_INDICATION TLSEXT_SRP_IDENTIFIER : Z.

(** Decoding a serialized hello followed by [rest] reads the five fixed
    fields back and goes on to the extensions with the reader at
    [rest]. *)
Lemma deserialize_fields (self x : Client_Hello.t) (rest : list Z) :
  Client_Hello_valid x ->
  exists r : reader.t,
    positioned r rest
    /\ Client_Hello.deserialize TLSEXT_SERVER_NAME_INDICATION
         TLSEXT_SRP_IDENTIFIER self (Client_Hello.serialize x ++ rest)
       = match Client_Hello.extensions TLSEXT_SERVER_NAME_INDICATION
                 TLSEXT_SRP_IDENTIFIER
                 (Client_Hello.mk (Client_Hello.c_version x)
                    (Client_Hello.c_random x) (Client_Hello.sess_id x)
                    (Client_Hello.suites x) (Client_Hello.comp_methods x)
                    (Client_Hello.requested_hostname self)
                    (Client_Hello.requested_srp_id self)) r with
         | Ok (self', _) => Ok self'
         | Throw e => Throw e
         | Out_of_fuel => Out_of_fuel
         end.
Proof.
  intros V. destruct (serialize_layout x V) as (hi & lo & Hlen & E).
  destruct V as [Vv Vrl Vr Vsl Vs Vul Vu Vcl Vc].
  set (buf := Client_Hello.serialize x ++ rest).
  assert (L : (41 <= length buf)%nat).
  { subst buf. rewrite E.
    repeat (rewrite ?length_app; cbn [length]).
    rewrite length_store_be_2. lia. }
  unfold Client_Hello.deserialize.
  replace (length buf =? 0)%nat with false by (symmetry; apply Nat.eqb_neq; lia).
  replace (length buf <? 41)%nat with false by (symmetry; apply Nat.ltb_ge; lia).
  set (r0 := reader.new buf).
  assert (P0 : positioned r0
                 (u8 (Z.shiftr (Client_Hello.c_version x) 8)
                  :: u8 (Client_Hello.c_version x)
                  :: Client_Hello.c_random x
                  ++ (Z.of_nat (length (Client_Hello.sess_id x))
                      :: Client_Hello.sess_id x
                  ++ (hi :: lo :: concat (map (store_be 2) (Client_Hello.suites x))
                  ++ (Z.of_nat (length (Client_Hello.comp_methods x))
                      :: Client_Hello.comp_methods x ++ rest))))).
  { unfold positioned, r0, reader.new. cbn [reader.offset reader.buf].
    rewrite drop_0. subst buf. rewrite E.
    rewrite <- !app_assoc. cbn [app]. rewrite <- ?app_assoc. reflexivity. }
  erewrite bind_Ok by (eapply get_u16bit_at; exact P0).
  rewrite make_u16bit_version by exact Vv.
  set (r1 := reader.advance 2 r0).
  assert (P1 : positioned r1
                 (Client_Hello.c_random x
                  ++ (Z.of_nat (length (Client_Hello.sess_id x))
                      :: Client_Hello.sess_id x
                  ++ (hi :: lo :: concat (map (store_be 2) (Client_Hello.suites x))
                  ++ (Z.of_nat (length (Client_Hello.comp_methods x))
                      :: Client_Hello.comp_methods x ++ rest))))).
  { apply (positioned_advance r0 [u8 (Z.shiftr (Client_Hello.c_version x) 8);
                                  u8 (Client_Hello.c_version x)]);
      [exact P0 | reflexivity]. }
  unfold reader.get_fixed.
  erewrite bind_Ok by (eapply get_elem_at; [exact P1 | rewrite Vrl; reflexivity]).
  match goal with
  | |- context [reader.elems 1 32 (Client_Hello.c_random x ++ ?tl)] =>
      pose proof (elems_bytes (Client_Hello.c_random x) tl) as Er
  end.
  rewrite Vrl in Er. rewrite Er. clear Er.
  set (r2 := reader.advance (32 * 1) r1).
  assert (P2 : positioned r2
                 (Z.of_nat (length (Client_Hello.sess_id x))
                  :: Client_Hello.sess_id x
                  ++ (hi :: lo :: concat (map (store_be 2) (Client_Hello.suites x))
                  ++ (Z.of_nat (length (Client_Hello.comp_methods x))
                      :: Client_Hello.comp_methods x ++ rest)))).
  { eapply positioned_advance; [exact P1 | rewrite Vrl; reflexivity]. }
  erewrite bind_Ok by (eapply get_range_bytes_1; [exact P2 | lia]).
  set (r3 := reader.advance (length (Client_Hello.sess_id x)) (reader.advance 1 r2)).
  assert (P3 : positioned r3
                 (hi :: lo :: concat (map (store_be 2) (Client_Hello.suites x))
                  ++ (Z.of_nat (length (Client_Hello.comp_methods x))
                      :: Client_Hello.comp_methods x ++ rest))).
  { eapply positioned_advance; [| reflexivity].
    eapply (positioned_advance r2 [_]); [exact P2 | reflexivity]. }
  erewrite bind_Ok
    by (eapply get_range_u16bit_2; [exact P3 | exact Hlen | lia | exact Vu]).
  set (r4 := reader.advance (length (Client_Hello.suites x) * 2)
                            (reader.advance 2 r3)).
  assert (P4 : positioned r4
                 (Z.of_nat (length (Client_Hello.comp_methods x))
                  :: Client_Hello.comp_methods x ++ rest)).
  { eapply positioned_advance.
    - eapply (positioned_advance r3 [_; _]); [exact P3 | reflexivity].
    - symmetry. apply length_store_be_2. }
  erewrite bind_Ok by (apply (get_range_bytes_1 r4 _ rest); [exact P4 | lia]).
  set (r5 := reader.advance (length (Client_Hello.comp_methods x))
                            (reader.advance 1 r4)).
  exists r5. split; [| reflexivity].
  eapply positioned_advance; [| reflexivity].
  eapply (positioned_advance r4 [_]); [exact P4 | reflexivity].
Qed.

Lemma has_remaining_at (r : reader.t) (l : list Z) :
  positioned r l -> reader.has_remaining r = (0 <? length l)%nat.
Proof.
  intros P. unfold reader.has_remaining.
  rewrite (positioned_remaining r l P). reflexivity.
Qed.

Lemma make_u16bit_be16 (v : Z) :
  is_u16bit v -> make_u16bit (v / 256) (v mod 256) = v.
Proof.
  intros Hv. rewrite make_u16bit_bytes.
  - Z.to_euclidean_division_equations. lia.
  - unfold is_byte. apply Z.mod_pos_bound. lia.
Qed.

Lemma last_cons (a d : list Z) (l : list (list Z)) :
  List.last (a :: l) d = List.last l a.
Proof.
  destruct l as [| b l]; [reflexivity |].
  change (List.last (a :: b :: l) d) with (List.last (b :: l) d).
  revert b. induction l as [| c l IH]; intros b; [reflexivity |].
  change (List.last (c :: l) d = List.last (c :: l) a). apply IH.
Qed.

(** One turn of the name loop on a DNS entry: the name is taken as the
    host name and the counter goes down, modulo 2^16, by the bytes of
    the entry. *)
Lemma sni_name_step_dns (r : reader.t) (name_bytes : Z)
    (hostname name rest : list Z) :
  positioned r (dns_name_entry name ++ rest) ->
  1 <= Z.of_nat (length name) <= 65535 ->
  Client_Hello.sni_name_step name_bytes hostname r
  = Ok ((u16 (u16 (name_bytes - 1) - (2 + Z.of_nat (length name))), name),
        reader.advance (length name) (reader.advance 2 (reader.advance 1 r))).
Proof.
  intros P Hlen. unfold dns_name_entry, be16 in P.
  cbn [app] in P. rewrite <- ?app_assoc in P.
  unfold Client_Hello.sni_name_step.
  erewrite bind_Ok by (eapply get_byte_at; exact P).
  cbn [Z.eqb].
  assert (P1 : positioned (reader.advance 1 r)
                 (Z.of_nat (length name) / 256
                  :: Z.of_nat (length name) mod 256 :: name ++ rest)).
  { apply (positioned_advance r [0]); [exact P | reflexivity]. }
  erewrite bind_Ok.
  2: { eapply get_range_bytes_2; [exact P1 | | lia].
       apply make_u16bit_be16. unfold is_u16bit. lia. }
  reflexivity.
Qed.

(** One turn of the name loop on an entry of another type: the bytes the
    counter still announces are skipped and the counter is set to 0. *)
Lemma sni_name_step_other (r : reader.t) (name_bytes t : Z)
    (hostname junk rest : list Z) :
  positioned r (t :: junk ++ rest) ->
  t <> 0 ->
  u16 (name_bytes - 1) = Z.of_nat (length junk) ->
  Client_Hello.sni_name_step name_bytes hostname r
  = Ok ((0, hostname), reader.advance (length junk) (reader.advance 1 r)).
Proof.
  intros P Ht E. unfold Client_Hello.sni_name_step.
  erewrite bind_Ok by (eapply get_byte_at; exact P).
  replace (t =? 0) with false by (symmetry; apply Z.eqb_neq; exact Ht).
  rewrite E, Nat2Z.id.
  assert (P1 : positioned (reader.advance 1 r) (junk ++ rest)).
  { apply (positioned_advance r [t]); [exact P | reflexivity]. }
  erewrite bind_Ok by (eapply discard_next_at; [exact P1 | reflexivity]).
  reflexivity.
Qed.

(** The loop over a name list made of DNS entries, possibly followed by
    one entry of another type and whatever bytes come with it: every DNS
    name overwrites the host name, so the last one stays; the entry of
    another type ends the loop with the rest of the list skipped. *)
Lemma sni_name_loop_names (names : list (list Z)) (tail rest : list Z) :
  Forall (fun name => (1 <= length name)%nat) names ->
  (tail = [] \/ exists t junk, tail = t :: junk /\ t <> 0) ->
  forall (fuel : nat) (r : reader.t) (hostname : list Z),
    let name_list := concat (map dns_name_entry names) ++ tail in
    Z.of_nat (length name_list) <= 65535 ->
    positioned r (name_list ++ rest) ->
    (length (name_list ++ rest) < fuel)%nat ->
    exists r' : reader.t,
      positioned r' rest
      /\ Client_Hello.sni_name_loop fuel (Z.of_nat (length name_list))
           hostname r
         = Ok (List.last names hostname, r').
Proof.
  intros Hnames Htail.
  induction Hnames as [| name names Hname Hnames IH];
    intros fuel r hostname name_list Hmax P Hfuel.
  - subst name_list. cbn [map concat app] in *.
    destruct Htail as [-> | (t & junk & -> & Ht)].
    + exists r. split; [exact P |].
      destruct fuel; reflexivity.
    + destruct fuel as [| fuel]; [lia |].
      cbn [Client_Hello.sni_name_loop].
      replace (Z.of_nat (length (t :: junk)) =? 0) with false
        by (symmetry; apply Z.eqb_neq; cbn [length]; lia).
      cbn [app] in P.
      erewrite bind_Ok.
      2: { eapply sni_name_step_other; [exact P | exact Ht |].
           unfold u16. cbn [length] in *. rewrite Z.mod_small; lia. }
      cbn [fst snd].
      exists (reader.advance (length junk) (reader.advance 1 r)).
      split.
      * eapply positioned_advance; [| reflexivity].
        apply (positioned_advance r [t]); [exact P | reflexivity].
      * destruct fuel; reflexivity.
  - set (later := concat (map dns_name_entry names) ++ tail) in *.
    assert (El : name_list = dns_name_entry name ++ later).
    { subst name_list later. cbn [map concat]. rewrite <- app_assoc. reflexivity. }
    assert (Ll : length name_list = (3 + length name + length later)%nat).
    { rewrite El. unfold dns_name_entry, be16. cbn [app length].
      rewrite length_app. lia. }
    rewrite El, <- app_assoc in P.
    rewrite length_app in Hfuel.
    destruct fuel as [| fuel]; [lia |].
    cbn [Client_Hello.sni_name_loop].
    replace (Z.of_nat (length name_list) =? 0) with false
      by (symmetry; apply Z.eqb_neq; lia).
    erewrite bind_Ok by (eapply sni_name_step_dns; [exact P | lia]).
    cbn [fst snd].
    assert (E : u16 (u16 (Z.of_nat (length name_list) - 1)
                     - (2 + Z.of_nat (length name)))
                = Z.of_nat (length later)).
    { unfold u16. rewrite (Z.mod_small (_ - 1)) by lia.
      rewrite Z.mod_small by lia. lia. }
    rewrite E.
    destruct (IH fuel
                (reader.advance (length name) (reader.advance 2 (reader.advance 1 r)))
                name) as (r' & P' & E').
    + fold later. lia.
    + fold later. eapply positioned_advance; [| reflexivity].
      apply (positioned_advance (reader.advance 1 r)
               [Z.of_nat (length name) / 256; Z.of_nat (length name) mod 256]);
        [| reflexivity].
      apply (positioned_advance r [0]); [exact P | reflexivity].
    + fold later. rewrite length_app. lia.
    + exists r'. split; [exact P' |].
      fold later in E'. rewrite E'. rewrite last_cons. reflexivity.
Qed.

Lemma extension_loop_end (fuel : nat) (self : Client_Hello.t) (r : reader.t) :
  positioned r [] ->
  Client_Hello.extension_loop TLSEXT_SERVER_NAME_INDICATION
    TLSEXT_SRP_IDENTIFIER fuel self r = Ok (self, r).
Proof.
  intros P. destruct fuel; cbn [Client_Hello.extension_loop];
    rewrite (has_remaining_at r [] P); reflexivity.
Qed.

(** One turn of the loop over the extensions, on a server name
    extension. *)
Lemma extension_loop_sni (fuel : nat) (self : Client_Hello.t) (r : reader.t)
    (ext_size name_bytes : Z) (rest : list Z) :
  is_u16bit TLSEXT_SERVER_NAME_INDICATION ->
  is_u16bit name_bytes ->
  positioned r (extension TLSEXT_SERVER_NAME_INDICATION ext_size
                  (server_name_list name_bytes rest)) ->
  Client_Hello.extension_loop TLSEXT_SERVER_NAME_INDICATION
    TLSEXT_SRP_IDENTIFIER (S fuel) self r
  = (do name <- (fun r =>
                   Client_Hello.sni_name_loop
                     (S (reader.remaining_bytes r)) name_bytes
                     (Client_Hello.requested_hostname self) r);
     Client_Hello.extension_loop TLSEXT_SERVER_NAME_INDICATION
       TLSEXT_SRP_IDENTIFIER fuel
       (Client_Hello.set_requested_hostname name self))
      (reader.advance 2 (reader.advance 2 (reader.advance 2 r))).
Proof.
  intros Hsni Hnb P.
  unfold extension, server_name_list, be16 in P. cbn [app] in P.
  cbn [Client_Hello.extension_loop].
  rewrite (has_remaining_at r _ P). cbn [length Nat.ltb Nat.leb negb].
  erewrite bind_Ok by (eapply get_u16bit_at; exact P).
  rewrite make_u16bit_be16 by exact Hsni.
  assert (P2 : positioned (reader.advance 2 r)
                 (ext_size / 256 :: ext_size mod 256
                  :: name_bytes / 256 :: name_bytes mod 256 :: rest)).
  { apply (positioned_advance r [TLSEXT_SERVER_NAME_INDICATION / 256;
                                 TLSEXT_SERVER_NAME_INDICATION mod 256]);
      [exact P | reflexivity]. }
  erewrite bind_Ok by (eapply get_u16bit_at; exact P2).
  rewrite Z.eqb_refl.
  assert (P3 : positioned (reader.advance 2 (reader.advance 2 r))
                 (name_bytes / 256 :: name_bytes mod 256 :: rest)).
  { apply (positioned_advance (reader.advance 2 r)
             [ext_size / 256; ext_size mod 256]);
      [exact P2 | reflexivity]. }
  erewrite bind_Ok by (eapply get_u16bit_at; exact P3).
  rewrite make_u16bit_be16 by exact Hnb.
  reflexivity.
Qed.

(** *** The loops end within their budget *)

Lemma within_le {A} (b1 b2 : nat) (res : result (A * reader.t)) :
  (b1 <= b2)%nat -> within b1 res -> within b2 res.
Proof. intros Hb. destruct res as [[a r'] | e |]; simpl; [lia | trivial | trivial]. Qed.

Lemma within_bind {A B} (m : reader.M A) (k : A -> reader.M B) (r : reader.t)
    (b1 b2 : nat) :
  within b1 (m r) ->
  (forall a r', (reader.remaining_bytes r' <= b1)%nat -> within b2 (k a r')) ->
  within b2 (reader.bind m k r).
Proof.
  intros Hm Hk. unfold reader.bind.
  destruct (m r) as [[a r'] | e |]; simpl in *; [apply Hk; exact Hm | trivial | contradiction].
Qed.

Lemma consumes_bind {A B} (m : reader.M A) (k : A -> reader.M B) (r : reader.t)
    (n : nat) (b : nat) :
  consumes n m ->
  (forall a r',
      (reader.remaining_bytes r' + n <= reader.remaining_bytes r)%nat ->
      within b (k a r')) ->
  within b (reader.bind m k r).
Proof.
  intros Hm Hk. unfold reader.bind. specialize (Hm r).
  destruct (m r) as [[a r'] | e |]; simpl in *;
    [apply Hk; exact Hm | trivial | contradiction].
Qed.

Lemma consumes_le {A} (n n' : nat) (m : reader.M A) :
  (n' <= n)%nat -> consumes n m -> consumes n' m.
Proof.
  intros Hn Hm r. specialize (Hm r).
  destruct (m r) as [[a r'] | e |]; [lia | trivial | trivial].
Qed.

Lemma consumes_within {A} (n : nat) (m : reader.M A) (r : reader.t) :
  consumes n m -> within (reader.remaining_bytes r) (m r).
Proof.
  intros Hm. specialize (Hm r).
  destruct (m r) as [[a r'] | e |]; simpl; [lia | trivial | trivial].
Qed.

Lemma remaining_advance (n : nat) (r : reader.t) :
  reader.remaining_bytes (reader.advance n r) = (reader.remaining_bytes r - n)%nat.
Proof. unfold reader.remaining_bytes, reader.advance. simpl. lia. Qed.

Lemma consumes_after_assert {A} (n : nat) (f : reader.t -> A) :
  consumes n (reader.bind (reader.assert_at_least n)
                (fun _ r => Ok (f r, reader.advance n r))).
Proof.
  intros r. unfold reader.bind, reader.assert_at_least.
  destruct (Nat.ltb_spec (reader.remaining_bytes r) n); [trivial |].
  rewrite remaining_advance. lia.
Qed.

Lemma consumes_get_byte : consumes 1 reader.get_byte.
Proof. apply consumes_after_assert. Qed.

Lemma consumes_get_u16bit : consumes 2 reader.get_u16bit.
Proof. apply consumes_after_assert. Qed.

Lemma consumes_discard_next (n : nat) : consumes 0 (reader.discard_next n).
Proof.
  apply consumes_le with n; [lia |].
  apply (consumes_after_assert n (fun _ => tt)).
Qed.

Lemma consumes_get_elem (sizeof_T num_elems : nat) :
  consumes 0 (reader.get_elem sizeof_T num_elems).
Proof.
  apply consumes_le with (num_elems * sizeof_T)%nat; [lia |].
  apply consumes_after_assert.
Qed.

Lemma consumes_get_range_vector (sizeof_T len_bytes : nat) (min_elems max_elems : Z) :
  consumes 0 (reader.get_range_vector sizeof_T len_bytes min_elems max_elems).
Proof.
  intros r.
  assert (W : within (reader.remaining_bytes r)
                (reader.get_range_vector sizeof_T len_bytes min_elems max_elems r)).
  { unfold reader.get_range_vector, reader.get_num_elems.
    apply within_bind with (b1 := reader.remaining_bytes r).
    - apply within_bind with (b1 := reader.remaining_bytes r).
      + destruct len_bytes as [| [| [| n]]]; cbn [reader.get_length_field].
        * exact I.
        * apply (consumes_within 1). apply consumes_get_byte.
        * apply (consumes_within 2). apply consumes_get_u16bit.
        * exact I.
      + intros byte_length r' Hr'.
        destruct (negb _); [exact I |].
        destruct (_ || _); [exact I |].
        simpl. lia.
    - intros n r' Hr'. eapply within_le; [| apply (consumes_within 0), consumes_get_elem].
      exact Hr'. }
  destruct (reader.get_range_vector _ _ _ _ r) as [[a r'] | e |]; simpl in *;
    [lia | trivial | trivial].
Qed.

Lemma consumes_sni_name_step (name_bytes : Z) (hostname : list Z) :
  consumes 1 (Client_Hello.sni_name_step name_bytes hostname).
Proof.
  intros r.
  assert (W : within (reader.remaining_bytes r - 1)
                (Client_Hello.sni_name_step name_bytes hostname r)
              /\ (reader.remaining_bytes r = 0%nat ->
                  exists e, Client_Hello.sni_name_step name_bytes hostname r
                            = Throw e)).
  { unfold Client_Hello.sni_name_step. split.
    - eapply consumes_bind; [apply consumes_get_byte |].
      intros name_type r1 H1.
      destruct (name_type =? 0).
      + eapply consumes_bind; [apply consumes_get_range_vector |].
        intros name r2 H2. simpl. lia.
      + eapply consumes_bind; [apply consumes_discard_next |].
        intros u r2 H2. simpl. lia.
    - intros Hz. unfold reader.bind at 1, reader.get_byte, reader.bind,
        reader.assert_at_least.
      rewrite Hz. simpl. eexists. reflexivity. }
  destruct W as [W Hz].
  destruct (Client_Hello.sni_name_step name_bytes hostname r) as [[a r'] | e |];
    simpl in *; [| trivial | trivial].
  destruct (Nat.eq_dec (reader.remaining_bytes r) 0) as [Z0 | NZ].
  - destruct (Hz Z0) as [e He]. discriminate.
  - lia.
Qed.

(** The name loop never uses up a budget above the bytes left. *)
Lemma sni_name_loop_within (fuel : nat) :
  forall (name_bytes : Z) (hostname : list Z) (r : reader.t),
    (reader.remaining_bytes r < fuel)%nat ->
    within (reader.remaining_bytes r)
           (Client_Hello.sni_name_loop fuel name_bytes hostname r).
Proof.
  induction fuel as [| fuel IH]; intros name_bytes hostname r Hfuel; [lia |].
  cbn [Client_Hello.sni_name_loop].
  destruct (name_bytes =? 0); [simpl; lia |].
  eapply consumes_bind; [apply consumes_sni_name_step |].
  intros st r1 H1.
  eapply within_le; [| apply IH]; lia.
Qed.

(** The loop over the extensions never uses up a budget above the bytes
    left. *)
Lemma extension_loop_within (fuel : nat) :
  forall (self : Client_Hello.t) (r : reader.t),
    (reader.remaining_bytes r < fuel)%nat ->
    within (reader.remaining_bytes r)
           (Client_Hello.extension_loop TLSEXT_SERVER_NAME_INDICATION
              TLSEXT_SRP_IDENTIFIER fuel self r).
Proof.
  induction fuel as [| fuel IH]; intros self r Hfuel; [lia |].
  cbn [Client_Hello.extension_loop].
  unfold reader.has_remaining.
  destruct (Nat.ltb_spec 0 (reader.remaining_bytes r)) as [Hpos | Hzero];
    cbn [negb]; [| simpl; lia].
  eapply consumes_bind; [apply consumes_get_u16bit |].
  intros extension_code r1 H1.
  eapply consumes_bind; [apply consumes_get_u16bit |].
  intros extension_size r2 H2.
  destruct (extension_code =? TLSEXT_SERVER_NAME_INDICATION).
  - eapply consumes_bind; [apply consumes_get_u16bit |].
    intros name_bytes r3 H3.
    eapply within_bind; [apply sni_name_loop_within; lia |].
    intros name r4 H4.
    eapply within_le; [| apply IH]; lia.
  - destruct (extension_code =? TLSEXT_SRP_IDENTIFIER).
    + eapply consumes_bind; [apply consumes_get_range_vector |].
      intros name r3 H3.
      eapply within_le; [| apply IH]; lia.
    + eapply consumes_bind; [apply consumes_discard_next |].
      intros u r3 H3.
      eapply within_le; [| apply IH]; lia.
Qed.

(** X9.  [deserialize] always returns or throws: every turn of the loop
    over the extensions and of the loop over the names reads at least one
    byte, so the budgets it hands to its loops are never used up. *)
Lemma deserialize_total (self : Client_Hello.t) (buf : list Z) :
  Client_Hello.deserialize TLSEXT_SERVER_NAME_INDICATION TLSEXT_SRP_IDENTIFIER
    self buf <> Out_of_fuel.
Proof.
  unfold Client_Hello.deserialize.
  destruct (length buf =? 0)%nat; [discriminate |].
  destruct (length buf <? 41)%nat; [discriminate |].
  match goal with
  | |- match ?m ?r with _ => _ end <> _ =>
      assert (W : within (reader.remaining_bytes r) (m r))
  end.
  { eapply consumes_bind; [apply consumes_get_u16bit |]. intros v r1 H1.
    eapply consumes_bind; [apply consumes_get_elem |]. intros rnd r2 H2.
    eapply consumes_bind; [apply consumes_get_range_vector |]. intros sid r3 H3.
    eapply consumes_bind; [apply consumes_get_range_vector |]. intros su r4 H4.
    eapply consumes_bind; [apply consumes_get_range_vector |]. intros cm r5 H5.
    unfold Client_Hello.extensions.
    destruct (reader.has_remaining r5); [| simpl; lia].
    eapply consumes_bind; [apply consumes_get_u16bit |]. intros sz r6 H6.
    destruct (negb _); [exact I |].
    eapply within_le; [| apply extension_loop_within]; lia. }
  match goal with
  | |- match ?x with _ => _ end <> _ =>
      destruct x as [[ch r'] | e |]; [discriminate | discriminate | contradiction]
  end.
Qed.

(** X20.  A DNS entry that is longer than what the counter still announces
    makes the counter wrap: it comes out of the turn above 0, and the loop
    goes on. *)
Lemma sni_name_step_wraps (r : reader.t) (name_bytes : Z)
    (hostname name rest : list Z) :
  positioned r (dns_name_entry name ++ rest) ->
  1 <= Z.of_nat (length name) <= 65533 ->
  1 <= name_bytes < 1 + 2 + Z.of_nat (length name) ->
  exists r' : reader.t,
    positioned r' rest
    /\ Client_Hello.sni_name_step name_bytes hostname r
       = Ok ((name_bytes - (1 + 2 + Z.of_nat (length name)) + 65536, name), r')
    /\ 0 < name_bytes - (1 + 2 + Z.of_nat (length name)) + 65536.
Proof.
  intros P Hlen Hnb.
  exists (reader.advance (length name) (reader.advance 2 (reader.advance 1 r))).
  split; [| split; [| lia]].
  - unfold dns_name_entry, be16 in P. cbn [app] in P. rewrite <- ?app_assoc in P.
    eapply positioned_advance; [| reflexivity].
    apply (positioned_advance _ [Z.of_nat (length name) / 256;
                                 Z.of_nat (length name) mod 256]);
      [| reflexivity].
    apply (positioned_advance r [0]); [exact P | reflexivity].
  - rewrite (sni_name_step_dns r name_bytes hostname name rest P) by lia.
    repeat f_equal. unfold u16.
    rewrite (Z.mod_small (name_bytes - 1)) by lia.
    change (2 ^ 16) with 65536.
    Z.to_euclidean_division_equations. lia.
Qed.

(** C4.  For every Client Hello value with a 32-byte random, a session id
    of at most 32 bytes, 1 to 32767 suites and 1 to 255 compression
    methods, decoding the bytes that [serialize] produces (which hold no
    extensions) succeeds and gives back the version, the random, the
    session id, the suites in order and the compression methods in
    order. *)
Theorem deserialize_serialize_roundtrip (self x : Client_Hello.t) :
  Client_Hello_valid x ->
  Client_Hello.deserialize TLSEXT_SERVER_NAME_INDICATION TLSEXT_SRP_IDENTIFIER
    self (Client_Hello.serialize x)
  = Ok (Client_Hello.mk (Client_Hello.c_version x) (Client_Hello.c_random x)
          (Client_Hello.sess_id x) (Client_Hello.suites x)
          (Client_Hello.comp_methods x)
          (Client_Hello.requested_hostname self)
          (Client_Hello.requested_srp_id self)).
Proof.
  intros V. destruct (deserialize_fields self x [] V) as (r & P & E).
  rewrite app_nil_r in E. rewrite E.
  unfold Client_Hello.extensions.
  rewrite (has_remaining_at r [] P). reflexivity.
Qed.

(** C2, as amended.  In a modern-format Client Hello whose only extension
    is a server name extension, every DNS-type name entry overwrites the
    requested host name, so of several DNS names the last one is
    retained; a single DNS entry of N bytes gives a host name of length
    N; and an entry of another type makes the decoder skip the rest of
    the declared name list without a decode failure. *)
Theorem sni_keeps_last_dns_name (self x : Client_Hello.t)
    (names : list (list Z)) (tail : list Z) (ext_size : Z) :
  Client_Hello_valid x ->
  is_u16bit TLSEXT_SERVER_NAME_INDICATION ->
  Forall (fun name => (1 <= length name)%nat) names ->
  (tail = [] \/ exists t junk, tail = t :: junk /\ t <> 0) ->
  let name_list := concat (map dns_name_entry names) ++ tail in
  let n := Z.of_nat (length name_list) in
  n <= 65529 ->
  let buf :=
    Client_Hello.serialize x
      ++ be16 (6 + n)
      ++ extension TLSEXT_SERVER_NAME_INDICATION ext_size
           (server_name_list n name_list) in
  exists ch : Client_Hello.t,
    Client_Hello.deserialize TLSEXT_SERVER_NAME_INDICATION
      TLSEXT_SRP_IDENTIFIER self buf = Ok ch
    /\ Client_Hello.requested_hostname ch
       = List.last names (Client_Hello.requested_hostname self)
    /\ (forall name, names = [name] ->
          length (Client_Hello.requested_hostname ch) = length name)
    /\ Client_Hello.suites ch = Client_Hello.suites x
    /\ Client_Hello.requested_srp_id ch = Client_Hello.requested_srp_id self.
Proof.
  intros V Hsni Hnames Htail name_list n Hn buf.
  destruct (deserialize_fields self x
              (be16 (6 + n)
                 ++ extension TLSEXT_SERVER_NAME_INDICATION ext_size
                      (server_name_list n name_list)) V) as (r & P & E).
  fold buf in E. rewrite E. clear E.
  set (self1 := Client_Hello.mk _ _ _ _ _ _ _).
  assert (L : length (extension TLSEXT_SERVER_NAME_INDICATION ext_size
                        (server_name_list n name_list))
              = (6 + length name_list)%nat) by reflexivity.
  set (ext := extension TLSEXT_SERVER_NAME_INDICATION ext_size
                (server_name_list n name_list)) in *.
  unfold be16 in P. cbn [app] in P.
  unfold Client_Hello.extensions.
  rewrite (has_remaining_at r _ P). cbn [length Nat.ltb Nat.leb].
  erewrite bind_Ok by (eapply get_u16bit_at; exact P).
  rewrite make_u16bit_be16 by (unfold is_u16bit; lia).
  set (r1 := reader.advance 2 r).
  assert (P1 : positioned r1 ext).
  { apply (positioned_advance r [(6 + n) / 256; (6 + n) mod 256]);
      [exact P | reflexivity]. }
  rewrite (positioned_remaining r1 _ P1), L.
  replace (Z.of_nat (6 + length name_list) =? 6 + n)
    with true by (symmetry; apply Z.eqb_eq; lia).
  cbn [negb].
  rewrite (extension_loop_sni _ self1 r1 ext_size n name_list Hsni)
    by (try exact P1; unfold is_u16bit; lia).
  set (r4 := reader.advance 2 (reader.advance 2 (reader.advance 2 r1))).
  assert (P4 : positioned r4 (name_list ++ [])).
  { rewrite app_nil_r. subst r4.
    apply (positioned_advance _ [n / 256; n mod 256]); [| reflexivity].
    apply (positioned_advance _ [ext_size / 256; ext_size mod 256]);
      [| reflexivity].
    apply (positioned_advance r1 [TLSEXT_SERVER_NAME_INDICATION / 256;
                                  TLSEXT_SERVER_NAME_INDICATION mod 256]);
      [exact P1 | reflexivity]. }
  destruct (sni_name_loop_names names tail [] Hnames Htail
              (S (reader.remaining_bytes r4)) r4
              (Client_Hello.requested_hostname self1))
    as (r5 & P5 & E5).
  { fold name_list n. lia. }
  { exact P4. }
  { rewrite (positioned_remaining r4 _ P4). unfold name_list. lia. }
  fold name_list n in E5.
  erewrite bind_Ok by exact E5.
  rewrite extension_loop_end by exact P5.
  eexists. split; [reflexivity |].
  cbn [Client_Hello.requested_hostname Client_Hello.set_requested_hostname
       Client_Hello.suites Client_Hello.requested_srp_id self1].
  split; [reflexivity |]. split; [| split; reflexivity].
  intros name ->. reflexivity.
Qed.

End Client_Hello_Properties.

(** ** Examples of the Client Hello theorems *)

Lemma offering_hello_valid : Client_Hello_valid offering_hello.
Proof.
  split; simpl; try lia; unfold is_u16bit; try lia;
    repeat constructor; unfold is_byte, is_u16bit; lia.
Qed.

Lemma deserialize_serialize_roundtrip_witness :
  Client_Hello_valid offering_hello
  /\ Client_Hello.deserialize wire_sni wire_srp Client_Hello.empty
       (Client_Hello.serialize offering_hello)
     = Ok offering_hello.
Proof.
  split; [exact offering_hello_valid |].
  apply (deserialize_serialize_roundtrip wire_sni wire_srp Client_Hello.empty
           offering_hello offering_hello_valid).
Defined.

Lemma sni_keeps_last_dns_name_witness :
  Client_Hello_valid offering_hello
  /\ is_u16bit wire_sni
  /\ exists ch : Client_Hello.t,
       Client_Hello.deserialize wire_sni wire_srp Client_Hello.empty
         two_name_hello = Ok ch
       /\ Client_Hello.requested_hostname ch = [98].
Proof.
  split; [exact offering_hello_valid |].
  split; [unfold is_u16bit, wire_sni; lia |].
  destruct (sni_keeps_last_dns_name wire_sni wire_srp Client_Hello.empty
              offering_hello [[97]; [98]] [] 10 offering_hello_valid)
    as (ch & Hch & Hname & _).
  - unfold is_u16bit, wire_sni. lia.
  - repeat constructor.
  - left. reflexivity.
  - vm_compute. discriminate.
  - exists ch. split; [exact Hch | exact Hname].
Defined.

Lemma deserialize_sslv2_well_formed_witness :
  Forall is_byte sslv2_hello
  /\ exists ch : Client_Hello.t,
       Client_Hello.deserialize_sslv2 Client_Hello.empty sslv2_hello = Ok ch
       /\ Client_Hello.suites ch = [47]
       /\ Client_Hello.c_random ch = repeat 9 16.
Proof.
  assert (B : Forall is_byte sslv2_hello).
  { unfold sslv2_hello. repeat constructor; unfold is_byte; lia. }
  split; [exact B |].
  destruct (deserialize_sslv2_well_formed Client_Hello.empty sslv2_hello B)
    as (ch & Hch & Hsuites & Hrandom & _).
  - reflexivity.
  - reflexivity.
  - reflexivity.
  - reflexivity.
  - vm_compute. split; discriminate.
  - exists ch. split; [exact Hch |]. split; [exact Hsuites | exact Hrandom].
Defined.

(** C2, counterexample.  The server name extension of [two_name_hello]
    holds the DNS names "a" and "b", in this order; the decoded hello
    requests the host "b", not the first name "a". *)
Lemma sni_second_dns_name_replaces_first :
  exists ch : Client_Hello.t,
    Client_Hello.deserialize wire_sni wire_srp Client_Hello.empty two_name_hello
    = Ok ch
    /\ Client_Hello.requested_hostname ch = [98]
    /\ Client_Hello.requested_hostname ch <> [97].
Proof.
  eexists. split; [vm_compute; reflexivity |].
  split; [reflexivity | discriminate].
Qed.

(** C10.  The 16-bit counter of the name loop is decremented without a
    guard.  In [short_list_hello] the server name extension declares a
    name list of 1 byte and holds a DNS entry of 1 + 2 + 1 bytes: when the
    reader stands at the entry (offset 51), one turn of the loop takes the
    entry, leaves the counter at 65533 = (1 - 4) mod 2^16 and the reader at
    the extension that follows; the loop goes on, and its next turn reads
    the header and the payload of that extension as a DNS entry.  Decoding
    fails only when the buffer is used up. *)
Theorem sni_name_counter_wraps :
  exists buf : list Z,
    let name_bytes := 1 in
    let name := [97] in
    let next_extension := extension 1 256 (repeat 65 256) in
    let r0 := reader.mk buf 51 in
    let r1 := reader.mk buf 55 in
    let r2 := reader.mk buf 315 in
    take 51 buf
    = Client_Hello.serialize offering_hello
        ++ be16 270 ++ be16 wire_sni ++ be16 6 ++ be16 name_bytes
    /\ positioned r0 (dns_name_entry name ++ next_extension)
    /\ name_bytes < 1 + 2 + Z.of_nat (length name)
    /\ Client_Hello.sni_name_step name_bytes [] r0 = Ok ((65533, name), r1)
    /\ 65533 = (name_bytes - (1 + 2 + Z.of_nat (length name))) mod 2 ^ 16
    /\ positioned r1 next_extension
    /\ Client_Hello.sni_name_step 65533 name r1
       = Ok ((65273, 0 :: repeat 65 256), r2)
    /\ Client_Hello.sni_name_loop (S (reader.remaining_bytes r0)) name_bytes [] r0
       = Throw reader.corrupt
    /\ Client_Hello.deserialize wire_sni wire_srp Client_Hello.empty buf
       = Throw reader.corrupt.
Proof.
  exists short_list_hello. vm_compute. repeat split.
Qed.

(** ** Server Hello *)

Lemma bind_inv {A B} (m : reader.M A) (k : A -> reader.M B) (r r2 : reader.t)
    (b : B) :
  reader.bind m k r = Ok (b, r2) ->
  exists a r1, m r = Ok (a, r1) /\ k a r1 = Ok (b, r2).
Proof.
  unfold reader.bind. destruct (m r) as [[a r1] | e |]; [| discriminate | discriminate].
  intros E. exists a, r1. split; [reflexivity | exact E].
Qed.

Lemma elems_length (sizeof_T num_elems : nat) (l : list Z) :
  length (reader.elems sizeof_T num_elems l) = num_elems.
Proof.
  revert l. induction num_elems as [| n IH]; intros l; simpl; [reflexivity |].
  rewrite IH. reflexivity.
Qed.

Lemma get_elem_inv (sizeof_T num_elems : nat) (r r' : reader.t) (xs : list Z) :
  reader.get_elem sizeof_T num_elems r = Ok (xs, r') ->
  length xs = num_elems
  /\ r' = reader.advance (num_elems * sizeof_T) r
  /\ (num_elems * sizeof_T <= reader.remaining_bytes r)%nat.
Proof.
  unfold reader.get_elem, reader.bind, reader.assert_at_least.
  destruct (Nat.ltb_spec (reader.remaining_bytes r) (num_elems * sizeof_T));
    [discriminate |].
  intros E. injection E as <- <-. rewrite elems_length. auto.
Qed.

(** What a length-prefixed read that returned has checked. *)
Lemma get_num_elems_inv (len_bytes sizeof_T : nat) (min_elems max_elems : Z)
    (r r' : reader.t) (n : nat) :
  0 <= min_elems ->
  reader.get_num_elems len_bytes sizeof_T min_elems max_elems r = Ok (n, r') ->
  min_elems <= Z.of_nat n <= max_elems
  /\ (reader.remaining_bytes r' + len_bytes = reader.remaining_bytes r)%nat.
Proof.
  intros Hmin. unfold reader.get_num_elems. intros E.
  apply bind_inv in E. destruct E as (byte_length & r1 & E1 & E2).
  destruct (negb _); [discriminate |].
  destruct (Z.ltb_spec (byte_length / Z.of_nat sizeof_T) min_elems);
    [discriminate |].
  destruct (Z.ltb_spec max_elems (byte_length / Z.of_nat sizeof_T));
    [discriminate |].
  cbn [orb] in E2. unfold reader.ret in E2. injection E2 as <- <-.
  split; [lia |].
  destruct len_bytes as [| [| [| k]]]; cbn [reader.get_length_field] in E1;
    try discriminate.
  - unfold reader.get_byte, reader.bind, reader.assert_at_least in E1.
    destruct (Nat.ltb_spec (reader.remaining_bytes r) 1); [discriminate |].
    injection E1 as _ <-. rewrite remaining_advance. lia.
  - unfold reader.get_u16bit, reader.bind, reader.assert_at_least in E1.
    destruct (Nat.ltb_spec (reader.remaining_bytes r) 2); [discriminate |].
    injection E1 as _ <-. rewrite remaining_advance. lia.
Qed.

Lemma get_range_vector_inv (sizeof_T len_bytes : nat) (min_elems max_elems : Z)
    (r r' : reader.t) (xs : list Z) :
  0 <= min_elems ->
  reader.get_range_vector sizeof_T len_bytes min_elems max_elems r = Ok (xs, r') ->
  min_elems <= Z.of_nat (length xs) <= max_elems
  /\ (reader.remaining_bytes r' + len_bytes + length xs * sizeof_T
      = reader.remaining_bytes r)%nat.
Proof.
  intros Hmin E. unfold reader.get_range_vector in E.
  apply bind_inv in E. destruct E as (n & r1 & E1 & E2).
  apply get_num_elems_inv in E1; [| exact Hmin].
  apply get_elem_inv in E2. destruct E1 as [Hn Hr1], E2 as (Hlen & -> & Hrem).
  rewrite Hlen, remaining_advance. split; [exact Hn | lia].
Qed.

Lemma load_be_1 (a : Z) : load_be [a] = a.
Proof. reflexivity. Qed.

Lemma elems_bytes_range (n : nat) (l : list Z) :
  Forall is_byte l -> Forall is_byte (reader.elems 1 n l).
Proof.
  revert l. induction n as [| n IH]; intros l Hl; [constructor |].
  cbn [reader.elems]. constructor.
  - destruct Hl as [| x l Hx Hl].
    + change (is_byte 0). unfold is_byte. lia.
    + change (is_byte (load_be (x :: take 0 l))).
      rewrite take_0, load_be_1. exact Hx.
  - apply IH. destruct Hl as [| x l Hx Hl]; [constructor | exact Hl].
Qed.

Lemma elems_u16bit_range (n : nat) (l : list Z) :
  Forall is_byte l -> Forall is_u16bit (reader.elems 2 n l).
Proof.
  revert l. induction n as [| n IH]; intros l Hl; [constructor |].
  cbn [reader.elems]. constructor.
  - destruct Hl as [| a l Ha Hl].
    + change (is_u16bit 0). unfold is_u16bit. lia.
    + destruct Hl as [| b l Hb Hl].
      * change (is_u16bit (load_be [a])).
        rewrite load_be_1. unfold is_byte in Ha. unfold is_u16bit. lia.
      * change (is_u16bit (load_be (a :: b :: take 0 l))).
        rewrite take_0, load_be_2. apply make_u16bit_range; assumption.
  - apply IH. apply Forall_drop. exact Hl.
Qed.

Lemma get_elem_value (sizeof_T num_elems : nat) (r r' : reader.t) (xs : list Z) :
  reader.get_elem sizeof_T num_elems r = Ok (xs, r') ->
  xs = reader.elems sizeof_T num_elems (drop (reader.offset r) (reader.buf r))
  /\ reader.buf r' = reader.buf r.
Proof.
  unfold reader.get_elem, reader.bind, reader.assert_at_least.
  destruct (_ <? _)%nat; [discriminate |].
  intros E. injection E as <- <-. split; reflexivity.
Qed.

Lemma get_range_vector_value (sizeof_T len_bytes : nat) (min_elems max_elems : Z)
    (r r' : reader.t) (xs : list Z) :
  reader.get_range_vector sizeof_T len_bytes min_elems max_elems r = Ok (xs, r') ->
  reader.buf r' = reader.buf r
  /\ exists n l, xs = reader.elems sizeof_T n l
                 /\ (Forall is_byte (reader.buf r) -> Forall is_byte l).
Proof.
  intros E. unfold reader.get_range_vector, reader.get_num_elems in E.
  apply bind_inv in E. destruct E as (n & r1 & E1 & E2).
  apply bind_inv in E1. destruct E1 as (byte_length & r0 & E0 & E1).
  assert (B0 : reader.buf r0 = reader.buf r).
  { destruct len_bytes as [| [| [| k]]]; cbn [reader.get_length_field] in E0;
      try discriminate.
    - unfold reader.get_byte, reader.bind, reader.assert_at_least in E0.
      destruct (_ <? _)%nat; [discriminate |]. injection E0 as _ <-. reflexivity.
    - unfold reader.get_u16bit, reader.bind, reader.assert_at_least in E0.
      destruct (_ <? _)%nat; [discriminate |]. injection E0 as _ <-. reflexivity. }
  destruct (negb _); [discriminate |].
  destruct (_ || _); [discriminate |].
  unfold reader.ret in E1. injection E1 as <- <-.
  apply get_elem_value in E2. destruct E2 as [-> B2].
  split; [congruence |].
  eexists _, _. split; [reflexivity |].
  intros Hb. apply Forall_drop. rewrite B0. exact Hb.
Qed.

Lemma get_u16bit_inv (r r' : reader.t) (v : Z) :
  reader.get_u16bit r = Ok (v, r') ->
  v = make_u16bit (nth (reader.offset r) (reader.buf r) 0)
                  (nth (reader.offset r + 1) (reader.buf r) 0)
  /\ r' = reader.advance 2 r
  /\ (2 <= reader.remaining_bytes r)%nat.
Proof.
  unfold reader.get_u16bit, reader.bind, reader.assert_at_least.
  destruct (Nat.ltb_spec (reader.remaining_bytes r) 2); [discriminate |].
  intros E. injection E as <- <-. auto.
Qed.

Lemma get_byte_inv (r r' : reader.t) (v : Z) :
  reader.get_byte r = Ok (v, r') ->
  v = nth (reader.offset r) (reader.buf r) 0
  /\ r' = reader.advance 1 r
  /\ (1 <= reader.remaining_bytes r)%nat.
Proof.
  unfold reader.get_byte, reader.bind, reader.assert_at_least.
  destruct (Nat.ltb_spec (reader.remaining_bytes r) 1); [discriminate |].
  intros E. injection E as <- <-. auto.
Qed.

Lemma get_u16bit_new (buf : list Z) :
  (2 <= length buf)%nat ->
  reader.get_u16bit (reader.new buf)
  = Ok (make_u16bit (nth 0 buf 0) (nth 1 buf 0), reader.advance 2 (reader.new buf)).
Proof.
  intros Hlen. unfold reader.get_u16bit, reader.bind, reader.assert_at_least,
    reader.remaining_bytes, reader.new. cbn [reader.buf reader.offset].
  replace (length buf - 0 <? 2)%nat with false by (symmetry; apply Nat.ltb_ge; lia).
  reflexivity.
Qed.

Section Server_Hello_Properties.

Variables SSL_V3 TLS_V10 TLS_V11 : Z.

(** The body that [Server_Hello.serialize] builds, field by field. *)
Lemma server_hello_layout (x : Server_Hello.t) :
  Server_Hello_valid x ->
  Server_Hello.serialize x
  = [u8 (Z.shiftr (Server_Hello.s_version x) 8); u8 (Server_Hello.s_version x)]
      ++ Server_Hello.s_random x
      ++ (Z.of_nat (length (Server_Hello.sess_id x)) :: Server_Hello.sess_id x)
      ++ [get_byte 2 0 (Server_Hello.suite x); get_byte 2 1 (Server_Hello.suite x);
          Server_Hello.comp_method x].
Proof.
  intros V. destruct V.
  unfold Server_Hello.serialize, append_tls_length_value.
  rewrite store_be_bytes by assumption.
  cbn [seq map app Nat.sub Nat.add].
  rewrite Nat.mul_1_l.
  replace (get_byte 8 7 (Z.of_nat (length (Server_Hello.sess_id x))))
    with (Z.of_nat (length (Server_Hello.sess_id x))).
  2: { rewrite get_byte_div. change (2 ^ _) with 1.
       rewrite Z.div_1_r. symmetry. apply Z.mod_small. lia. }
  rewrite <- !app_assoc. reflexivity.
Qed.

Lemma server_hello_roundtrip_rest (self x : Server_Hello.t) (rest : list Z) :
  Server_Hello_valid x ->
  Server_Hello.s_version x = SSL_V3 \/ Server_Hello.s_version x = TLS_V10
  \/ Server_Hello.s_version x = TLS_V11 ->
  Server_Hello.deserialize SSL_V3 TLS_V10 TLS_V11 self
    (Server_Hello.serialize x ++ rest)
  = Ok x.
Proof.
  intros V Hver. pose proof (server_hello_layout x V) as E.
  destruct V as [Vv Vrl Vr Vsl Vs Vsu Vc].
  set (buf := Server_Hello.serialize x ++ rest).
  assert (L : (38 <= length buf)%nat).
  { subst buf. rewrite E. repeat (rewrite ?length_app; cbn [length]). lia. }
  unfold Server_Hello.deserialize.
  replace (length buf <? 38)%nat with false by (symmetry; apply Nat.ltb_ge; lia).
  set (r0 := reader.new buf).
  set (tail3 := [get_byte 2 0 (Server_Hello.suite x);
                 get_byte 2 1 (Server_Hello.suite x);
                 Server_Hello.comp_method x] ++ rest).
  assert (P0 : positioned r0
                 (u8 (Z.shiftr (Server_Hello.s_version x) 8)
                  :: u8 (Server_Hello.s_version x)
                  :: Server_Hello.s_random x
                  ++ (Z.of_nat (length (Server_Hello.sess_id x))
                      :: Server_Hello.sess_id x ++ tail3))).
  { unfold positioned, r0, reader.new. cbn [reader.offset reader.buf].
    rewrite drop_0. subst buf tail3. rewrite E.
    rewrite <- !app_assoc. cbn [app]. rewrite <- ?app_assoc. reflexivity. }
  erewrite bind_Ok by (eapply get_u16bit_at; exact P0).
  rewrite make_u16bit_version by exact Vv.
  replace (negb (Server_Hello.s_version x =? SSL_V3)
           && negb (Server_Hello.s_version x =? TLS_V10)
           && negb (Server_Hello.s_version x =? TLS_V11)) with false.
  2: { destruct Hver as [-> | [-> | ->]]; rewrite Z.eqb_refl; cbn [negb andb];
         rewrite ?andb_false_r; reflexivity. }
  set (r1 := reader.advance 2 r0).
  assert (P1 : positioned r1
                 (Server_Hello.s_random x
                  ++ (Z.of_nat (length (Server_Hello.sess_id x))
                      :: Server_Hello.sess_id x ++ tail3))).
  { apply (positioned_advance r0 [u8 (Z.shiftr (Server_Hello.s_version x) 8);
                                  u8 (Server_Hello.s_version x)]);
      [exact P0 | reflexivity]. }
  unfold reader.get_fixed.
  erewrite bind_Ok by (eapply get_elem_at; [exact P1 | rewrite Vrl; reflexivity]).
  match goal with
  | |- context [reader.elems 1 32 (Server_Hello.s_random x ++ ?tl)] =>
      pose proof (elems_bytes (Server_Hello.s_random x) tl) as Er
  end.
  rewrite Vrl in Er. rewrite Er. clear Er.
  set (r2 := reader.advance (32 * 1) r1).
  assert (P2 : positioned r2
                 (Z.of_nat (length (Server_Hello.sess_id x))
                  :: Server_Hello.sess_id x ++ tail3)).
  { eapply positioned_advance; [exact P1 | rewrite Vrl; reflexivity]. }
  erewrite bind_Ok by (eapply get_range_bytes_1; [exact P2 | lia]).
  set (r3 := reader.advance (length (Server_Hello.sess_id x)) (reader.advance 1 r2)).
  assert (P3 : positioned r3 tail3).
  { eapply positioned_advance; [| reflexivity].
    apply (positioned_advance r2 [Z.of_nat (length (Server_Hello.sess_id x))]);
      [exact P2 | reflexivity]. }
  unfold tail3 in P3. cbn [app] in P3.
  erewrite bind_Ok by (eapply get_u16bit_at; exact P3).
  rewrite make_u16bit_get_byte by exact Vsu.
  assert (P4 : positioned (reader.advance 2 r3)
                          (Server_Hello.comp_method x :: rest)).
  { apply (positioned_advance r3 [get_byte 2 0 (Server_Hello.suite x);
                                  get_byte 2 1 (Server_Hello.suite x)]);
      [exact P3 | reflexivity]. }
  erewrite bind_Ok by (eapply get_byte_at; exact P4).
  unfold reader.ret. destruct x. reflexivity.
Qed.

Lemma server_hello_roundtrip (self x : Server_Hello.t) :
  Server_Hello_valid x ->
  Server_Hello.s_version x = SSL_V3 \/ Server_Hello.s_version x = TLS_V10
  \/ Server_Hello.s_version x = TLS_V11 ->
  Server_Hello.deserialize SSL_V3 TLS_V10 TLS_V11 self (Server_Hello.serialize x)
  = Ok x.
Proof.
  intros V Hver. rewrite <- (app_nil_r (Server_Hello.serialize x)).
  apply server_hello_roundtrip_rest; assumption.
Qed.

(** X1.  Decoding the body that [Server_Hello::serialize] builds for a
    Server Hello with one of the three supported versions gives the same
    Server Hello back. *)
Theorem server_hello_deserialize_serialize (self x : Server_Hello.t) :
  Server_Hello_valid x ->
  Server_Hello.s_version x = SSL_V3 \/ Server_Hello.s_version x = TLS_V10
  \/ Server_Hello.s_version x = TLS_V11 ->
  Server_Hello.deserialize SSL_V3 TLS_V10 TLS_V11 self (Server_Hello.serialize x)
  = Ok x.
Proof. apply server_hello_roundtrip. Qed.

(** X18.  [Server_Hello::deserialize] does not look at what follows the
    compression method: a serialized Server Hello followed by any bytes
    decodes to the same Server Hello as without them. *)
Theorem server_hello_ignores_trailing_bytes (self x : Server_Hello.t)
    (rest : list Z) :
  Server_Hello_valid x ->
  Server_Hello.s_version x = SSL_V3 \/ Server_Hello.s_version x = TLS_V10
  \/ Server_Hello.s_version x = TLS_V11 ->
  Server_Hello.deserialize SSL_V3 TLS_V10 TLS_V11 self
    (Server_Hello.serialize x ++ rest)
  = Ok x.
Proof. apply server_hello_roundtrip_rest. Qed.

(** X2.  [Server_Hello::deserialize] tests the size first and the version
    second: a body of fewer than 38 bytes is a decoding error whatever it
    holds, and a body of at least 38 bytes whose first two bytes are none
    of the three supported versions is refused with the protocol-version
    alert, whatever follows them. *)
Theorem server_hello_rejects_unsupported_version (self : Server_Hello.t)
    (buf : list Z) :
  ((length buf < 38)%nat ->
   Server_Hello.deserialize SSL_V3 TLS_V10 TLS_V11 self buf
   = Throw (Decoding_Error "Server_Hello: Packet corrupted"))
  /\ ((38 <= length buf)%nat ->
      let version := make_u16bit (nth 0 buf 0) (nth 1 buf 0) in
      version <> SSL_V3 -> version <> TLS_V10 -> version <> TLS_V11 ->
      Server_Hello.deserialize SSL_V3 TLS_V10 TLS_V11 self buf
      = Throw (TLS_Exception PROTOCOL_VERSION
                             "Server_Hello: Unsupported server version")).
Proof.
  split.
  - intros Hlen. unfold Server_Hello.deserialize.
    replace (length buf <? 38)%nat with true by (symmetry; apply Nat.ltb_lt; lia).
    reflexivity.
  - intros Hlen version H3 H10 H11. unfold Server_Hello.deserialize.
    replace (length buf <? 38)%nat with false by (symmetry; apply Nat.ltb_ge; lia).
    erewrite bind_Ok by (apply get_u16bit_new; lia).
    fold version.
    replace (version =? SSL_V3) with false by (symmetry; apply Z.eqb_neq; exact H3).
    replace (version =? TLS_V10) with false by (symmetry; apply Z.eqb_neq; exact H10).
    replace (version =? TLS_V11) with false by (symmetry; apply Z.eqb_neq; exact H11).
    reflexivity.
Qed.

(** X3.  Whatever bytes it is given, a Server Hello that
    [Server_Hello::deserialize] returns has one of the three supported
    versions, a random of exactly 32 bytes and a session id of at most 32
    bytes, all its members are in the range of their types, and the body
    had at least 38 bytes. *)
Theorem server_hello_decoded_is_valid (self sh : Server_Hello.t) (buf : list Z) :
  Forall is_byte buf ->
  Server_Hello.deserialize SSL_V3 TLS_V10 TLS_V11 self buf = Ok sh ->
  Server_Hello_valid sh
  /\ (Server_Hello.s_version sh = SSL_V3 \/ Server_Hello.s_version sh = TLS_V10
      \/ Server_Hello.s_version sh = TLS_V11)
  /\ (38 <= length buf)%nat.
Proof.
  intros Hbuf. unfold Server_Hello.deserialize.
  destruct (Nat.ltb_spec (length buf) 38) as [| Hlen]; [discriminate |].
  match goal with
  | |- match ?m ?r with _ => _ end = _ -> _ =>
      destruct (m r) as [[sh' r'] | e |] eqn:E; [| discriminate | discriminate]
  end.
  intros Esh. injection Esh as ->.
  apply bind_inv in E. destruct E as (v & r1 & E1 & E).
  apply get_u16bit_inv in E1. destruct E1 as (Hv & -> & _).
  destruct (Z.eqb_spec v SSL_V3) as [V3 | N3];
    [| destruct (Z.eqb_spec v TLS_V10) as [V10 | N10];
       [| destruct (Z.eqb_spec v TLS_V11) as [V11 | N11]; [| discriminate]]];
    cbn [negb andb] in E.
  all: apply bind_inv in E; destruct E as (rnd & r2 & E2 & E).
  all: apply bind_inv in E; destruct E as (sid & r3 & E3 & E).
  all: apply bind_inv in E; destruct E as (su & r4 & E4 & E).
  all: apply bind_inv in E; destruct E as (cm & r5 & E5 & E).
  all: unfold reader.ret in E; injection E as <- _.
  all: unfold reader.get_fixed in E2.
  all: pose proof (get_elem_inv _ _ _ _ _ E2) as (Hrl & _ & _).
  all: pose proof (get_elem_value _ _ _ _ _ E2) as (Hrv & B2).
  all: pose proof (get_range_vector_inv 1 1 0 32 _ _ _ ltac:(lia) E3) as (Hsl & _).
  all: pose proof (get_range_vector_value 1 1 0 32 _ _ _ E3)
         as (B3 & n & l & Hsv & Hl).
  all: apply get_u16bit_inv in E4; destruct E4 as (Hsu & -> & _).
  all: apply get_byte_inv in E5; destruct E5 as (Hcm & _ & _).
  all: assert (B : forall i l', reader.buf l' = buf -> is_byte (nth i (reader.buf l') 0))
         by (intros i l' ->; apply nth_is_byte; exact Hbuf).
  all: (split; [| split; [auto | exact Hlen]]).
  all: split; cbn [Server_Hello.s_version Server_Hello.s_random
                   Server_Hello.sess_id Server_Hello.suite
                   Server_Hello.comp_method].
  all: try (rewrite Hv; apply make_u16bit_range; apply nth_is_byte; exact Hbuf).
  all: try exact Hrl.
  all: try (rewrite Hrv; apply elems_bytes_range, Forall_drop; exact Hbuf).
  all: try lia.
  all: try (rewrite Hsv; apply elems_bytes_range, Hl; rewrite B2; exact Hbuf).
  all: try (rewrite Hsu; apply make_u16bit_range; apply nth_is_byte;
            cbn [reader.buf reader.advance]; rewrite B3, B2; exact Hbuf).
  all: rewrite Hcm; apply nth_is_byte; cbn [reader.buf reader.advance];
       rewrite B3, B2; exact Hbuf.
Qed.

End Server_Hello_Properties.

(** ** More on the modern Client Hello *)

Section Client_Hello_Decoding.

Variables TLSEXT_SERVER_NAME_INDICATION TLSEXT_SRP_IDENTIFIER : Z.

Lemma same_fixed_fields_refl (a : Client_Hello.t) : same_fixed_fields a a.
Proof. repeat split. Qed.

Lemma same_fixed_fields_trans (a b c : Client_Hello.t) :
  same_fixed_fields a b -> same_fixed_fields b c -> same_fixed_fields a c.
Proof.
  unfold same_fixed_fields. intros (?&?&?&?&?) (?&?&?&?&?).
  repeat split; congruence.
Qed.

(** The loop over the extensions changes the host name and the SRP
    identity only. *)
Lemma extension_loop_fixed_fields (fuel : nat) :
  forall (self self' : Client_Hello.t) (r r' : reader.t),
    Client_Hello.extension_loop TLSEXT_SERVER_NAME_INDICATION
      TLSEXT_SRP_IDENTIFIER fuel self r = Ok (self', r') ->
    same_fixed_fields self' self.
Proof.
  induction fuel as [| fuel IH]; intros self self' r r';
    cbn [Client_Hello.extension_loop];
    destruct (negb (reader.has_remaining r)).
  - intros E. injection E as <- _. apply same_fixed_fields_refl.
  - discriminate.
  - intros E. injection E as <- _. apply same_fixed_fields_refl.
  - intros E.
    apply bind_inv in E. destruct E as (code & r1 & _ & E).
    apply bind_inv in E. destruct E as (size & r2 & _ & E).
    destruct (code =? TLSEXT_SERVER_NAME_INDICATION).
    + apply bind_inv in E. destruct E as (nb & r3 & _ & E).
      apply bind_inv in E. destruct E as (name & r4 & _ & E).
      apply IH in E. eapply same_fixed_fields_trans; [exact E |].
      repeat split.
    + destruct (code =? TLSEXT_SRP_IDENTIFIER).
      * apply bind_inv in E. destruct E as (name & r3 & _ & E).
        apply IH in E. eapply same_fixed_fields_trans; [exact E |].
        repeat split.
      * apply bind_inv in E. destruct E as (u & r3 & _ & E).
        apply IH in E. exact E.
Qed.

(** X4.  Whatever bytes it is given, a Client Hello that
    [Client_Hello::deserialize] returns has a random of exactly 32 bytes,
    a session id of at most 32 bytes, between 1 and 32767 suites and
    between 1 and 255 compression methods, all in the range of their
    types, and the body had at least 41 bytes. *)
Theorem client_hello_decoded_is_valid (self ch : Client_Hello.t) (buf : list Z) :
  Forall is_byte buf ->
  Client_Hello.deserialize TLSEXT_SERVER_NAME_INDICATION TLSEXT_SRP_IDENTIFIER
    self buf = Ok ch ->
  Client_Hello_valid ch /\ (41 <= length buf)%nat.
Proof.
  intros Hbuf. unfold Client_Hello.deserialize.
  destruct (length buf =? 0)%nat; [discriminate |].
  destruct (Nat.ltb_spec (length buf) 41) as [| Hlen]; [discriminate |].
  match goal with
  | |- match ?m ?r with _ => _ end = _ -> _ =>
      destruct (m r) as [[ch' r'] | e |] eqn:E; [| discriminate | discriminate]
  end.
  intros Ech. injection Ech as ->.
  apply bind_inv in E. destruct E as (v & r1 & E1 & E).
  apply bind_inv in E. destruct E as (rnd & r2 & E2 & E).
  apply bind_inv in E. destruct E as (sid & r3 & E3 & E).
  apply bind_inv in E. destruct E as (su & r4 & E4 & E).
  apply bind_inv in E. destruct E as (cm & r5 & E5 & E).
  assert (F : same_fixed_fields ch
                (Client_Hello.mk v rnd sid su cm
                   (Client_Hello.requested_hostname self)
                   (Client_Hello.requested_srp_id self))).
  { unfold Client_Hello.extensions in E.
    destruct (reader.has_remaining r5).
    - apply bind_inv in E. destruct E as (sz & r6 & _ & E).
      destruct (negb _); [discriminate |].
      apply extension_loop_fixed_fields in E. exact E.
    - injection E as <- _. apply same_fixed_fields_refl. }
  destruct F as (Fv & Fr & Fs & Fu & Fc).
  cbn [Client_Hello.c_version Client_Hello.c_random Client_Hello.sess_id
       Client_Hello.suites Client_Hello.comp_methods] in *.
  apply get_u16bit_inv in E1. destruct E1 as (Hv & -> & _).
  unfold reader.get_fixed in E2.
  pose proof (get_elem_inv _ _ _ _ _ E2) as (Hrl & _ & _).
  pose proof (get_elem_value _ _ _ _ _ E2) as (Hrv & B2).
  pose proof (get_range_vector_inv 1 1 0 32 _ _ _ ltac:(lia) E3) as (Hsl & _).
  pose proof (get_range_vector_value 1 1 0 32 _ _ _ E3)
    as (B3 & n3 & l3 & Hsv & Hl3).
  pose proof (get_range_vector_inv 2 2 1 32767 _ _ _ ltac:(lia) E4) as (Hul & _).
  pose proof (get_range_vector_value 2 2 1 32767 _ _ _ E4)
    as (B4 & n4 & l4 & Huv & Hl4).
  pose proof (get_range_vector_inv 1 1 1 255 _ _ _ ltac:(lia) E5) as (Hcl & _).
  pose proof (get_range_vector_value 1 1 1 255 _ _ _ E5)
    as (B5 & n5 & l5 & Hcv & Hl5).
  assert (Hb2 : Forall is_byte (reader.buf r2)) by (rewrite B2; exact Hbuf).
  assert (Hb3 : Forall is_byte (reader.buf r3)) by (rewrite B3; exact Hb2).
  assert (Hb4 : Forall is_byte (reader.buf r4)) by (rewrite B4; exact Hb3).
  split; [| exact Hlen].
  split.
  - rewrite Fv, Hv. apply make_u16bit_range; apply nth_is_byte; exact Hbuf.
  - rewrite Fr. exact Hrl.
  - rewrite Fr, Hrv. apply elems_bytes_range, Forall_drop. exact Hbuf.
  - rewrite Fs. lia.
  - rewrite Fs, Hsv. apply elems_bytes_range, Hl3. exact Hb2.
  - rewrite Fu. lia.
  - rewrite Fu, Huv. apply elems_u16bit_range, Hl4. exact Hb3.
  - rewrite Fc. lia.
  - rewrite Fc, Hcv. apply elems_bytes_range, Hl5. exact Hb4.
Qed.

(** What [deserialize] does with the bytes [rest] after a serialized
    hello, spelled out for a non-empty [rest]. *)
Lemma deserialize_extensions (self x : Client_Hello.t) (rest : list Z) :
  Client_Hello_valid x ->
  exists r : reader.t,
    positioned r rest
    /\ Client_Hello.deserialize TLSEXT_SERVER_NAME_INDICATION
         TLSEXT_SRP_IDENTIFIER self (Client_Hello.serialize x ++ rest)
       = match Client_Hello.extensions TLSEXT_SERVER_NAME_INDICATION
                 TLSEXT_SRP_IDENTIFIER
                 (Client_Hello.mk (Client_Hello.c_version x)
                    (Client_Hello.c_random x) (Client_Hello.sess_id x)
                    (Client_Hello.suites x) (Client_Hello.comp_methods x)
                    (Client_Hello.requested_hostname self)
                    (Client_Hello.requested_srp_id self)) r with
         | Ok (self', _) => Ok self'
         | Throw e => Throw e
         | Out_of_fuel => Out_of_fuel
         end.
Proof. apply deserialize_fields. Qed.

Lemma bind_Throw {A B} (m : reader.M A) (k : A -> reader.M B) (r : reader.t)
    (e : exn) :
  m r = Throw e -> reader.bind m k r = Throw e.
Proof. intros E. unfold reader.bind. rewrite E. reflexivity. Qed.

Lemma get_u16bit_short (r : reader.t) (l : list Z) :
  positioned r l -> (length l < 2)%nat ->
  reader.get_u16bit r = Throw reader.corrupt.
Proof.
  intros P Hl. unfold reader.get_u16bit. apply bind_Throw.
  apply (assert_at_least_short r l 2 P Hl).
Qed.

(** X5.  Bytes after the compression methods have to be an extension block
    of exactly the size its first two bytes declare: a single byte is
    refused by the reader, and a declared size that differs from the
    number of bytes that follow is the decoding error "Bad extension
    size". *)
Theorem client_hello_rejects_bad_extension_size (self x : Client_Hello.t) :
  Client_Hello_valid x ->
  (forall b : Z,
      Client_Hello.deserialize TLSEXT_SERVER_NAME_INDICATION
        TLSEXT_SRP_IDENTIFIER self (Client_Hello.serialize x ++ [b])
      = Throw reader.corrupt)
  /\ (forall (declared : Z) (rest : list Z),
        is_u16bit declared ->
        declared <> Z.of_nat (length rest) ->
        Client_Hello.deserialize TLSEXT_SERVER_NAME_INDICATION
          TLSEXT_SRP_IDENTIFIER self
          (Client_Hello.serialize x ++ be16 declared ++ rest)
        = Throw (Decoding_Error "Client_Hello: Bad extension size")).
Proof.
  intros V. split.
  - intros b.
    destruct (deserialize_extensions self x [b] V) as (r & P & E).
    rewrite E. unfold Client_Hello.extensions.
    rewrite (has_remaining_at r _ P). cbn [length Nat.ltb Nat.leb].
    erewrite bind_Throw by (apply (get_u16bit_short r [b] P); simpl; lia).
    reflexivity.
  - intros declared rest Hd Hne.
    destruct (deserialize_extensions self x (be16 declared ++ rest) V)
      as (r & P & E).
    rewrite E. unfold Client_Hello.extensions. unfold be16 in P. cbn [app] in P.
    rewrite (has_remaining_at r _ P). cbn [length Nat.ltb Nat.leb].
    erewrite bind_Ok by (eapply get_u16bit_at; exact P).
    rewrite make_u16bit_be16 by exact Hd.
    assert (P1 : positioned (reader.advance 2 r) rest).
    { apply (positioned_advance r [declared / 256; declared mod 256]);
        [exact P | reflexivity]. }
    rewrite (positioned_remaining _ _ P1).
    replace (Z.of_nat (length rest) =? declared) with false
      by (symmetry; apply Z.eqb_neq; lia).
    reflexivity.
Qed.

(** The loop over a block of extensions none of which is the server name
    or the SRP extension skips them all. *)
Lemma extension_loop_unknown (exts : list (Z * list Z)) :
  Forall (fun e => is_u16bit (fst e)
                   /\ fst e <> TLSEXT_SERVER_NAME_INDICATION
                   /\ fst e <> TLSEXT_SRP_IDENTIFIER
                   /\ Z.of_nat (length (snd e)) <= 65535) exts ->
  forall (fuel : nat) (self : Client_Hello.t) (r : reader.t),
    positioned r (encode_extensions exts) ->
    (length (encode_extensions exts) < fuel)%nat ->
    exists r' : reader.t,
      positioned r' []
      /\ Client_Hello.extension_loop TLSEXT_SERVER_NAME_INDICATION
           TLSEXT_SRP_IDENTIFIER fuel self r = Ok (self, r').
Proof.
  induction 1 as [| [code payload] exts (Hc & Hsni & Hsrp & Hlen) Hexts IH];
    intros fuel self r P Hfuel.
  - exists r. split; [exact P |]. apply extension_loop_end. exact P.
  - cbn [fst snd] in *.
    assert (El : encode_extensions ((code, payload) :: exts)
                 = code / 256 :: code mod 256
                   :: Z.of_nat (length payload) / 256
                   :: Z.of_nat (length payload) mod 256
                   :: payload ++ encode_extensions exts).
    { unfold encode_extensions. cbn [map concat fst snd].
      unfold extension, be16. cbn [app]. rewrite <- ?app_assoc. reflexivity. }
    rewrite El in P, Hfuel. cbn [length] in Hfuel. rewrite length_app in Hfuel.
    destruct fuel as [| fuel]; [lia |].
    cbn [Client_Hello.extension_loop].
    rewrite (has_remaining_at r _ P). cbn [length Nat.ltb Nat.leb negb].
    erewrite bind_Ok by (eapply get_u16bit_at; exact P).
    rewrite make_u16bit_be16 by exact Hc.
    assert (P2 : positioned (reader.advance 2 r)
                   (Z.of_nat (length payload) / 256
                    :: Z.of_nat (length payload) mod 256
                    :: payload ++ encode_extensions exts)).
    { apply (positioned_advance r [code / 256; code mod 256]);
        [exact P | reflexivity]. }
    erewrite bind_Ok by (eapply get_u16bit_at; exact P2).
    rewrite make_u16bit_be16 by (unfold is_u16bit; lia).
    replace (code =? TLSEXT_SERVER_NAME_INDICATION) with false
      by (symmetry; apply Z.eqb_neq; exact Hsni).
    replace (code =? TLSEXT_SRP_IDENTIFIER) with false
      by (symmetry; apply Z.eqb_neq; exact Hsrp).
    rewrite Nat2Z.id.
    assert (P3 : positioned (reader.advance 2 (reader.advance 2 r))
                   (payload ++ encode_extensions exts)).
    { apply (positioned_advance _ [Z.of_nat (length payload) / 256;
                                   Z.of_nat (length payload) mod 256]);
        [exact P2 | reflexivity]. }
    erewrite bind_Ok by (eapply discard_next_at; [exact P3 | reflexivity]).
    apply IH.
    + eapply positioned_advance; [exact P3 | reflexivity].
    + lia.
Qed.

(** X6.  Extensions that are neither the server name nor the SRP extension
    are skipped by their declared size: a hello followed by any block of
    such extensions decodes to the fields of the hello, with the host name
    and the SRP identity left as they were. *)
Theorem client_hello_skips_unknown_extensions (self x : Client_Hello.t)
    (exts : list (Z * list Z)) :
  Client_Hello_valid x ->
  Forall (fun e => is_u16bit (fst e)
                   /\ fst e <> TLSEXT_SERVER_NAME_INDICATION
                   /\ fst e <> TLSEXT_SRP_IDENTIFIER
                   /\ Z.of_nat (length (snd e)) <= 65535) exts ->
  Z.of_nat (length (encode_extensions exts)) <= 65535 ->
  Client_Hello.deserialize TLSEXT_SERVER_NAME_INDICATION TLSEXT_SRP_IDENTIFIER
    self
    (Client_Hello.serialize x
       ++ be16 (Z.of_nat (length (encode_extensions exts)))
       ++ encode_extensions exts)
  = Ok (Client_Hello.mk (Client_Hello.c_version x) (Client_Hello.c_random x)
          (Client_Hello.sess_id x) (Client_Hello.suites x)
          (Client_Hello.comp_methods x)
          (Client_Hello.requested_hostname self)
          (Client_Hello.requested_srp_id self)).
Proof.
  intros V Hexts Hlen.
  destruct (deserialize_extensions self x
              (be16 (Z.of_nat (length (encode_extensions exts)))
                 ++ encode_extensions exts) V) as (r & P & E).
  rewrite E. clear E. unfold Client_Hello.extensions.
  unfold be16 in P. cbn [app] in P.
  rewrite (has_remaining_at r _ P). cbn [length Nat.ltb Nat.leb].
  erewrite bind_Ok by (eapply get_u16bit_at; exact P).
  rewrite make_u16bit_be16 by (unfold is_u16bit; lia).
  assert (P1 : positioned (reader.advance 2 r) (encode_extensions exts)).
  { apply (positioned_advance r
             [Z.of_nat (length (encode_extensions exts)) / 256;
              Z.of_nat (length (encode_extensions exts)) mod 256]);
      [exact P | reflexivity]. }
  rewrite (positioned_remaining _ _ P1), Z.eqb_refl. cbn [negb].
  destruct (extension_loop_unknown exts Hexts
              (S (length (encode_extensions exts)))
              (Client_Hello.mk (Client_Hello.c_version x)
                 (Client_Hello.c_random x) (Client_Hello.sess_id x)
                 (Client_Hello.suites x) (Client_Hello.comp_methods x)
                 (Client_Hello.requested_hostname self)
                 (Client_Hello.requested_srp_id self))
              (reader.advance 2 r) P1 ltac:(lia)) as (r' & _ & E').
  rewrite E'. reflexivity.
Qed.

(** X7.  A hello whose only extension is the SRP identifier extension
    decodes with the identity, a string of 1 to 255 bytes behind a
    one-byte length, as the requested SRP identity; the declared size of
    the extension is not looked at, and the host name is left as it
    was. *)
Theorem client_hello_records_srp_identity (self x : Client_Hello.t)
    (identity : list Z) (ext_size : Z) :
  Client_Hello_valid x ->
  is_u16bit TLSEXT_SRP_IDENTIFIER ->
  TLSEXT_SRP_IDENTIFIER <> TLSEXT_SERVER_NAME_INDICATION ->
  (1 <= length identity <= 255)%nat ->
  let n := Z.of_nat (length identity) in
  Client_Hello.deserialize TLSEXT_SERVER_NAME_INDICATION TLSEXT_SRP_IDENTIFIER
    self
    (Client_Hello.serialize x
       ++ be16 (5 + n)
       ++ extension TLSEXT_SRP_IDENTIFIER ext_size (n :: identity))
  = Ok (Client_Hello.mk (Client_Hello.c_version x) (Client_Hello.c_random x)
          (Client_Hello.sess_id x) (Client_Hello.suites x)
          (Client_Hello.comp_methods x)
          (Client_Hello.requested_hostname self) identity).
Proof.
  intros V Hsrp Hne Hlen n.
  destruct (deserialize_extensions self x
              (be16 (5 + n)
                 ++ extension TLSEXT_SRP_IDENTIFIER ext_size (n :: identity)) V)
    as (r & P & E).
  rewrite E. clear E. unfold Client_Hello.extensions.
  unfold extension, be16 in P. cbn [app] in P.
  rewrite (has_remaining_at r _ P). cbn [length Nat.ltb Nat.leb].
  erewrite bind_Ok by (eapply get_u16bit_at; exact P).
  rewrite make_u16bit_be16 by (unfold is_u16bit; lia).
  set (r1 := reader.advance 2 r).
  assert (P1 : positioned r1
                 (TLSEXT_SRP_IDENTIFIER / 256 :: TLSEXT_SRP_IDENTIFIER mod 256
                  :: ext_size / 256 :: ext_size mod 256 :: n :: identity)).
  { apply (positioned_advance r [(5 + n) / 256; (5 + n) mod 256]);
      [exact P | reflexivity]. }
  rewrite (positioned_remaining _ _ P1). cbn [length].
  replace (Z.of_nat (S (S (S (S (S (length identity)))))) =? 5 + n) with true
    by (symmetry; apply Z.eqb_eq; lia).
  cbn [negb].
  set (fuel := S (S (S (S (S (length identity)))))).
  cbn [Client_Hello.extension_loop].
  rewrite (has_remaining_at r1 _ P1). cbn [length Nat.ltb Nat.leb negb].
  erewrite bind_Ok by (eapply get_u16bit_at; exact P1).
  rewrite make_u16bit_be16 by exact Hsrp.
  assert (P2 : positioned (reader.advance 2 r1)
                 (ext_size / 256 :: ext_size mod 256 :: n :: identity)).
  { apply (positioned_advance r1 [TLSEXT_SRP_IDENTIFIER / 256;
                                  TLSEXT_SRP_IDENTIFIER mod 256]);
      [exact P1 | reflexivity]. }
  erewrite bind_Ok by (eapply get_u16bit_at; exact P2).
  replace (TLSEXT_SRP_IDENTIFIER =? TLSEXT_SERVER_NAME_INDICATION) with false
    by (symmetry; apply Z.eqb_neq; exact Hne).
  rewrite Z.eqb_refl.
  assert (P3 : positioned (reader.advance 2 (reader.advance 2 r1))
                 (Z.of_nat (length identity) :: identity ++ [])).
  { rewrite app_nil_r.
    apply (positioned_advance _ [ext_size / 256; ext_size mod 256]);
      [exact P2 | reflexivity]. }
  change (reader.get_range_vector 1 1 1 255) with (reader.get_range 1 1 1 255).
  erewrite bind_Ok by (eapply get_range_bytes_1; [exact P3 | lia]).
  rewrite extension_loop_end.
  - reflexivity.
  - eapply positioned_advance; [| reflexivity].
    apply (positioned_advance _ [Z.of_nat (length identity)]);
      [exact P3 | reflexivity].
Qed.

Lemma discard_next_inv (n : nat) (r r' : reader.t) (u : unit) :
  reader.discard_next n r = Ok (u, r') ->
  (reader.remaining_bytes r' + n = reader.remaining_bytes r)%nat.
Proof.
  unfold reader.discard_next, reader.bind, reader.assert_at_least.
  destruct (Nat.ltb_spec (reader.remaining_bytes r) n); [discriminate |].
  intros E. injection E as _ <-. rewrite remaining_advance. lia.
Qed.

(** What one turn of the name loop that returned has read, and the counter
    it leaves, modulo 2^16. *)
Lemma sni_name_step_inv (name_bytes : Z) (hostname : list Z) (r r' : reader.t)
    (st : Z * list Z) :
  1 <= name_bytes < 65536 ->
  Client_Hello.sni_name_step name_bytes hostname r = Ok (st, r') ->
  exists consumed : Z,
    1 <= consumed
    /\ Z.of_nat (reader.remaining_bytes r)
       = Z.of_nat (reader.remaining_bytes r') + consumed
    /\ fst st = (name_bytes - consumed) mod 65536.
Proof.
  intros Hnb E. unfold Client_Hello.sni_name_step in E.
  apply bind_inv in E. destruct E as (name_type & r1 & E1 & E).
  apply get_byte_inv in E1. destruct E1 as (_ & -> & H1).
  assert (U : u16 (name_bytes - 1) = name_bytes - 1).
  { unfold u16. apply Z.mod_small. lia. }
  rewrite U in E.
  destruct (name_type =? 0).
  - apply bind_inv in E. destruct E as (name & r2 & E2 & E).
    apply get_range_vector_inv in E2; [| lia]. destruct E2 as (Hlen & Hrem).
    unfold reader.ret in E. injection E as <- <-.
    rewrite remaining_advance in Hrem.
    exists (1 + 2 + Z.of_nat (length name)). cbn [fst].
    split; [lia |]. split; [lia |].
    unfold u16. change (2 ^ 16) with 65536. f_equal. lia.
  - apply bind_inv in E. destruct E as (u & r2 & E2 & E).
    apply discard_next_inv in E2.
    unfold reader.ret in E. injection E as <- <-.
    rewrite remaining_advance in E2.
    exists name_bytes. cbn [fst].
    split; [lia |]. split; [lia |].
    rewrite Z.sub_diag. reflexivity.
Qed.

(** X8.  When the loop over the names of a server name extension returns,
    it has read exactly the bytes the name list declared: a counter that
    wrapped never comes back to 0 within a block of at most 65535 bytes,
    so a decode that succeeds has not read past the declared list. *)
Theorem sni_name_loop_reads_declared_bytes (fuel : nat) :
  forall (name_bytes : Z) (hostname hostname' : list Z) (r r' : reader.t),
    0 <= name_bytes < 65536 ->
    Z.of_nat (reader.remaining_bytes r) <= 65535 ->
    Client_Hello.sni_name_loop fuel name_bytes hostname r = Ok (hostname', r') ->
    Z.of_nat (reader.remaining_bytes r)
    = Z.of_nat (reader.remaining_bytes r') + name_bytes.
Proof.
  induction fuel as [| fuel IH]; intros name_bytes hostname hostname' r r' Hnb Hrem;
    cbn [Client_Hello.sni_name_loop];
    destruct (Z.eqb_spec name_bytes 0) as [-> | Hnz].
  - intros E. injection E as _ <-. lia.
  - discriminate.
  - intros E. injection E as _ <-. lia.
  - intros E. apply bind_inv in E. destruct E as (st & r1 & E1 & E).
    apply sni_name_step_inv in E1; [| lia].
    destruct E1 as (consumed & Hc & Hr1 & Hst).
    apply IH in E.
    + rewrite Hst in E.
      assert (M : 0 <= (name_bytes - consumed) mod 65536 < 65536)
        by (apply Z.mod_pos_bound; lia).
      destruct (Z.le_gt_cases consumed name_bytes) as [Hle | Hgt].
      * rewrite Z.mod_small in E by lia. lia.
      * exfalso.
        assert (W : (name_bytes - consumed) mod 65536
                    = name_bytes - consumed + 65536).
        { symmetry. apply Z.mod_unique with (-1); lia. }
        lia.
    + rewrite Hst. apply Z.mod_pos_bound. lia.
    + lia.
Qed.

End Client_Hello_Decoding.

(** ** More on the SSLv2 Client Hello, the suites and the transcript *)

(** X10.  [deserialize_sslv2] accepts nothing but what is well-formed: on a
    buffer of bytes that breaks any one of its conditions it throws the
    decoding error "SSLv2 hello corrupted". *)
Theorem deserialize_sslv2_rejects_ill_formed (self : Client_Hello.t)
    (buf : list Z) :
  Forall is_byte buf ->
  ~ sslv2_well_formed buf ->
  Client_Hello.deserialize_sslv2 self buf
  = Throw (Decoding_Error "Client_Hello: SSLv2 hello corrupted").
Proof.
  intros Hbuf Hill.
  assert (Hb : forall i, is_byte (nth i buf 0))
    by (intro; apply nth_is_byte; exact Hbuf).
  unfold Client_Hello.deserialize_sslv2.
  rewrite !make_u16bit_bytes by apply Hb.
  destruct (length buf <? 12)%nat; [reflexivity |].
  destruct (Z.eqb_spec (nth 0 buf 0) 1) as [H0 |]; [| reflexivity].
  cbn [negb orb].
  destruct (Z.eqb_spec (Z.of_nat (length buf))
              (9 + (256 * nth 5 buf 0 + nth 6 buf 0)
                 + (256 * nth 3 buf 0 + nth 4 buf 0)
                 + (256 * nth 7 buf 0 + nth 8 buf 0))) as [Hsize |];
    [| reflexivity].
  cbn [negb].
  destruct (Z.eqb_spec (256 * nth 5 buf 0 + nth 6 buf 0) 0) as [Hsid |];
    [| reflexivity].
  destruct (Z.eqb_spec ((256 * nth 3 buf 0 + nth 4 buf 0) mod 3) 0) as [Hcs |];
    [| reflexivity].
  destruct (Z.ltb_spec (256 * nth 7 buf 0 + nth 8 buf 0) 16) as [| Hlo];
    [reflexivity |].
  destruct (Z.ltb_spec 32 (256 * nth 7 buf 0 + nth 8 buf 0)) as [| Hhi];
    [reflexivity |].
  exfalso. apply Hill. unfold sslv2_well_formed. repeat split; assumption.
Qed.

(** X11.  [offered_suite] answers true exactly for the suites that are in
    the list of the hello. *)
Theorem offered_suite_iff_in (self : Client_Hello.t) (ciphersuite : Z) :
  Client_Hello.offered_suite self ciphersuite = true
  <-> In ciphersuite (Client_Hello.suites self).
Proof.
  unfold Client_Hello.offered_suite.
  induction (Client_Hello.suites self) as [| s rest IH];
    cbn [Client_Hello.offered_suite_from In].
  - split; [discriminate | contradiction].
  - destruct (Z.eqb_spec s ciphersuite) as [-> | Hne].
    + split; [intros _; left; reflexivity | reflexivity].
    + rewrite IH. split; [intros H; right; exact H |].
      intros [H | H]; [contradiction | exact H].
Qed.

Lemma hash_messages_data (Handshake_Type_code : Handshake_Type -> Z)
    (msgs : list (Handshake_Type * list Z)) (h : TLS_Handshake_Hash.t) :
  TLS_Handshake_Hash.data (hash_messages Handshake_Type_code msgs h)
  = TLS_Handshake_Hash.data h ++ transcript Handshake_Type_code msgs.
Proof.
  revert h. induction msgs as [| [t b] msgs IH]; intros h.
  - unfold transcript. simpl. rewrite app_nil_r. reflexivity.
  - unfold hash_messages in *. cbn [fold_left]. rewrite IH.
    rewrite update_msg_data. unfold transcript. cbn [map concat fst snd].
    unfold TLS_Handshake_Hash.update. cbn [TLS_Handshake_Hash.data].
    rewrite <- !app_assoc. reflexivity.
Qed.

(** X12.  The accumulator only grows and keeps the order of the messages:
    after the inbound helper has hashed a sequence of messages it holds
    what it held before followed by the framed messages in that order, and
    [final] is the MD5 digest followed by the SHA-1 digest of exactly
    these bytes, 36 bytes for digests of 16 and 20. *)
Theorem transcript_is_frames_in_order
    (Handshake_Type_code : Handshake_Type -> Z) (MD5 SHA_160 : list Z -> list Z)
    (msgs : list (Handshake_Type * list Z)) (h : TLS_Handshake_Hash.t) :
  (forall input, length (MD5 input) = 16%nat) ->
  (forall input, length (SHA_160 input) = 20%nat) ->
  let h' := hash_messages Handshake_Type_code msgs h in
  let bytes := TLS_Handshake_Hash.data h ++ transcript Handshake_Type_code msgs in
  TLS_Handshake_Hash.data h' = bytes
  /\ TLS_Handshake_Hash.final MD5 SHA_160 h' = MD5 bytes ++ SHA_160 bytes
  /\ length (TLS_Handshake_Hash.final MD5 SHA_160 h') = 36%nat.
Proof.
  intros Hmd5 Hsha h' bytes.
  assert (E : TLS_Handshake_Hash.data h' = bytes) by apply hash_messages_data.
  assert (F : TLS_Handshake_Hash.final MD5 SHA_160 h' = MD5 bytes ++ SHA_160 bytes).
  { unfold TLS_Handshake_Hash.final, HashFunction.final, HashFunction.update,
      HashFunction.new.
    cbn [HashFunction.digest HashFunction.input app]. rewrite E. reflexivity. }
  split; [exact E |]. split; [exact F |].
  rewrite F, length_app, Hmd5, Hsha. reflexivity.
Qed.

(** X13.  The frame that [send] builds is the 4-byte header followed by the
    body, and the three length bytes of the header spell, most significant
    first, the length of the body modulo 2^24: the length itself for every
    body below 16 MiB. *)
Theorem framed_length_bytes (Handshake_Type_code : Handshake_Type -> Z)
    `{HandshakeMessage T} (self : T) :
  let n := Z.of_nat (length (serialize self)) in
  exists b1 b2 b3 : Z,
    framed Handshake_Type_code self
    = u8 (Handshake_Type_code (type self)) :: b1 :: b2 :: b3 :: serialize self
    /\ is_byte b1 /\ is_byte b2 /\ is_byte b3
    /\ 65536 * b1 + 256 * b2 + b3 = n mod 16777216
    /\ (n < 16777216 -> 65536 * b1 + 256 * b2 + b3 = n)
    /\ length (framed Handshake_Type_code self) = (4 + length (serialize self))%nat.
Proof.
  intros n. rewrite framed_eq. unfold header. fold n.
  exists ((n / 65536) mod 256), ((n / 256) mod 256), (n mod 256).
  assert (Hn : 0 <= n) by (subst n; lia).
  split; [reflexivity |].
  split; [apply Z.mod_pos_bound; lia |].
  split; [apply Z.mod_pos_bound; lia |].
  split; [apply Z.mod_pos_bound; lia |].
  split; [Z.to_euclidean_division_equations; lia |].
  split; [intros Hlt; Z.to_euclidean_division_equations; lia |].
  reflexivity.
Qed.

(** ** The constructors, end to end *)

Section Constructors_End_To_End.

Variable RandomNumberGenerator : Type.
Variable random_vec :
  RandomNumberGenerator -> nat -> list Z * RandomNumberGenerator.
Variable Handshake_Type_code : Handshake_Type -> Z.
Variables TLSEXT_SERVER_NAME_INDICATION TLSEXT_SRP_IDENTIFIER : Z.
Variables SSL_V3 TLS_V10 TLS_V11 : Z.

(** The generator answers a request for [n] bytes with [n] bytes. *)
Hypothesis random_vec_bytes :
  forall g n, length (fst (random_vec g n)) = n
              /\ Forall is_byte (fst (random_vec g n)).

(** X14.  The Client Hello constructor takes the version, the suites and
    the compression methods from the policy, 32 bytes from the generator
    and an empty session id, and sends the hello; when the policy's values
    fit the wire format, a peer that decodes the transmitted body gets
    exactly this hello. *)
Theorem client_hello_new_decodes_at_peer (policy : TLS_Policy) (hash : nat)
    (w : World RandomNumberGenerator) :
  is_u16bit (pref_version policy) ->
  1 <= Z.of_nat (length (ciphersuites policy)) <= 32767 ->
  Forall is_u16bit (ciphersuites policy) ->
  (1 <= length (compression policy) <= 255)%nat ->
  Forall is_byte (compression policy) ->
  let r := Client_Hello_new RandomNumberGenerator random_vec
             Handshake_Type_code policy hash w in
  let ch := fst r in
  ch = Client_Hello.mk (pref_version policy) (fst (random_vec (rng w) 32)) []
         (ciphersuites policy) (compression policy) [] []
  /\ Record_Writer.wire (writer (snd r))
     = Record_Writer.wire (writer w) ++ Record_Writer.pending (writer w)
         ++ [(HANDSHAKE,
              header Handshake_Type_code CLIENT_HELLO
                     (Z.of_nat (length (Client_Hello.serialize ch)))
                ++ Client_Hello.serialize ch)]
  /\ Client_Hello.deserialize TLSEXT_SERVER_NAME_INDICATION
       TLSEXT_SRP_IDENTIFIER Client_Hello.empty (Client_Hello.serialize ch)
     = Ok ch.
Proof.
  intros Hv Hsl Hs Hcl Hc r ch. subst ch r.
  unfold Client_Hello_new, rng_random_vec.
  destruct (random_vec_bytes (rng w) 32) as [Hrl Hr].
  destruct (random_vec (rng w) 32) as [c_random rng'].
  cbn [fst snd] in *.
  split; [reflexivity |]. split.
  - rewrite send_effects. cbn [writer Record_Writer.wire].
    rewrite framed_eq. reflexivity.
  - set (ch := Client_Hello.mk _ _ _ _ _ _ _).
    assert (V : Client_Hello_valid ch).
    { split; cbn [ch Client_Hello.c_version Client_Hello.c_random
                  Client_Hello.sess_id Client_Hello.suites
                  Client_Hello.comp_methods length];
        try assumption; try lia; constructor. }
    destruct (deserialize_fields TLSEXT_SERVER_NAME_INDICATION
                TLSEXT_SRP_IDENTIFIER Client_Hello.empty ch [] V) as (r & P & E).
    rewrite app_nil_r in E. rewrite E.
    unfold Client_Hello.extensions.
    rewrite (has_remaining_at r [] P). reflexivity.
Qed.

(** X15.  When the policy picks a nonzero suite, the negotiating
    constructor sends a Server Hello that a peer decodes to exactly what
    was constructed, the picked suite included, provided the version is a
    supported one, the session id has at most 32 bytes and the policy's
    picks fit their types. *)
Theorem negotiated_hello_decodes_at_peer (policy : TLS_Policy)
    (certs : list X509_Certificate) (c_hello : Client_Hello.t)
    (session_id : list Z) (ver : Z) (hash : nat)
    (w : World RandomNumberGenerator) (self : Server_Hello.t) :
  let chosen :=
    choose_suite policy (Client_Hello.suites c_hello)
      (fst (scan_certs certs)) (snd (scan_certs certs)) in
  chosen <> 0 ->
  is_u16bit chosen ->
  is_byte (choose_compression policy (Client_Hello.comp_methods c_hello)) ->
  is_u16bit ver ->
  ver = SSL_V3 \/ ver = TLS_V10 \/ ver = TLS_V11 ->
  (length session_id <= 32)%nat ->
  Forall is_byte session_id ->
  exists sh : Server_Hello.t,
    fst (Server_Hello_negotiate RandomNumberGenerator random_vec
           Handshake_Type_code policy certs c_hello session_id ver hash w)
    = Ok sh
    /\ Server_Hello.suite sh = chosen
    /\ Record_Writer.wire
         (writer (snd (Server_Hello_negotiate RandomNumberGenerator random_vec
                         Handshake_Type_code policy certs c_hello session_id
                         ver hash w)))
       = Record_Writer.wire (writer w) ++ Record_Writer.pending (writer w)
           ++ [(HANDSHAKE,
                header Handshake_Type_code SERVER_HELLO
                       (Z.of_nat (length (Server_Hello.serialize sh)))
                  ++ Server_Hello.serialize sh)]
    /\ Server_Hello.deserialize SSL_V3 TLS_V10 TLS_V11 self
         (Server_Hello.serialize sh) = Ok sh.
Proof.
  intros chosen Hnz Hu Hcomp Hver Hsup Hsl Hs.
  unfold Server_Hello_negotiate, rng_random_vec.
  destruct (random_vec_bytes (rng w) 32) as [Hrl Hr].
  destruct (random_vec (rng w) 32) as [s_random rng'].
  cbn [fst snd] in Hrl, Hr.
  subst chosen. destruct (scan_certs certs) as [have_rsa have_dsa].
  cbn [fst snd] in *.
  destruct (Z.eqb_spec
              (choose_suite policy (Client_Hello.suites c_hello) have_rsa have_dsa) 0)
    as [E | _]; [contradiction |].
  eexists. split; [reflexivity |]. split; [reflexivity |]. split.
  - cbn [fst snd]. rewrite send_effects. cbn [writer Record_Writer.wire].
    rewrite framed_eq. reflexivity.
  - apply server_hello_roundtrip; [| exact Hsup].
    split; cbn [Server_Hello.s_version Server_Hello.s_random
                Server_Hello.sess_id Server_Hello.suite
                Server_Hello.comp_method]; assumption.
Qed.

(** X16.  Two messages sent one after the other through the same writer
    and transcript hash arrive in that order: the hash has accumulated the
    frame of the first followed by the frame of the second, the wire
    carries the two frames in the same order, and each message is hashed,
    written and flushed before the next one is touched. *)
Theorem sends_accumulate_in_order `{HandshakeMessage T1} `{HandshakeMessage T2}
    (m1 : T1) (m2 : T2) (hash : nat) (w : World RandomNumberGenerator) :
  let f1 := framed Handshake_Type_code m1 in
  let f2 := framed Handshake_Type_code m2 in
  let w' := send RandomNumberGenerator Handshake_Type_code m2 hash
              (send RandomNumberGenerator Handshake_Type_code m1 hash w) in
  hashes w' = alter (TLS_Handshake_Hash.update (f1 ++ f2)) hash (hashes w)
  /\ Record_Writer.wire (writer w')
     = Record_Writer.wire (writer w) ++ Record_Writer.pending (writer w)
         ++ [(HANDSHAKE, f1); (HANDSHAKE, f2)]
  /\ Record_Writer.pending (writer w') = []
  /\ trace w'
     = trace w ++ [Hash_update hash f1; Writer_send HANDSHAKE f1; Writer_flush;
                   Hash_update hash f2; Writer_send HANDSHAKE f2; Writer_flush].
Proof.
  intros f1 f2 w'. subst w'. rewrite !send_effects.
  cbn [hashes writer trace rng Record_Writer.wire Record_Writer.pending].
  fold f1 f2. repeat split.
  - rewrite alter_alter_eq. apply alter_ext. intros h _.
    unfold TLS_Handshake_Hash.update. cbn [compose TLS_Handshake_Hash.data].
    rewrite <- app_assoc. reflexivity.
  - rewrite ?app_nil_r, <- ?app_assoc. reflexivity.
  - rewrite <- ?app_assoc. reflexivity.
Qed.

(** X17.  Unlike a Hello Request, a Server Hello Done that is constructed
    for sending goes into the caller's transcript: the hash the caller
    passed has the 4-byte frame of the empty message appended, and the
    same frame is on the wire.  The receiving side accepts the empty body
    and refuses any other with a decoding error. *)
Theorem server_hello_done_is_hashed (hash : nat)
    (w : World RandomNumberGenerator) (h : TLS_Handshake_Hash.t) :
  hashes w !! hash = Some h ->
  let bytes := [u8 (Handshake_Type_code SERVER_HELLO_DONE); 0; 0; 0] in
  let r := Server_Hello_Done_new RandomNumberGenerator Handshake_Type_code
             hash w in
  hashes (snd r)
  = <[hash := TLS_Handshake_Hash.mk (TLS_Handshake_Hash.data h ++ bytes)]>
      (hashes w)
  /\ Record_Writer.wire (writer (snd r))
     = Record_Writer.wire (writer w) ++ Record_Writer.pending (writer w)
         ++ [(HANDSHAKE, bytes)]
  /\ Server_Hello_Done.deserialize (fst r) (Server_Hello_Done.serialize (fst r))
     = Ok (fst r)
  /\ forall (b : Z) (rest : list Z),
       Server_Hello_Done.deserialize (fst r) (b :: rest)
       = Throw (Decoding_Error "Server_Hello_Done: Must be empty, and is not").
Proof.
  intros Hh bytes r. subst r. unfold Server_Hello_Done_new. cbn [fst snd].
  rewrite send_effects. cbn [hashes writer Record_Writer.wire].
  split; [| split; [| split]].
  - rewrite (alter_alt_Some _ _ _ _ Hh). reflexivity.
  - reflexivity.
  - reflexivity.
  - intros b rest. reflexivity.
Qed.

(** X19.  The constructor with caller-supplied values sends a Server Hello
    that a peer decodes to exactly the session id, suite, compression
    method and version the caller gave, provided they fit the wire format
    and the version is a supported one. *)
Theorem resumed_hello_decodes_at_peer (session_id : list Z)
    (ciphersuite compression ver : Z) (hash : nat)
    (w : World RandomNumberGenerator) (self : Server_Hello.t) :
  is_u16bit ciphersuite ->
  is_byte compression ->
  is_u16bit ver ->
  ver = SSL_V3 \/ ver = TLS_V10 \/ ver = TLS_V11 ->
  (length session_id <= 32)%nat ->
  Forall is_byte session_id ->
  let r := Server_Hello_resume RandomNumberGenerator random_vec
             Handshake_Type_code session_id ciphersuite compression ver hash w in
  fst r = Server_Hello.mk ver session_id (fst (random_vec (rng w) 32))
            ciphersuite compression
  /\ Record_Writer.wire (writer (snd r))
     = Record_Writer.wire (writer w) ++ Record_Writer.pending (writer w)
         ++ [(HANDSHAKE,
              header Handshake_Type_code SERVER_HELLO
                     (Z.of_nat (length (Server_Hello.serialize (fst r))))
                ++ Server_Hello.serialize (fst r))]
  /\ Server_Hello.deserialize SSL_V3 TLS_V10 TLS_V11 self
       (Server_Hello.serialize (fst r)) = Ok (fst r).
Proof.
  intros Hu Hcomp Hver Hsup Hsl Hs r. subst r.
  unfold Server_Hello_resume, rng_random_vec.
  destruct (random_vec_bytes (rng w) 32) as [Hrl Hr].
  destruct (random_vec (rng w) 32) as [s_random rng'].
  cbn [fst snd] in *.
  split; [reflexivity |]. split.
  - rewrite send_effects. cbn [writer Record_Writer.wire].
    rewrite framed_eq. reflexivity.
  - apply server_hello_roundtrip; [| exact Hsup].
    split; cbn [Server_Hello.s_version Server_Hello.s_random
                Server_Hello.sess_id Server_Hello.suite
                Server_Hello.comp_method]; assumption.
Qed.

(** X21.  The frame a Hello Request constructor puts on the wire is a
    header that announces a body of 0 bytes and nothing else; the
    receiving side accepts the empty body and refuses any other with a
    decoding error. *)
Theorem hello_request_frame_is_header_only (w : World RandomNumberGenerator) :
  let r := Hello_Request_new RandomNumberGenerator Handshake_Type_code w in
  framed Handshake_Type_code (fst r)
  = header Handshake_Type_code HELLO_REQUEST 0
  /\ Record_Writer.wire (writer (snd r))
     = Record_Writer.wire (writer w) ++ Record_Writer.pending (writer w)
         ++ [(HANDSHAKE, header Handshake_Type_code HELLO_REQUEST 0)]
  /\ Hello_Request.deserialize (fst r) (Hello_Request.serialize (fst r))
     = Ok (fst r)
  /\ forall (b : Z) (rest : list Z),
       Hello_Request.deserialize (fst r) (b :: rest)
       = Throw (Decoding_Error "Hello_Request: Must be empty, and is not").
Proof.
  intros r. subst r. unfold Hello_Request_new, hash_construct, hash_destroy.
  cbn [fst snd]. rewrite send_effects. cbn [writer Record_Writer.wire].
  repeat split.
Qed.

End Constructors_End_To_End.

(** ** Examples of the further theorems *)

Lemma resumed_hello_valid : Server_Hello_valid resumed_hello.
Proof.
  split; simpl; try lia; unfold is_u16bit, is_byte; try lia;
    repeat constructor; unfold is_byte; lia.
Qed.

Lemma constant_rng_bytes (g : unit) (n : nat) :
  length (fst (constant_rng g n)) = n /\ Forall is_byte (fst (constant_rng g n)).
Proof.
  unfold constant_rng. cbn [fst]. split; [apply repeat_length |].
  induction n as [| n IH]; simpl; constructor;
    [unfold is_byte; lia | exact IH].
Qed.

Lemma server_hello_deserialize_serialize_witness :
  Server_Hello_valid resumed_hello
  /\ Server_Hello.deserialize wire_SSL_V3 wire_TLS_V10 wire_TLS_V11 resumed_hello
       (Server_Hello.serialize resumed_hello) = Ok resumed_hello.
Proof.
  split; [exact resumed_hello_valid |].
  apply (server_hello_deserialize_serialize wire_SSL_V3 wire_TLS_V10 wire_TLS_V11
           resumed_hello resumed_hello resumed_hello_valid).
  right. left. reflexivity.
Defined.

Lemma server_hello_ignores_trailing_bytes_witness :
  Server_Hello_valid resumed_hello
  /\ Server_Hello.deserialize wire_SSL_V3 wire_TLS_V10 wire_TLS_V11 resumed_hello
       (Server_Hello.serialize resumed_hello ++ [222; 173]) = Ok resumed_hello.
Proof.
  split; [exact resumed_hello_valid |].
  apply (server_hello_ignores_trailing_bytes wire_SSL_V3 wire_TLS_V10
           wire_TLS_V11 resumed_hello resumed_hello [222; 173]
           resumed_hello_valid).
  right. left. reflexivity.
Defined.

Lemma server_hello_rejects_unsupported_version_witness :
  Server_Hello.deserialize wire_SSL_V3 wire_TLS_V10 wire_TLS_V11 resumed_hello
    [3; 1; 0]
  = Throw (Decoding_Error "Server_Hello: Packet corrupted")
  /\ Server_Hello.deserialize wire_SSL_V3 wire_TLS_V10 wire_TLS_V11 resumed_hello
       ([3; 3] ++ repeat 0 36)
     = Throw (TLS_Exception PROTOCOL_VERSION
                            "Server_Hello: Unsupported server version").
Proof.
  split.
  - apply (proj1 (server_hello_rejects_unsupported_version wire_SSL_V3
                    wire_TLS_V10 wire_TLS_V11 resumed_hello [3; 1; 0])).
    simpl. lia.
  - apply (proj2 (server_hello_rejects_unsupported_version wire_SSL_V3
                    wire_TLS_V10 wire_TLS_V11 resumed_hello
                    ([3; 3] ++ repeat 0 36))).
    + simpl. lia.
    + vm_compute. discriminate.
    + vm_compute. discriminate.
    + vm_compute. discriminate.
Defined.

Lemma server_hello_decoded_is_valid_witness :
  Forall is_byte (Server_Hello.serialize resumed_hello)
  /\ Server_Hello.deserialize wire_SSL_V3 wire_TLS_V10 wire_TLS_V11 resumed_hello
       (Server_Hello.serialize resumed_hello) = Ok resumed_hello
  /\ length (Server_Hello.s_random resumed_hello) = 32%nat.
Proof.
  assert (B : Forall is_byte (Server_Hello.serialize resumed_hello)).
  { let l := eval vm_compute in (Server_Hello.serialize resumed_hello) in
    change (Forall is_byte l).
    repeat constructor; unfold is_byte; lia. }
  split; [exact B |]. split; [reflexivity |].
  destruct (server_hello_decoded_is_valid wire_SSL_V3 wire_TLS_V10 wire_TLS_V11
              resumed_hello resumed_hello (Server_Hello.serialize resumed_hello)
              B eq_refl) as ([_ Hlen _ _ _ _ _] & _).
  exact Hlen.
Defined.

Lemma client_hello_decoded_is_valid_witness :
  Forall is_byte (Client_Hello.serialize offering_hello)
  /\ Client_Hello.deserialize wire_sni wire_srp Client_Hello.empty
       (Client_Hello.serialize offering_hello) = Ok offering_hello
  /\ (length (Client_Hello.sess_id offering_hello) <= 32)%nat.
Proof.
  assert (B : Forall is_byte (Client_Hello.serialize offering_hello)).
  { let l := eval vm_compute in (Client_Hello.serialize offering_hello) in
    change (Forall is_byte l).
    repeat constructor; unfold is_byte; lia. }
  split; [exact B |]. split; [reflexivity |].
  destruct (client_hello_decoded_is_valid wire_sni wire_srp Client_Hello.empty
              offering_hello (Client_Hello.serialize offering_hello)
              B eq_refl) as ([_ _ _ Hlen _ _ _ _ _] & _).
  exact Hlen.
Defined.

Lemma client_hello_rejects_bad_extension_size_witness :
  Client_Hello_valid offering_hello
  /\ Client_Hello.deserialize wire_sni wire_srp Client_Hello.empty
       (Client_Hello.serialize offering_hello ++ be16 3 ++ [0; 35; 0; 0])
     = Throw (Decoding_Error "Client_Hello: Bad extension size").
Proof.
  split; [exact offering_hello_valid |].
  apply (proj2 (client_hello_rejects_bad_extension_size wire_sni wire_srp
                  Client_Hello.empty offering_hello offering_hello_valid)).
  - unfold is_u16bit. lia.
  - simpl. lia.
Defined.

Lemma two_unknown_extensions_unknown :
  Forall (fun e => is_u16bit (fst e) /\ fst e <> wire_sni /\ fst e <> wire_srp
                   /\ Z.of_nat (length (snd e)) <= 65535)
         two_unknown_extensions.
Proof.
  repeat constructor; unfold is_u16bit, wire_sni, wire_srp; simpl; lia.
Qed.

Lemma client_hello_skips_unknown_extensions_witness :
  Client_Hello_valid offering_hello
  /\ Client_Hello.deserialize wire_sni wire_srp Client_Hello.empty
       (Client_Hello.serialize offering_hello
          ++ be16 12 ++ encode_extensions two_unknown_extensions)
     = Ok offering_hello.
Proof.
  split; [exact offering_hello_valid |].
  apply (client_hello_skips_unknown_extensions wire_sni wire_srp
           Client_Hello.empty offering_hello two_unknown_extensions
           offering_hello_valid two_unknown_extensions_unknown).
  simpl. lia.
Defined.

Lemma client_hello_records_srp_identity_witness :
  Client_Hello_valid offering_hello
  /\ Client_Hello.deserialize wire_sni wire_srp Client_Hello.empty
       (Client_Hello.serialize offering_hello
          ++ be16 8 ++ extension wire_srp 4 [3; 98; 111; 98])
     = Ok (Client_Hello.mk 769 (repeat 7 32) [] [49153; 47] [0] []
             [98; 111; 98]).
Proof.
  split; [exact offering_hello_valid |].
  apply (client_hello_records_srp_identity wire_sni wire_srp
           Client_Hello.empty offering_hello [98; 111; 98] 4
           offering_hello_valid).
  - unfold is_u16bit, wire_srp. lia.
  - unfold wire_srp, wire_sni. lia.
  - simpl. lia.
Defined.

Lemma sni_name_loop_reads_declared_bytes_witness :
  Client_Hello.sni_name_loop 100 8 [] (reader.mk two_name_hello 51)
  = Ok ([98], reader.mk two_name_hello 59)
  /\ Z.of_nat (reader.remaining_bytes (reader.mk two_name_hello 51))
     = Z.of_nat (reader.remaining_bytes (reader.mk two_name_hello 59)) + 8.
Proof.
  split; [reflexivity |].
  apply (sni_name_loop_reads_declared_bytes 100 8 [] [98]
           (reader.mk two_name_hello 51) (reader.mk two_name_hello 59)).
  - lia.
  - vm_compute. discriminate.
  - reflexivity.
Defined.

Lemma sni_name_step_wraps_witness :
  exists r' : reader.t,
    Client_Hello.sni_name_step 1 [] (reader.mk short_list_hello 51)
    = Ok ((65533, [97]), r').
Proof.
  destruct (sni_name_step_wraps (reader.mk short_list_hello 51) 1 [] [97]
              (extension 1 256 (repeat 65 256)))
    as (r' & _ & E & _).
  - reflexivity.
  - simpl. lia.
  - simpl. lia.
  - exists r'. exact E.
Defined.

Lemma deserialize_sslv2_rejects_ill_formed_witness :
  Forall is_byte sslv2_hello_with_session
  /\ ~ sslv2_well_formed sslv2_hello_with_session
  /\ Client_Hello.deserialize_sslv2 Client_Hello.empty sslv2_hello_with_session
     = Throw (Decoding_Error "Client_Hello: SSLv2 hello corrupted").
Proof.
  assert (B : Forall is_byte sslv2_hello_with_session).
  { unfold sslv2_hello_with_session. repeat constructor; unfold is_byte; lia. }
  assert (N : ~ sslv2_well_formed sslv2_hello_with_session).
  { intros (_ & _ & Hsid & _). vm_compute in Hsid. discriminate. }
  split; [exact B |]. split; [exact N |].
  apply (deserialize_sslv2_rejects_ill_formed Client_Hello.empty
           sslv2_hello_with_session B N).
Defined.

Lemma transcript_is_frames_in_order_witness :
  (forall input, length (checksum_digest 16 input) = 16%nat)
  /\ (forall input, length (checksum_digest 20 input) = 20%nat)
  /\ TLS_Handshake_Hash.data
       (hash_messages wire_code [(CLIENT_HELLO, [1; 2]); (SERVER_HELLO_DONE, [])]
          (TLS_Handshake_Hash.mk [9]))
     = [9] ++ [1; 0; 0; 2; 1; 2] ++ [14; 0; 0; 0].
Proof.
  split; [apply checksum_digest_length |].
  split; [apply checksum_digest_length |].
  destruct (transcript_is_frames_in_order wire_code (checksum_digest 16)
              (checksum_digest 20)
              [(CLIENT_HELLO, [1; 2]); (SERVER_HELLO_DONE, [])]
              (TLS_Handshake_Hash.mk [9])
              (checksum_digest_length 16) (checksum_digest_length 20))
    as (Hdata & _).
  exact Hdata.
Defined.

Lemma client_hello_new_decodes_at_peer_witness :
  (forall g n, length (fst (constant_rng g n)) = n
               /\ Forall is_byte (fst (constant_rng g n)))
  /\ is_u16bit (pref_version rsa_only_policy)
  /\ fst (Client_Hello_new unit constant_rng wire_code rsa_only_policy 0
            one_hash_world)
     = Client_Hello.mk 769 (repeat 171 32) [] [47] [0] [] [].
Proof.
  split; [exact constant_rng_bytes |].
  split; [unfold is_u16bit; simpl; lia |].
  destruct (client_hello_new_decodes_at_peer unit constant_rng wire_code
              wire_sni wire_srp constant_rng_bytes rsa_only_policy 0%nat
              one_hash_world) as (Hch & _).
  - unfold is_u16bit. simpl. lia.
  - simpl. lia.
  - repeat constructor; unfold is_u16bit; lia.
  - simpl. lia.
  - repeat constructor; unfold is_byte; lia.
  - exact Hch.
Defined.

Lemma negotiated_hello_decodes_at_peer_witness :
  exists sh : Server_Hello.t,
    fst (Server_Hello_negotiate unit constant_rng wire_code rsa_only_policy
           [rsa_cert] offering_hello [1; 2; 3] 769 0 one_hash_world) = Ok sh
    /\ Server_Hello.suite sh = 47
    /\ Server_Hello.deserialize wire_SSL_V3 wire_TLS_V10 wire_TLS_V11
         resumed_hello (Server_Hello.serialize sh) = Ok sh.
Proof.
  destruct (negotiated_hello_decodes_at_peer unit constant_rng wire_code
              wire_SSL_V3 wire_TLS_V10 wire_TLS_V11 constant_rng_bytes
              rsa_only_policy [rsa_cert] offering_hello [1; 2; 3] 769 0%nat
              one_hash_world resumed_hello)
    as (sh & Hsh & Hsuite & _ & Hdec).
  - vm_compute. discriminate.
  - vm_compute. split; [discriminate | reflexivity].
  - vm_compute. split; [discriminate | reflexivity].
  - unfold is_u16bit. lia.
  - right. left. reflexivity.
  - simpl. lia.
  - repeat constructor; unfold is_byte; lia.
  - exists sh. split; [exact Hsh |]. split; [exact Hsuite | exact Hdec].
Defined.

Lemma resumed_hello_decodes_at_peer_witness :
  is_u16bit 47
  /\ fst (Server_Hello_resume unit constant_rng wire_code [1; 2; 3] 47 0 769 0
            one_hash_world)
     = resumed_hello
  /\ Server_Hello.deserialize wire_SSL_V3 wire_TLS_V10 wire_TLS_V11 resumed_hello
       (Server_Hello.serialize resumed_hello) = Ok resumed_hello.
Proof.
  split; [unfold is_u16bit; lia |].
  destruct (resumed_hello_decodes_at_peer unit constant_rng wire_code
              wire_SSL_V3 wire_TLS_V10 wire_TLS_V11 constant_rng_bytes
              [1; 2; 3] 47 0 769 0%nat one_hash_world resumed_hello)
    as (Hsh & _ & Hdec).
  - unfold is_u16bit. lia.
  - unfold is_byte. lia.
  - unfold is_u16bit. lia.
  - right. left. reflexivity.
  - simpl. lia.
  - repeat constructor; unfold is_byte; lia.
  - split; [exact Hsh | exact Hdec].
Defined.

Lemma server_hello_done_is_hashed_witness :
  hashes one_hash_world !! 0%nat = Some (TLS_Handshake_Hash.mk [9])
  /\ hashes (snd (Server_Hello_Done_new unit wire_code 0 one_hash_world)) !! 0%nat
     = Some (TLS_Handshake_Hash.mk [9; 14; 0; 0; 0]).
Proof.
  split; [reflexivity |].
  destruct (server_hello_done_is_hashed unit wire_code 0%nat one_hash_world
              (TLS_Handshake_Hash.mk [9]) eq_refl) as (Hh & _).
  rewrite Hh. reflexivity.
Defined.

(** ** The certificate scan and the generator *)

(** X22.  The scan of the certificates raises the RSA flag exactly when
    some certificate carries a key whose algorithm name is "RSA", and the
    DSA flag exactly when some certificate carries a "DSA" key; the order
    of the certificates and keys of other algorithms play no part. *)
Theorem scan_certs_finds_rsa_and_dsa (certs : list X509_Certificate) :
  (fst (scan_certs certs) = true
   <-> exists c, In c certs /\ algo_name (subject_public_key c) = "RSA")
  /\ (snd (scan_certs certs) = true
      <-> exists c, In c certs /\ algo_name (subject_public_key c) = "DSA").
Proof.
  assert (E : forall name,
    existsb (fun c => String.eqb (algo_name (subject_public_key c)) name) certs
    = true
    <-> exists c, In c certs /\ algo_name (subject_public_key c) = name).
  { intros name. rewrite existsb_exists. split.
    - intros (c & Hin & Hc). exists c. split; [exact Hin |].
      apply String.eqb_eq. exact Hc.
    - intros (c & Hin & Hc). exists c. split; [exact Hin |].
      apply String.eqb_eq. exact Hc. }
  rewrite scan_certs_flags. cbn [fst snd]. split; apply E.
Qed.

Section Generator.

Variable RandomNumberGenerator : Type.
Variable random_vec :
  RandomNumberGenerator -> nat -> list Z * RandomNumberGenerator.
Variable Handshake_Type_code : Handshake_Type -> Z.

(** X23.  The negotiating constructor draws its 32 random bytes before it
    asks the policy: whether a suite is agreed or the handshake fails, the
    generator is left in the state after one request for 32 bytes, and a
    Server Hello that is constructed carries those bytes as its random. *)
Theorem negotiate_draws_random_first (policy : TLS_Policy)
    (certs : list X509_Certificate) (c_hello : Client_Hello.t)
    (session_id : list Z) (ver : Z) (hash : nat)
    (w : World RandomNumberGenerator) :
  let r := Server_Hello_negotiate RandomNumberGenerator random_vec
             Handshake_Type_code policy certs c_hello session_id ver hash w in
  rng (snd r) = snd (random_vec (rng w) 32)
  /\ match fst r with
     | Ok sh => Server_Hello.s_random sh = fst (random_vec (rng w) 32)
                /\ Server_Hello.sess_id sh = session_id
                /\ Server_Hello.s_version sh = ver
                /\ Server_Hello.comp_method sh
                   = choose_compression policy (Client_Hello.comp_methods c_hello)
     | Throw e => e = TLS_Exception HANDSHAKE_FAILURE
                        "Can't agree on a ciphersuite with client"
     | Out_of_fuel => False
     end.
Proof.
  intros r. subst r. unfold Server_Hello_negotiate, rng_random_vec.
  destruct (random_vec (rng w) 32) as [s_random rng'].
  destruct (scan_certs certs) as [have_rsa have_dsa].
  destruct (_ =? 0); cbn [fst snd].
  - split; reflexivity.
  - rewrite send_effects. cbn [rng]. repeat split.
Qed.

End Generator.

(** ** A server name extension among other extensions *)

Section Server_Name_Among_Others.

Variables TLSEXT_SERVER_NAME_INDICATION TLSEXT_SRP_IDENTIFIER : Z.

(** X24.  The host name taken from a server name extension survives the
    extensions that follow: a hello with a server name extension and then
    any block of extensions that are neither server name nor SRP decodes
    with the last DNS name of the list as the requested host name. *)
Theorem sni_then_unknown_extensions (self x : Client_Hello.t)
    (names : list (list Z)) (tail : list Z) (ext_size : Z)
    (exts : list (Z * list Z)) :
  Client_Hello_valid x ->
  is_u16bit TLSEXT_SERVER_NAME_INDICATION ->
  Forall (fun name => (1 <= length name)%nat) names ->
  (tail = [] \/ exists t junk, tail = t :: junk /\ t <> 0) ->
  Forall (fun e => is_u16bit (fst e)
                   /\ fst e <> TLSEXT_SERVER_NAME_INDICATION
                   /\ fst e <> TLSEXT_SRP_IDENTIFIER
                   /\ Z.of_nat (length (snd e)) <= 65535) exts ->
  let name_list := concat (map dns_name_entry names) ++ tail in
  let n := Z.of_nat (length name_list) in
  let total := 6 + n + Z.of_nat (length (encode_extensions exts)) in
  total <= 65535 ->
  Client_Hello.deserialize TLSEXT_SERVER_NAME_INDICATION TLSEXT_SRP_IDENTIFIER
    self
    (Client_Hello.serialize x
       ++ be16 total
       ++ extension TLSEXT_SERVER_NAME_INDICATION ext_size
            (server_name_list n name_list)
       ++ encode_extensions exts)
  = Ok (Client_Hello.mk (Client_Hello.c_version x) (Client_Hello.c_random x)
          (Client_Hello.sess_id x) (Client_Hello.suites x)
          (Client_Hello.comp_methods x)
          (List.last names (Client_Hello.requested_hostname self))
          (Client_Hello.requested_srp_id self)).
Proof.
  intros V Hsni Hnames Htail Hexts name_list n total Htotal.
  set (enc := encode_extensions exts) in *.
  set (block := extension TLSEXT_SERVER_NAME_INDICATION ext_size
                  (server_name_list n (name_list ++ enc))).
  assert (Eb : extension TLSEXT_SERVER_NAME_INDICATION ext_size
                 (server_name_list n name_list) ++ enc = block).
  { unfold block, extension, server_name_list. rewrite <- !app_assoc. reflexivity. }
  rewrite Eb.
  assert (L : length block = (6 + length name_list + length enc)%nat).
  { unfold block, extension, server_name_list, be16.
    cbn [app length]. rewrite length_app. lia. }
  destruct (deserialize_fields TLSEXT_SERVER_NAME_INDICATION
              TLSEXT_SRP_IDENTIFIER self x (be16 total ++ block) V)
    as (r & P & E).
  rewrite E. clear E.
  set (self1 := Client_Hello.mk _ _ _ _ _ _ _).
  unfold be16 in P. cbn [app] in P.
  unfold Client_Hello.extensions.
  rewrite (has_remaining_at r _ P).
  cbn [length Nat.ltb Nat.leb].
  erewrite bind_Ok by (eapply get_u16bit_at; exact P).
  rewrite make_u16bit_be16 by (unfold is_u16bit, total, n; lia).
  set (r1 := reader.advance 2 r).
  assert (P1 : positioned r1 block).
  { apply (positioned_advance r [total / 256; total mod 256]);
      [exact P | reflexivity]. }
  rewrite (positioned_remaining r1 _ P1), L.
  replace (Z.of_nat (6 + length name_list + length enc) =? total)
    with true by (symmetry; apply Z.eqb_eq; unfold total, n; lia).
  cbn [negb].
  rewrite (extension_loop_sni TLSEXT_SERVER_NAME_INDICATION TLSEXT_SRP_IDENTIFIER
             _ self1 r1 ext_size n (name_list ++ enc) Hsni)
    by (try exact P1; unfold is_u16bit; lia).
  set (r4 := reader.advance 2 (reader.advance 2 (reader.advance 2 r1))).
  assert (P4 : positioned r4 (name_list ++ enc)).
  { subst r4.
    apply (positioned_advance _ [n / 256; n mod 256]); [| reflexivity].
    apply (positioned_advance _ [ext_size / 256; ext_size mod 256]);
      [| reflexivity].
    apply (positioned_advance r1 [TLSEXT_SERVER_NAME_INDICATION / 256;
                                  TLSEXT_SERVER_NAME_INDICATION mod 256]);
      [exact P1 | reflexivity]. }
  destruct (sni_name_loop_names names tail enc
              Hnames Htail (S (reader.remaining_bytes r4)) r4
              (Client_Hello.requested_hostname self1))
    as (r5 & P5 & E5).
  { fold name_list n. lia. }
  { exact P4. }
  { rewrite (positioned_remaining r4 _ P4). unfold name_list. lia. }
  fold name_list n in E5.
  erewrite bind_Ok by exact E5.
  destruct (extension_loop_unknown TLSEXT_SERVER_NAME_INDICATION
              TLSEXT_SRP_IDENTIFIER exts Hexts
              (6 + length name_list + length enc)%nat
              (Client_Hello.set_requested_hostname
                 (List.last names (Client_Hello.requested_hostname self1)) self1)
              r5 P5) as (r6 & _ & E6).
  { fold enc. lia. }
  rewrite E6. reflexivity.
Qed.

End Server_Name_Among_Others.

Lemma sni_then_unknown_extensions_witness :
  Client_Hello_valid offering_hello
  /\ is_u16bit wire_sni
  /\ Client_Hello.deserialize wire_sni wire_srp Client_Hello.empty
       (Client_Hello.serialize offering_hello
          ++ be16 26
          ++ extension wire_sni 10
               (server_name_list 8 (dns_name_entry [97] ++ dns_name_entry [98]))
          ++ encode_extensions two_unknown_extensions)
     = Ok (Client_Hello.mk 769 (repeat 7 32) [] [49153; 47] [0] [98] []).
Proof.
  split; [exact offering_hello_valid |].
  split; [unfold is_u16bit, wire_sni; lia |].
  apply (sni_then_unknown_extensions wire_sni wire_srp Client_Hello.empty
           offering_hello [[97]; [98]] [] 10 two_unknown_extensions
           offering_hello_valid).
  - unfold is_u16bit, wire_sni. lia.
  - repeat constructor.
  - left. reflexivity.
  - exact two_unknown_extensions_unknown.
  - vm_compute. discriminate.
Defined.
